(** * Prompto: Firestore migration scripts and read API

    A shallow embedding of the JavaScript sources:
    - the migration script v2 (batch writer, category linker, collectors),
    - the dynamic migration script (its batch writer, array extraction and
      file-name pattern),
    - the storage-backed read API (config cache, pagination, handlers),
    - the Firestore-backed read API (API-key middleware, paginated query).

    Values that come out of [JSON.parse] are modelled by [JsVal]; effects
    (the document store, the storage bucket, the clock) are threaded
    explicitly, and every outcome the vendor SDK decides on its own
    (a commit that is rejected, a scan that fails, a path or a payload the
    SDK refuses) is an input of the model. *)

From stdpp Require Import gmap strings list.
From Stdlib Require Import ZArith Lia Ascii.

Set Warnings "-register-all".
Local Open Scope string_scope.
Local Open Scope list_scope.

(** ** JavaScript values *)

(** Numbers are kept as integers: the sources only test numbers for
    truthiness, compare them and clamp them.  [JServerTimestamp] is the
    sentinel returned by [admin.firestore.FieldValue.serverTimestamp()].
    [JBuiltin name] is the member [name] that a plain object inherits from
    [Object.prototype] (a function, or the prototype itself for
    [__proto__]).  An object is the list of its own enumerable properties
    in [Object.keys] order. *)
Inductive JsVal : Type :=
| JUndefined
| JNull
| JBool (b : bool)
| JNum (n : Z)
| JStr (s : string)
| JArr (items : list JsVal)
| JObj (fields : list (string * JsVal))
| JServerTimestamp
| JBuiltin (name : string).

Abbreviation Fields := (list (string * JsVal)).

(** The JavaScript ToBoolean conversion. *)
Definition truthy (v : JsVal) : bool :=
  match v with
  | JUndefined | JNull => false
  | JBool b => b
  | JNum n => negb (n =? 0)%Z
  | JStr s => negb (String.eqb s "")
  | JArr _ | JObj _ | JServerTimestamp | JBuiltin _ => true
  end.

(** [a || b] *)
Definition jsOr (a b : JsVal) : JsVal := if truthy a then a else b.

(** [Array.isArray] *)
Definition isArray (v : JsVal) : bool :=
  match v with JArr _ => true | _ => false end.

(** Own property lookup in a property list. *)
Fixpoint lookupField (k : string) (fs : Fields) : option JsVal :=
  match fs with
  | [] => None
  | (k', v) :: rest => if String.eqb k k' then Some v else lookupField k rest
  end.

(** The names every plain object inherits from [Object.prototype]. *)
Definition objectPrototypeMembers : list string :=
  [ "constructor"; "__defineGetter__"; "__defineSetter__"; "hasOwnProperty";
    "__lookupGetter__"; "__lookupSetter__"; "isPrototypeOf";
    "propertyIsEnumerable"; "toString"; "valueOf"; "__proto__";
    "toLocaleString" ].

Definition inStrings (k : string) (l : list string) : bool :=
  existsb (String.eqb k) l.

(** [obj[k]] on a plain object: own property, else inherited member, else
    [undefined]. *)
Definition objGet (fs : Fields) (k : string) : JsVal :=
  match lookupField k fs with
  | Some v => v
  | None => if inStrings k objectPrototypeMembers then JBuiltin k else JUndefined
  end.

(** [v[k]] / [v.k] on any value.  [None] is the [TypeError] raised on
    [null] and [undefined].  On arrays and primitives the result is
    [undefined]: the sources read [_id], [id], [categoryMap] and
    [promptDetailsFiles] from such values, which are members of none of
    them.  (The one user-chosen name, read from [config.categoryMap],
    is modelled exactly when [categoryMap] is a plain object.) *)
Definition getProp (v : JsVal) (k : string) : option JsVal :=
  match v with
  | JUndefined | JNull => None
  | JObj fs => Some (objGet fs k)
  | _ => Some JUndefined
  end.

(** Errors raised by the scripts, by message family. *)
Inductive Err : Type :=
| FileNotFound (fileName : string)
| NoArrayFound (fileName : string)
| InvalidJsonStructure (fileName : string)
| TypeError
| ConfigUnavailable
| OtherError.

Inductive Result (A : Type) : Type :=
| Ok (a : A)
| Throw (e : Err).
Arguments Ok {A} a.
Arguments Throw {A} e.

Definition bind {A B} (r : Result A) (f : A -> Result B) : Result B :=
  match r with Ok a => f a | Throw e => Throw e end.

Notation "'let!' x ':=' c1 'in' c2" := (bind c1 (fun x => c2))
  (at level 10, x pattern, c1 at level 100, c2 at level 200).

(** ** Storage reader: [extractArrayFromJSON] *)

Module Extract.

(** [possibleKeys] of the v2 script. *)
Definition possibleKeys_v2 : list string :=
  [ "data"; "items"; "results"; "categories"; "prompts"; "promptDetails";
    "list" ].

(** [possibleKeys] of the dynamic script. *)
Definition possibleKeys_dyn : list string :=
  [ "data"; "items"; "results"; "categories"; "prompts"; "promptDetails";
    "list"; "records" ].

(** The two [for (const key of ...)] loops: the first key of [keys]
    under which [data] holds an array. *)
Fixpoint firstArrayUnder (fs : Fields) (keys : list string) : option JsVal :=
  match keys with
  | [] => None
  | key :: rest =>
      if isArray (objGet fs key) then Some (objGet fs key)
      else firstArrayUnder fs rest
  end.

(** [Object.keys(data)] *)
Definition objectKeys (fs : Fields) : list string := map fst fs.

Definition extractArrayFromJSON (possibleKeys : list string)
    (data : JsVal) (fileName : string) : Result JsVal :=
  if isArray data then Ok data
  else
    match data with
    | JObj fs =>
        match firstArrayUnder fs possibleKeys with
        | Some a => Ok a
        | None =>
            match firstArrayUnder fs (objectKeys fs) with
            | Some a => Ok a
            | None => Throw (NoArrayFound fileName)
            end
        end
    | _ => Throw (InvalidJsonStructure fileName)
    end.

Definition extractArrayFromJSON_v2 := extractArrayFromJSON possibleKeys_v2.
Definition extractArrayFromJSON_dyn := extractArrayFromJSON possibleKeys_dyn.

(** "[data] has an array-valued property": some key reads back an array. *)
Definition hasArrayProperty (fs : Fields) : Prop :=
  exists k, isArray (objGet fs k) = true.

(** [k] is the first key of [keys] under which [fs] holds an array. *)
Definition firstArrayKey (fs : Fields) (keys : list string) (k : string) : Prop :=
  exists before after,
    keys = before ++ k :: after /\
    isArray (objGet fs k) = true /\
    Forall (fun k' => isArray (objGet fs k') = false) before.

Definition noArrayKey (fs : Fields) (keys : list string) : Prop :=
  Forall (fun k' => isArray (objGet fs k') = false) keys.

(** The reader's contract in the words of the specification: an array is
    returned as it is; in an object the array under the first matching
    priority key wins, then the first array-valued property; anything
    else is an error. *)
Definition readerContract (priority : list string) (data : JsVal)
    (fileName : string) (r : Result JsVal) : Prop :=
  match data with
  | JArr _ => r = Ok data
  | JObj fs =>
      (exists k, firstArrayKey fs priority k /\ r = Ok (objGet fs k)) \/
      (noArrayKey fs priority /\
       exists k, firstArrayKey fs (objectKeys fs) k /\ r = Ok (objGet fs k)) \/
      (~ hasArrayProperty fs /\ r = Throw (NoArrayFound fileName))
  | _ => r = Throw (InvalidJsonStructure fileName)
  end.

(** The inputs on which the specification asks for [MalformedInput]. *)
Definition malformed (data : JsVal) : Prop :=
  match data with
  | JArr _ => False
  | JObj fs => ~ hasArrayProperty fs
  | _ => True
  end.

Definition throws {A} (r : Result A) : Prop := exists e, r = Throw e.

End Extract.

(** ** Object construction *)

(** [obj[k] = v] on a property list: an existing key keeps its position. *)
Fixpoint setField (k : string) (v : JsVal) (fs : Fields) : Fields :=
  match fs with
  | [] => [(k, v)]
  | (k', v') :: rest =>
      if String.eqb k k' then (k, v) :: rest else (k', v') :: setField k v rest
  end.

(** [{...base, ...extra}] *)
Definition spread (base extra : Fields) : Fields :=
  fold_left (fun acc kv => setField (fst kv) (snd kv) acc) extra base.

(** The rest pattern [const { k1, k2, ...rest } = obj]. *)
Definition withoutKeys (ks : list string) (fs : Fields) : Fields :=
  List.filter (fun kv => negb (inStrings (fst kv) ks)) fs.

(** ** Pagination helpers of the two read APIs *)

Module Pagination.

(** A value of [req.query]: absent, a string, or what the query-string
    parser builds from bracket syntax. *)
Inductive QueryVal : Type :=
| QAbsent
| QStr (s : string)
| QList (l : list QueryVal)
| QMap (m : list (string * QueryVal)).

(** ToString, as [parseInt] applies it to its argument. *)
Fixpoint queryToString (q : QueryVal) : string :=
  match q with
  | QAbsent => "undefined"
  | QStr s => s
  | QList l =>
      String.concat ","
        (map (fun e => match e with QAbsent => "" | _ => queryToString e end) l)
  | QMap _ => "[object Object]"
  end.

(** White space skipped by [parseInt] (the ASCII part of it). *)
Definition isWhiteSpace (c : ascii) : bool :=
  let n := nat_of_ascii c in
  ((9 <=? n) && (n <=? 13) || (n =? 32))%nat.

Fixpoint skipWhiteSpace (s : string) : string :=
  match s with
  | String c rest => if isWhiteSpace c then skipWhiteSpace rest else s
  | EmptyString => s
  end.

Definition digitValue (radix : Z) (c : ascii) : option Z :=
  let n := Z.of_nat (nat_of_ascii c) in
  let d :=
    (if (48 <=? n) && (n <=? 57) then Some (n - 48)
     else if (97 <=? n) && (n <=? 122) then Some (n - 87)
     else if (65 <=? n) && (n <=? 90) then Some (n - 55)
     else None)%Z in
  match d with
  | Some v => if (v <? radix)%Z then Some v else None
  | None => None
  end.

(** The longest prefix of digits, as a number; [None] when it is empty. *)
Fixpoint readDigits (radix : Z) (s : string) (acc : option Z) : option Z :=
  match s with
  | EmptyString => acc
  | String c rest =>
      match digitValue radix c with
      | Some d =>
          readDigits radix rest
            (Some (radix * (match acc with Some a => a | None => 0 end) + d)%Z)
      | None => acc
      end
  end.

(** [parseInt(s)] with no radix argument.  [None] is [NaN].  The result is
    the exact integer; the source holds its nearest double (or an infinity
    for very long digit strings), which compares with 1 and 100 in the
    same way. *)
Definition parseInt (s : string) : option Z :=
  let s1 := skipWhiteSpace s in
  let (sign, s2) :=
    match s1 with
    | String "-"%char rest => ((-1)%Z, rest)
    | String "+"%char rest => (1%Z, rest)
    | _ => (1%Z, s1)
    end in
  let (radix, s3) :=
    match s2 with
    | String "0"%char (String "x"%char rest) => (16%Z, rest)
    | String "0"%char (String "X"%char rest) => (16%Z, rest)
    | _ => (10%Z, s2)
    end in
  match readDigits radix s3 None with
  | Some n => Some (sign * n)%Z
  | None => None
  end.

(** [parseInt(arg)] where the parameter has default value [dflt]. *)
Definition parseIntArg (arg : QueryVal) (dflt : Z) : option Z :=
  match arg with
  | QAbsent => Some dflt
  | _ => parseInt (queryToString arg)
  end.

(** [n || d] on a number: [NaN] and zero are falsy. *)
Definition numOr (n : option Z) (d : Z) : Z :=
  match n with
  | Some z => if (z =? 0)%Z then d else z
  | None => d
  end.

(** [page = Math.max(1, parseInt(page) || 1)] *)
Definition sanitizePage (page : QueryVal) : Z :=
  Z.max 1 (numOr (parseIntArg page 1) 1).

(** [limit = Math.min(100, Math.max(1, parseInt(limit) || 10))] *)
Definition sanitizeLimit (limit : QueryVal) : Z :=
  Z.min 100 (Z.max 1 (numOr (parseIntArg limit 10) 10)).

(** [Array.prototype.slice(start, end)] *)
Definition slice {A} (arr : list A) (start stop : Z) : list A :=
  let len := Z.of_nat (length arr) in
  let k := if (start <? 0)%Z then Z.max (len + start) 0 else Z.min start len in
  let final := if (stop <? 0)%Z then Z.max (len + stop) 0 else Z.min stop len in
  firstn (Z.to_nat (final - k)) (skipn (Z.to_nat k) arr).

(** [Math.ceil(a / b)] for a divisor [b > 0]. *)
Definition ceilDiv (a b : Z) : Z := (- ((- a) / b))%Z.

Record Paginated (A : Type) : Type := mkPaginated {
  page : Z;
  limit : Z;
  total : Z;
  totalPages : Z;
  data : list A
}.
Arguments mkPaginated {A}.
Arguments page {A}.
Arguments limit {A}.
Arguments total {A}.
Arguments totalPages {A}.
Arguments data {A}.

(** [paginate(array, page = 1, limit = 10)] of the storage-backed API. *)
Definition paginate {A} (array : list A) (pageArg limitArg : QueryVal)
    : Paginated A :=
  let page := sanitizePage pageArg in
  let limit := sanitizeLimit limitArg in
  let start := ((page - 1) * limit)%Z in
  let stop := (start + limit)%Z in
  {| page := page;
     limit := limit;
     total := Z.of_nat (length array);
     totalPages := ceilDiv (Z.of_nat (length array)) limit;
     data := slice array start stop |}.

(** A Firestore query reference: what [count().get()] answers, and what
    [offset(o).limit(l).get()] answers; either call may fail. *)
Record QueryRef : Type := {
  q_count : Result Z;
  q_fetch : Z -> Z -> Result (list (string * Fields))
}.

(** A query over a fixed, ordered list of matching documents. *)
Definition queryOver (docs : list (string * Fields)) : QueryRef :=
  {| q_count := Ok (Z.of_nat (length docs));
     q_fetch := fun o l => Ok (firstn (Z.to_nat l) (skipn (Z.to_nat o) docs)) |}.

(** [{ _id: doc.id, ...doc.data() }] *)
Definition docToJson (doc : string * Fields) : JsVal :=
  JObj (spread [("_id", JStr (fst doc))] (snd doc)).

(** [queryWithPagination(collectionRef, page = 1, limit = 10)] of the
    Firestore-backed API. *)
Definition queryWithPagination (collectionRef : QueryRef)
    (pageArg limitArg : QueryVal) : Result (Paginated JsVal) :=
  let page := sanitizePage pageArg in
  let limit := sanitizeLimit limitArg in
  let! total := q_count collectionRef in
  let offset := ((page - 1) * limit)%Z in
  let totalPages := ceilDiv total limit in
  let! docs := q_fetch collectionRef offset limit in
  Ok {| page := page; limit := limit; total := total;
        totalPages := totalPages; data := map docToJson docs |}.

End Pagination.

(** ** The read APIs

    Both Express applications register their middleware in the same order:
    [cors], [express.json], then [verifyAPIKey] through [app.use], and only
    then the routes.  A [Request] is a request as [verifyAPIKey] and the
    routes see it: one that the two vendor middlewares have passed on, with
    the body that [express.json] left in [req.body].  The requests that
    these middlewares answer themselves are not values of this type and
    no statement below is about them: a preflight [OPTIONS] request, which
    [cors] answers, and a request whose JSON body does not parse, which
    Express answers with its own error page.  Routes match on the exact
    method and path. *)

Module Api.
Import Pagination.

Record Response : Type := mkResponse { status : Z; body : JsVal }.

Record Request : Type := {
  method : string;
  path : string;
  (** [req.headers["x-api-key"]] *)
  apiKeyHeader : option string;
  (** [req.body] *)
  reqBody : JsVal;
  (** [req.query.page], [req.query.limit] *)
  queryPage : QueryVal;
  queryLimit : QueryVal
}.

(** [res.status(statusCode).json({ success: false, message })] *)
Definition sendErrorResponse (statusCode : Z) (message : string) : Response :=
  {| status := statusCode;
     body := JObj [("success", JBool false); ("message", JStr message)] |}.

(** [res.json(obj)] answers with status 200. *)
Definition json (obj : Fields) : Response :=
  {| status := 200; body := JObj obj |}.

(** [res.status(403).json({ success: false, message: ... })] *)
Definition forbiddenResponse : Response :=
  {| status := 403;
     body := JObj [("success", JBool false);
                   ("message",
                    JStr "Forbidden — Invalid or missing API key")] |}.

(** The middleware [verifyAPIKey]: [Some r] ends the request with [r],
    [None] is [next()]. *)
Definition verifyAPIKey (expectedKey : string) (req : Request)
    : option Response :=
  let receivedKey := apiKeyHeader req in
  let missing :=
    match receivedKey with
    | None => true
    | Some k => String.eqb k ""
    end in
  let differs :=
    match receivedKey with
    | None => true
    | Some k => negb (String.eqb k expectedKey)
    end in
  if missing || differs then Some forbiddenResponse else None.

(** [app.get("/health", ...)]; [timestamp] is the clock reading. *)
Definition health (timestamp : string) : Response :=
  json [("success", JBool true); ("message", JStr "API is running");
        ("timestamp", JStr timestamp)].

(** [app.all("*", ...)] *)
Definition notFound (req : Request) : Response :=
  {| status := 404;
     body := JObj [("success", JBool false);
                   ("message",
                    JStr ("Route " +:+ method req +:+ " " +:+ path req
                          +:+ " not found"))] |}.

(** *** Storage-backed API *)

(** The bucket: what [fetchJSONFromStorage(fileName)] returns or throws,
    by the value interpolated into the object path. *)
Definition Storage : Type := JsVal -> Result JsVal.

Record ConfigState : Type := {
  configCache : JsVal;
  configLastFetched : option Z
}.

Definition initialConfigState : ConfigState :=
  {| configCache := JNull; configLastFetched := None |}.

Definition CONFIG_CACHE_TTL : Z := 5 * 60 * 1000.

(** The body of the [try] block of [getConfig]. *)
Definition fetchValidConfig (storage : Storage) : Result JsVal :=
  let! config := storage (JStr "config.json") in
  match getProp config "categoryMap", getProp config "promptDetailsFiles" with
  | Some categoryMap, Some promptDetailsFiles =>
      if negb (truthy categoryMap) || negb (truthy promptDetailsFiles)
      then Throw OtherError
      else Ok config
  | _, _ => Throw TypeError
  end.

Inductive ConfigEvent : Type :=
| ServedFromCache
| Refreshed
| RefreshFailed.

(** [getConfig()] at clock reading [now]: the new cache state, the value
    returned or the error thrown, and what happened. *)
Definition getConfig (st : ConfigState) (now : Z) (storage : Storage)
    : ConfigState * Result JsVal * ConfigEvent :=
  let fresh :=
    truthy (configCache st) &&
    match configLastFetched st with
    | Some t => negb (t =? 0)%Z && (now - t <? CONFIG_CACHE_TTL)%Z
    | None => false
    end in
  if fresh then (st, Ok (configCache st), ServedFromCache)
  else
    match fetchValidConfig storage with
    | Ok config =>
        ({| configCache := config; configLastFetched := Some now |},
         Ok config, Refreshed)
    | Throw _ =>
        if truthy (configCache st)
        then (st, Ok (configCache st), RefreshFailed)
        else (st, Throw ConfigUnavailable, RefreshFailed)
    end.

(** The cache states a server can be in: the initial one, and those left
    by calls of [getConfig] at clock readings after the epoch. *)
Inductive reachable : ConfigState -> Prop :=
| reach_init : reachable initialConfigState
| reach_call st now storage :
    reachable st -> (0 < now)%Z ->
    reachable (fst (fst (getConfig st now storage))).


Definition paginatedFields (p : Paginated JsVal) : Fields :=
  [("page", JNum (page p)); ("limit", JNum (limit p));
   ("total", JNum (total p)); ("totalPages", JNum (totalPages p));
   ("data", JArr (data p))].

(** [paginate] applied to whatever the file holds.  An array is paged; a
    JSON string has a [length] and a [slice] of its own and is paged by
    character (by byte here); on any other value [array.slice] is not a
    function and the call raises. *)
Definition paginateValue (fileData : JsVal) (pageArg limitArg : QueryVal)
    : Result Fields :=
  match fileData with
  | JArr items => Ok (paginatedFields (paginate items pageArg limitArg))
  | JStr str =>
      let p := paginate (String.list_ascii_of_string str) pageArg limitArg in
      Ok [("page", JNum (page p)); ("limit", JNum (limit p));
          ("total", JNum (total p)); ("totalPages", JNum (totalPages p));
          ("data", JStr (String.string_of_list_ascii (data p)))]
  | _ => Throw TypeError
  end.

(** [app.post("/getCategoryList", ...)] of the storage-backed API. *)
Definition getCategoryList (st : ConfigState) (now : Z) (storage : Storage)
    (req : Request) : ConfigState * Response :=
  let failed := sendErrorResponse 500 "Error fetching category list" in
  match getProp (reqBody req) "id" with
  | None => (st, failed)
  | Some id =>
      match id with
      | JStr idStr =>
          if negb (truthy id)
          then (st, sendErrorResponse 400 "Missing or invalid 'id' parameter")
          else
            let '(st', cfg, _) := getConfig st now storage in
            let answer :=
              let! config := cfg in
              let! categoryMap :=
                match getProp config "categoryMap" with
                | Some m => Ok m | None => Throw TypeError end in
              let! fileName :=
                match getProp categoryMap idStr with
                | Some f => Ok f | None => Throw TypeError end in
              if negb (truthy fileName)
              then Ok (sendErrorResponse 404 "Invalid category id")
              else
                let! fileData := storage fileName in
                let! paginated :=
                  paginateValue fileData (queryPage req) (queryLimit req) in
                Ok (json (spread
                            [("success", JBool true);
                             ("message",
                              JStr "Category data fetched successfully")]
                            paginated)) in
            match answer with
            | Ok r => (st', r)
            | Throw _ => (st', failed)
            end
      | _ => (st, sendErrorResponse 400 "Missing or invalid 'id' parameter")
      end
  end.

(** [app.get("/getCategory", ...)] of the storage-backed API. *)
Definition getCategory (storage : Storage) : Response :=
  match storage (JStr "pt_category.json") with
  | Ok fileData =>
      json [("success", JBool true);
            ("message", JStr "Category list fetched successfully");
            ("data", fileData)]
  | Throw _ => sendErrorResponse 500 "Error fetching categories"
  end.

(** [data.find((entry) => entry._id === _id)]; reading [_id] from a
    [null] entry raises. *)
Fixpoint findById (_id : string) (entries : list JsVal) : Result (option JsVal) :=
  match entries with
  | [] => Ok None
  | entry :: rest =>
      match getProp entry "_id" with
      | None => Throw TypeError
      | Some (JStr s) => if String.eqb s _id then Ok (Some entry) else findById _id rest
      | Some _ => findById _id rest
      end
  end.

(** The [for (const fileName of config.promptDetailsFiles)] loop: a file
    that cannot be fetched or searched is passed over. *)
Fixpoint searchDetailFiles (storage : Storage) (_id : string)
    (files : list JsVal) : option JsVal :=
  match files with
  | [] => None
  | fileName :: rest =>
      match storage fileName with
      | Ok (JArr entries) =>
          match findById _id entries with
          | Ok (Some item) =>
              if truthy item then Some item
              else searchDetailFiles storage _id rest
          | _ => searchDetailFiles storage _id rest
          end
      | _ => searchDetailFiles storage _id rest
      end
  end.

(** What [for ... of] iterates over: the elements of an array, the
    characters of a string (bytes here); other values are not iterable. *)
Definition iterate (v : JsVal) : Result (list JsVal) :=
  match v with
  | JArr l => Ok l
  | JStr str => Ok (map (fun c => JStr (String c EmptyString)) (String.list_ascii_of_string str))
  | _ => Throw TypeError
  end.

(** [app.post("/getPromptDetails", ...)] of the storage-backed API. *)
Definition getPromptDetails (st : ConfigState) (now : Z) (storage : Storage)
    (req : Request) : ConfigState * Response :=
  let failed := sendErrorResponse 500 "Error fetching prompt details" in
  match getProp (reqBody req) "_id" with
  | None => (st, failed)
  | Some (JStr idStr) =>
      if String.eqb idStr ""
      then (st, sendErrorResponse 400 "Missing or invalid '_id' parameter")
      else
        let '(st', cfg, _) := getConfig st now storage in
        let answer :=
          let! config := cfg in
          let! filesVal :=
            match getProp config "promptDetailsFiles" with
            | Some f => Ok f | None => Throw TypeError end in
          let! files := iterate filesVal in
          match searchDetailFiles storage idStr files with
          | None => Ok (sendErrorResponse 404 "Prompt not found")
          | Some foundItem =>
              Ok (json [("success", JBool true);
                        ("message", JStr "Prompt details fetched successfully");
                        ("data", foundItem)])
          end in
        match answer with
        | Ok r => (st', r)
        | Throw _ => (st', failed)
        end
  | Some _ => (st, sendErrorResponse 400 "Missing or invalid '_id' parameter")
  end.

Definition routeIs (req : Request) (m p : string) : bool :=
  String.eqb (method req) m && String.eqb (path req) p.

(** The storage-backed application: the middleware, then the routes in
    registration order. *)
Definition app (expectedKey : string) (timestamp : string)
    (st : ConfigState) (now : Z) (storage : Storage) (req : Request)
    : ConfigState * Response :=
  match verifyAPIKey expectedKey req with
  | Some rejected => (st, rejected)
  | None =>
      if routeIs req "GET" "/health" then (st, health timestamp)
      else if routeIs req "GET" "/getCategory" then (st, getCategory storage)
      else if routeIs req "POST" "/getCategoryList"
      then getCategoryList st now storage req
      else if routeIs req "POST" "/getPromptDetails"
      then getPromptDetails st now storage req
      else (st, notFound req)
  end.

(** *** Firestore-backed API *)

(** The database as the handlers read it. *)
Record Db : Type := {
  (** [db.collection("categories").get()] *)
  db_categories : Result (list (string * Fields));
  (** [db.collection("prompts").where("categoryId", "==", id)
        .orderBy("createdAt", "desc")] *)
  db_promptsByCategory : string -> QueryRef;
  (** [db.collection("promptDetails").doc(_id).get()]: an error, a
      missing document, or the document. *)
  db_promptDetail : string -> Result (option (string * Fields))
}.

Definition getCategoryFs (db : Db) : Response :=
  match db_categories db with
  | Ok docs =>
      json [("success", JBool true);
            ("message", JStr "Category list fetched successfully");
            ("data", JArr (map docToJson docs))]
  | Throw _ => sendErrorResponse 500 "Error fetching categories"
  end.

Definition getCategoryListFs (db : Db) (req : Request) : Response :=
  let failed := sendErrorResponse 500 "Error fetching category list" in
  match getProp (reqBody req) "id" with
  | None => failed
  | Some (JStr idStr) =>
      if String.eqb idStr ""
      then sendErrorResponse 400 "Missing or invalid 'id' parameter"
      else
        match queryWithPagination (db_promptsByCategory db idStr)
                (queryPage req) (queryLimit req) with
        | Ok paginated =>
            json (spread [("success", JBool true);
                          ("message", JStr "Category data fetched successfully")]
                         (paginatedFields paginated))
        | Throw _ => failed
        end
  | Some _ => sendErrorResponse 400 "Missing or invalid 'id' parameter"
  end.

Definition getPromptDetailsFs (db : Db) (req : Request) : Response :=
  let failed := sendErrorResponse 500 "Error fetching prompt details" in
  match getProp (reqBody req) "_id" with
  | None => failed
  | Some (JStr idStr) =>
      if String.eqb idStr ""
      then sendErrorResponse 400 "Missing or invalid '_id' parameter"
      else
        match db_promptDetail db idStr with
        | Throw _ => failed
        | Ok None => sendErrorResponse 404 "Prompt not found"
        | Ok (Some doc) =>
            json [("success", JBool true);
                  ("message", JStr "Prompt details fetched successfully");
                  ("data", docToJson doc)]
        end
  | Some _ => sendErrorResponse 400 "Missing or invalid '_id' parameter"
  end.

(** The Firestore-backed application. *)
Definition appFs (expectedKey : string) (timestamp : string) (db : Db)
    (req : Request) : Response :=
  match verifyAPIKey expectedKey req with
  | Some rejected => rejected
  | None =>
      if routeIs req "GET" "/health" then health timestamp
      else if routeIs req "GET" "/getCategory" then getCategoryFs db
      else if routeIs req "POST" "/getCategoryList" then getCategoryListFs db req
      else if routeIs req "POST" "/getPromptDetails" then getPromptDetailsFs db req
      else notFound req
  end.

End Api.

(** ** The document store *)

Module Firestore.

(** A collection with everything below it is a [gmap string Fields]: the
    content of each document, by the path of the document relative to the
    collection, its segments joined by slashes.  A document of the
    collection itself has a path of one segment, its id; a path of three
    segments [a/b/c] is the document [c] of the sub-collection [b] of the
    document [a]. *)

(** *** Document paths *)

Definition slash : ascii := "/"%char.

(** [s.split("/")] *)
Fixpoint splitPath (s : string) : list string :=
  match s with
  | EmptyString => [EmptyString]
  | String c rest =>
      if Ascii.eqb c slash then EmptyString :: splitPath rest
      else
        match splitPath rest with
        | [] => [String c EmptyString]
        | segment :: segments => String c segment :: segments
        end
  end.

(** The segments of a path as the SDK reads it: the empty segments that a
    leading or a trailing slash leaves are dropped. *)
Definition segmentsOf (s : string) : list string :=
  List.filter (fun segment => negb (String.eqb segment "")) (splitPath s).

(** [s.indexOf("//") >= 0] *)
Fixpoint hasDoubleSlash (s : string) : bool :=
  match s with
  | String a (String b _ as rest) =>
      (Ascii.eqb a slash && Ascii.eqb b slash) || hasDoubleSlash rest
  | _ => false
  end.

(** The string has no slash: it is the id of a document of the collection
    itself. *)
Fixpoint noSlash (s : string) : bool :=
  match s with
  | EmptyString => true
  | String c rest => negb (Ascii.eqb c slash) && noSlash rest
  end.

(** The ids of the documents of the collection itself, as a query on the
    collection lists them: documents of sub-collections are not among
    them. *)
Definition collectionIds (st : gmap string Fields) : gset string :=
  filter (fun key => noSlash key = true) (dom st).

(** The value a field takes under [set(..., { merge: true })]: maps are
    merged key by key, recursively; an empty map and every other value
    replace what was there. *)
Fixpoint mergeValue (old : option JsVal) (new : JsVal) {struct new} : JsVal :=
  match new with
  | JObj [] => JObj []
  | JObj newFields =>
      let base := match old with Some (JObj oldFields) => oldFields | _ => [] end in
      JObj ((fix mergeInto (nf : Fields) (acc : Fields) {struct nf} : Fields :=
               match nf with
               | [] => acc
               | (k, v) :: rest =>
                   mergeInto rest (setField k (mergeValue (lookupField k acc) v) acc)
               end) newFields base)
  | _ => new
  end.

(** The document after [set(newFields, { merge: true })]. *)
Fixpoint mergeFields (old : Fields) (newFields : Fields) : Fields :=
  match newFields with
  | [] => old
  | (k, v) :: rest =>
      mergeFields (setField k (mergeValue (lookupField k old) v) old) rest
  end.

(** One [batch.set(docRef, data[, { merge: true }])]. *)
Record SetOp : Type := {
  op_id : string;
  op_data : Fields;
  op_merge : bool
}.

Definition applyOp (st : gmap string Fields) (op : SetOp) : gmap string Fields :=
  if op_merge op
  then <[op_id op := mergeFields (default [] (st !! op_id op)) (op_data op)]> st
  else <[op_id op := op_data op]> st.

(** A successful [batch.commit()]: every write of the batch, in order. *)
Definition commit (st : gmap string Fields) (batch : list SetOp)
    : gmap string Fields :=
  foldl applyOp st batch.

(** What the vendor SDK and the server decide on their own. *)
Record Env : Type := {
  (** whether the key scan of [getExistingDocIds] succeeds *)
  scanOk : bool;
  (** whether the commit of batch number [k] (from 0) succeeds *)
  commitOk : nat -> bool;
  (** whether [doc(path)] accepts a well-formed path (whatever else the
      SDK refuses) *)
  docPathOk : string -> bool;
  (** whether [batch.set] accepts a payload *)
  docDataOk : Fields -> bool;
  (** the id that [doc()] generates for the item at a position *)
  autoId : nat -> string
}.

(** [getExistingDocIds(collectionName)]: the ids of the collection, or the
    empty set when the scan raises. *)
Definition getExistingDocIds (env : Env) (st : gmap string Fields) : gset string :=
  if scanOk env then collectionIds st else ∅.

(** [existingIds.has(docId)] *)
Definition setHas (ids : gset string) (docId : JsVal) : bool :=
  match docId with
  | JStr s => bool_decide (s ∈ ids)
  | _ => false
  end.

(** [db.collection(collectionName).doc(docId)]: the path of the document
    addressed, or [None] when the SDK raises.  The SDK reads its argument
    as a path relative to the collection: it raises on anything but a
    non-empty string, on a path with [//] and on a path that names no
    document (an even number of segments); a leading or a trailing slash
    is allowed and dropped. *)
Definition docRef (env : Env) (docId : JsVal) : option string :=
  match docId with
  | JStr s =>
      if negb (String.eqb s "") && negb (hasDoubleSlash s)
         && Nat.odd (length (segmentsOf s)) && docPathOk env s
      then Some (String.concat "/" (segmentsOf s))
      else None
  | _ => None
  end.

End Firestore.

(** ** The batch writer *)

Module Writer.
Import Firestore.

(** What the body of [chunk.forEach] does with one item. *)
Inductive Prepared : Type :=
| Skipped              (* [skippedCount++; return] *)
| Failed               (* the [catch]: [errorCount++] *)
| Queued (op : SetOp). (* [batch.set(...); batchCount++] *)

Record Counts : Type := mkCounts {
  successCount : Z;
  errorCount : Z;
  skippedCount : Z
}.

Definition noCounts : Counts :=
  {| successCount := 0; errorCount := 0; skippedCount := 0 |}.

Inductive Outcome : Type :=
| NotIssued    (* [batchCount] was 0: no commit *)
| Committed
| Rejected.

(** One iteration of the [for] loop, as observed. *)
Record BatchEvent (A : Type) : Type := {
  ev_number : nat;
  ev_chunk : list A;
  ev_ops : list SetOp;
  ev_outcome : Outcome
}.
Arguments ev_number {A}.
Arguments ev_chunk {A}.
Arguments ev_ops {A}.
Arguments ev_outcome {A}.

Record WriterState (A : Type) : Type := {
  w_store : gmap string Fields;
  w_counts : Counts;
  w_log : list (BatchEvent A)
}.
Arguments w_store {A}.
Arguments w_counts {A}.
Arguments w_log {A}.

Definition batchSize : nat := 500.

Definition isSkipped (p : Prepared) : bool :=
  match p with Skipped => true | _ => false end.

Definition isFailed (p : Prepared) : bool :=
  match p with Failed => true | _ => false end.

Definition queuedOp (p : Prepared) : option SetOp :=
  match p with Queued op => Some op | _ => None end.

(** The writes queued, in order, among a list of outcomes. *)
Definition opsOf (ps : list Prepared) : list SetOp := omap queuedOp ps.

Definition countOf (f : Prepared -> bool) (ps : list Prepared) : Z :=
  Z.of_nat (length (List.filter f ps)).

Definition issued {A} (ev : BatchEvent A) : bool :=
  match ev_outcome ev with NotIssued => false | _ => true end.

Definition rejected {A} (ev : BatchEvent A) : bool :=
  match ev_outcome ev with Rejected => true | _ => false end.

Definition committed {A} (ev : BatchEvent A) : bool :=
  match ev_outcome ev with Committed => true | _ => false end.

Definition sumZ {B} (f : B -> Z) (l : list B) : Z :=
  foldr (fun x acc => (f x + acc)%Z) 0%Z l.

(** The number of writes queued in the batches that satisfy [sel]. *)
Definition opsIn {A} (sel : BatchEvent A -> bool) (log : list (BatchEvent A)) : Z :=
  sumZ (fun ev => if sel ev then Z.of_nat (length (ev_ops ev)) else 0%Z) log.

(** The value a write leaves at its document, given what was there. *)
Definition written (before : option Fields) (op : SetOp) : Fields :=
  if op_merge op then mergeFields (default [] before) (op_data op)
  else op_data op.

(** [ceil(n / batchSize)] on naturals. *)
Definition chunkCount (n : nat) : nat := ((n + (batchSize - 1)) / batchSize)%nat.

Section Loop.
Context {A : Type}.
(** the body of [forEach] *)
Variable prep : A -> Prepared.
Variable commitSucceeds : nat -> bool.
(** the dynamic script also runs [successCount -= batchCount] in the
    [catch] of the commit *)
Variable decrementOnFailure : bool.
Variable data : list A.

(** [chunk.forEach(...)]; the batch holds the queued writes, and
    [batchCount] is its length. *)
Fixpoint forEachItem (chunk : list A) (batch : list SetOp) (c : Counts)
    : list SetOp * Counts :=
  match chunk with
  | [] => (batch, c)
  | item :: rest =>
      match prep item with
      | Skipped =>
          forEachItem rest batch
            {| successCount := successCount c; errorCount := errorCount c;
               skippedCount := skippedCount c + 1 |}
      | Failed =>
          forEachItem rest batch
            {| successCount := successCount c; errorCount := errorCount c + 1;
               skippedCount := skippedCount c |}
      | Queued op => forEachItem rest (batch ++ [op]) c
      end
  end.

(** The body of [for (let i = 0; i < data.length; i += batchSize)]. *)
Definition writeChunk (i : nat) (s : WriterState A) : WriterState A :=
  let chunk := take batchSize (drop i data) in
  let '(batch, c) := forEachItem chunk [] (w_counts s) in
  let batchCount := Z.of_nat (length batch) in
  let number := (i / batchSize)%nat in
  if (0 <? batchCount)%Z then
    if commitSucceeds number then
      {| w_store := commit (w_store s) batch;
         w_counts := {| successCount := successCount c + batchCount;
                        errorCount := errorCount c;
                        skippedCount := skippedCount c |};
         w_log := w_log s ++ [ {| ev_number := number; ev_chunk := chunk;
                                  ev_ops := batch; ev_outcome := Committed |} ] |}
    else
      {| w_store := w_store s;
         w_counts := {| successCount :=
                          if decrementOnFailure
                          then successCount c - batchCount
                          else successCount c;
                        errorCount := errorCount c + batchCount;
                        skippedCount := skippedCount c |};
         w_log := w_log s ++ [ {| ev_number := number; ev_chunk := chunk;
                                  ev_ops := batch; ev_outcome := Rejected |} ] |}
  else
    {| w_store := w_store s;
       w_counts := c;
       w_log := w_log s ++ [ {| ev_number := number; ev_chunk := chunk;
                                ev_ops := batch; ev_outcome := NotIssued |} ] |}.

(** The [for] loop from index [i]; [fuel] bounds the iterations. *)
Fixpoint writeLoop (fuel : nat) (i : nat) (s : WriterState A) : WriterState A :=
  match fuel with
  | O => s
  | S fuel' =>
      if (i <? length data)%nat
      then writeLoop fuel' (i + batchSize) (writeChunk i s)
      else s
  end.

(** The loop run from [i = 0]; [length data] iterations are never used up
    (lemma [writeLoop_fuel]). *)
Definition runWriter (st : gmap string Fields) : WriterState A :=
  writeLoop (length data) 0
    {| w_store := st; w_counts := noCounts; w_log := [] |}.

(** The same run, described batch by batch.  Batch number [k] covers the
    items from position [k * batchSize]. *)
Definition chunkAt (k : nat) : list A :=
  take batchSize (drop (k * batchSize) data).

Definition outcomeOf (k : nat) (ops : list SetOp) : Outcome :=
  match ops with
  | [] => NotIssued
  | _ => if commitSucceeds k then Committed else Rejected
  end.

Definition eventOf (k : nat) : BatchEvent A :=
  let ops := opsOf (map prep (chunkAt k)) in
  {| ev_number := k; ev_chunk := chunkAt k; ev_ops := ops;
     ev_outcome := outcomeOf k ops |}.

Definition applyEvent (st : gmap string Fields) (ev : BatchEvent A)
    : gmap string Fields :=
  match ev_outcome ev with
  | Committed => commit st (ev_ops ev)
  | _ => st
  end.

Definition countEvent (c : Counts) (ev : BatchEvent A) : Counts :=
  let ps := map prep (ev_chunk ev) in
  let n := Z.of_nat (length (ev_ops ev)) in
  {| successCount :=
       (successCount c +
        match ev_outcome ev with
        | Committed => n
        | Rejected => if decrementOnFailure then - n else 0
        | NotIssued => 0
        end)%Z;
     errorCount :=
       (errorCount c + countOf isFailed ps +
        match ev_outcome ev with Rejected => n | _ => 0 end)%Z;
     skippedCount := (skippedCount c + countOf isSkipped ps)%Z |}.

Definition stepEvent (s : WriterState A) (ev : BatchEvent A) : WriterState A :=
  {| w_store := applyEvent (w_store s) ev;
     w_counts := countEvent (w_counts s) ev;
     w_log := w_log s ++ [ev] |}.

End Loop.

(** *** Migration script v2 *)

(** An element of the array handed to the v2 writer. *)
Record WriteItem : Type := {
  docId : JsVal;
  data : Fields
}.

(** [existingIds] as the writers compute it before the loop. *)
Definition existingFor (env : Env) (st : gmap string Fields) (mode : string)
    : gset string :=
  if String.eqb mode "update" then getExistingDocIds env st else ∅.

Definition prepare_v2 (env : Env) (mode : string) (existingIds : gset string)
    (item : WriteItem) : Prepared :=
  if String.eqb mode "update" && truthy (docId item)
     && setHas existingIds (docId item)
  then Skipped
  else
    match docRef env (docId item) with
    | None => Failed
    | Some id =>
        if docDataOk env (data item)
        then Queued {| op_id := id; op_data := data item;
                       op_merge := String.eqb mode "force" |}
        else Failed
    end.

(** [batchWriteToFirestore(collectionName, data, mode = "update")] of the
    v2 script, on the collection whose content is [st]. *)
Definition batchWriteToFirestore_v2 (env : Env) (st : gmap string Fields)
    (items : list WriteItem) (mode : string) : WriterState WriteItem :=
  match items with
  | [] => {| w_store := st; w_counts := noCounts; w_log := [] |}
  | _ =>
      let existingIds := existingFor env st mode in
      runWriter (prepare_v2 env mode existingIds) (commitOk env) false items st
  end.

(** *** Dynamic migration script

    Its callers hand over object literals built with a spread, so an item
    is a property list; it is paired with its position in the array, which
    is where [doc()] draws the generated id from. *)

Definition withPositions (items : list Fields) : list (nat * Fields) :=
  zip (seq 0 (length items)) items.

(** [useIdField && item._id ? item._id : undefined] *)
Definition docIdOf (useIdField : bool) (item : Fields) : JsVal :=
  if useIdField && truthy (objGet item "_id") then objGet item "_id"
  else JUndefined.

Definition prepare_dyn (env : Env) (useIdField : bool) (mode : string)
    (existingIds : gset string) (positioned : nat * Fields) : Prepared :=
  let '(j, item) := positioned in
  let docId := docIdOf useIdField item in
  if String.eqb mode "update" && truthy docId && setHas existingIds docId
  then Skipped
  else
    let ref := if truthy docId then docRef env docId else Some (autoId env j) in
    match ref with
    | None => Failed
    | Some id =>
        let dataWithoutId := withoutKeys ["_id"] item in
        if docDataOk env dataWithoutId
        then Queued {| op_id := id; op_data := dataWithoutId;
                       op_merge := String.eqb mode "force" |}
        else Failed
    end.

(** [batchWriteToFirestore(collectionName, data, useIdField = true,
    mode = "fresh")] of the dynamic script. *)
Definition batchWriteToFirestore_dyn (env : Env) (st : gmap string Fields)
    (items : list Fields) (useIdField : bool) (mode : string)
    : WriterState (nat * Fields) :=
  match items with
  | [] => {| w_store := st; w_counts := noCounts; w_log := [] |}
  | _ =>
      let existingIds := existingFor env st mode in
      runWriter (prepare_dyn env useIdField mode existingIds) (commitOk env)
        true (withPositions items) st
  end.

(** *** Statements about a run *)

(** A document with this key is in the collection. *)
Definition keyPresent (st : gmap string Fields) (docId : JsVal) : bool :=
  truthy docId && setHas (collectionIds st) docId.

(** The key of a record is the id of a document of the collection itself:
    a string without slash.  (Any other string addresses a document of
    that name only after the SDK has cut it, or a document of a
    sub-collection; a value that is no string addresses none.) *)
Definition plainDocId (docId : JsVal) : bool :=
  match docId with
  | JStr s => noSlash s
  | _ => true
  end.


(** The same environment with other commit outcomes. *)
Definition withCommits (env : Env) (outcomes : nat -> bool) : Env :=
  {| scanOk := scanOk env; commitOk := outcomes; docPathOk := docPathOk env;
     docDataOk := docDataOk env; autoId := autoId env |}.

(** What a run attempts, whatever the commits answer. *)
Definition attempts {A} (r : WriterState A) : list (list A * list SetOp) :=
  (fun ev => (ev_chunk ev, ev_ops ev)) <$> w_log r.

(** The batching of a run [r] over [items] with [forEach] body [prep]:
    [ceil(n/500)] consecutive chunks of at most 500 items; for each chunk
    the writes that [prep] queues; one commit for each chunk that queued a
    write and none for the others; a rejected commit counts the writes of
    its chunk as failed. *)
Definition batchingContract {A} (commitSucceeds : nat -> bool)
    (prep : A -> Prepared) (items : list A) (r : WriterState A) : Prop :=
  length (w_log r) = chunkCount (length items) /\
  Z.of_nat (chunkCount (length items))
  = Pagination.ceilDiv (Z.of_nat (length items)) 500 /\
  concat (ev_chunk <$> w_log r) = items /\
  ev_number <$> w_log r = seq 0 (chunkCount (length items)) /\
  Forall (fun ev =>
            (0 < length (ev_chunk ev) <= 500)%nat /\
            ev_ops ev = opsOf (map prep (ev_chunk ev)) /\
            (ev_outcome ev = NotIssued <-> ev_ops ev = []) /\
            (ev_ops ev <> [] ->
             ev_outcome ev
             = if commitSucceeds (ev_number ev) then Committed else Rejected))
         (w_log r) /\
  errorCount (w_counts r)
  = (countOf isFailed (map prep items) + opsIn rejected (w_log r))%Z /\
  ((forall x, x ∈ items -> exists op, prep x = Queued op) ->
   Forall (fun ev => issued ev = true) (w_log r)).

End Writer.

(** ** The v2 migration: category linker and collectors *)

Module Migration.
Import Firestore Writer Extract.

(** *** File-name patterns *)

Definition asciiLower (c : ascii) : ascii :=
  let n := nat_of_ascii c in
  if ((65 <=? n) && (n <=? 90))%nat then ascii_of_nat (n + 32) else c.

(** Two characters match under the [i] flag. *)
Definition eqIgnoreCase (a b : ascii) : bool :=
  Ascii.eqb (asciiLower a) (asciiLower b).

(** [literal] read case-insensitively at the head of [s]: what follows. *)
Fixpoint afterLiteral (literal s : string) : option string :=
  match literal, s with
  | EmptyString, _ => Some s
  | String a literal', String b s' =>
      if eqIgnoreCase a b then afterLiteral literal' s' else None
  | String _ _, EmptyString => None
  end.

Fixpoint allEqIgnoreCase (l1 l2 : list ascii) : bool :=
  match l1, l2 with
  | [], [] => true
  | a :: l1', b :: l2' => eqIgnoreCase a b && allEqIgnoreCase l1' l2'
  | _, _ => false
  end.

(** [.] matches any character but a line terminator (here: LF and CR). *)
Definition isLineTerminator (c : ascii) : bool :=
  let n := nat_of_ascii c in ((n =? 10) || (n =? 13))%nat.

(** [(.+)\.json$] on the rest of the name: the group. *)
Definition groupBeforeJson (rest : string) : option string :=
  let l := String.list_ascii_of_string rest in
  let n := length l in
  let group := take (n - 5) l in
  let suffix := drop (n - 5) l in
  if (5 <? n)%nat
     && allEqIgnoreCase suffix (String.list_ascii_of_string ".json")
     && forallb (fun c => negb (isLineTerminator c)) group
  then Some (String.string_of_list_ascii group)
  else None.

(** A name without line terminator. *)
Definition oneLine (name : string) : Prop :=
  forallb (fun c => negb (isLineTerminator c))
          (String.list_ascii_of_string name) = true.

(** The alternatives of the pattern tried in order at the head of [s]. *)
Fixpoint matchHere (prefixes : list string) (s : string) : option string :=
  match prefixes with
  | [] => None
  | prefix :: others =>
      match afterLiteral prefix s with
      | Some rest =>
          match groupBeforeJson rest with
          | Some group => Some group
          | None => matchHere others s
          end
      | None => matchHere others s
      end
  end.

(** [s.match(/(?:p1|p2|...)(.+)\.json$/i)?.[1]]: the group of the leftmost
    match. *)
Fixpoint matchPattern (prefixes : list string) (s : string) : option string :=
  match matchHere prefixes s with
  | Some group => Some group
  | None =>
      match s with
      | EmptyString => None
      | String _ rest => matchPattern prefixes rest
      end
  end.

(** [fileName.match(/prompts_(.+)\.json$/i)?.[1]] of the v2 script. *)
Definition categoryNameOf (fileName : string) : option string :=
  matchPattern ["prompts_"] fileName.

(** [extractCategoryName(fileName)] of the dynamic script, pattern
    [/(?:prompts_|promptDetails_)(.+)\.json$/i]. *)
Definition extractCategoryName (fileName : string) : option string :=
  matchPattern ["prompts_"; "promptDetails_"] fileName.

(** *** Category linking *)

(** [categoryId] for a prompt file.  [categoryMapping] is [null] ([None])
    or the name-to-id object; [toLowerCase] is [String.prototype.toLowerCase]. *)
Definition linkCategory (toLowerCase : string -> string)
    (categoryMapping : option Fields) (categoryName : option string) : JsVal :=
  match categoryName, categoryMapping with
  | Some name, Some mapping =>
      if negb (String.eqb name "")
      then jsOr (objGet mapping name) (objGet mapping (toLowerCase name))
      else JNull
  | _, _ => JNull
  end.

(** *** From items to write items *)

(** [item._id || item.id] *)
Definition docIdOfItem (item : JsVal) : Result JsVal :=
  match getProp item "_id" with
  | None => Throw TypeError
  | Some a =>
      if truthy a then Ok a
      else match getProp item "id" with
           | Some b => Ok b
           | None => Throw TypeError
           end
  end.

Definition ownFields (item : JsVal) : Fields :=
  match item with JObj fs => fs | _ => [] end.

Definition timestamps : Fields :=
  [("createdAt", JServerTimestamp); ("updatedAt", JServerTimestamp)].

(** [...(categoryId && { categoryId })] *)
Definition categoryStamp (categoryId : JsVal) : Fields :=
  if truthy categoryId then [("categoryId", categoryId)] else [].

(** The body of [items.forEach] in [migratePrompts]: what it pushes. *)
Definition emitPrompt (categoryId : JsVal) (item : JsVal)
    : Result (list WriteItem) :=
  let! docId := docIdOfItem item in
  if negb (truthy docId) then Ok []
  else
    let cleanData := withoutKeys ["_id"; "id"] (ownFields item) in
    Ok [ {| docId := docId;
            data := spread (spread cleanData (categoryStamp categoryId))
                           timestamps |} ].

(** The body of [items.forEach] in [migrateCategories] and in
    [migratePromptDetails]. *)
Definition emitPlain (item : JsVal) : Result (list WriteItem) :=
  let! docId := docIdOfItem item in
  if negb (truthy docId) then Ok []
  else
    let cleanData := withoutKeys ["_id"; "id"] (ownFields item) in
    Ok [ {| docId := docId; data := spread cleanData timestamps |} ].

(** [items.forEach(...)]: an exception ends the migration. *)
Fixpoint forEachEmit (emit : JsVal -> Result (list WriteItem))
    (items : list JsVal) : Result (list WriteItem) :=
  match items with
  | [] => Ok []
  | item :: rest =>
      let! pushed := emit item in
      let! more := forEachEmit emit rest in
      Ok (pushed ++ more)
  end.

(** The bucket: what [fetchJSONFromStorage(fileName)] returns or throws. *)
Definition Bucket : Type := string -> Result JsVal.

(** [extractArrayFromJSON(await fetchJSONFromStorage(fileName), fileName)] *)
Definition readItems (bucket : Bucket) (fileName : string)
    : Result (list JsVal) :=
  let! rawData := bucket fileName in
  let! items := extractArrayFromJSON_v2 rawData fileName in
  match items with
  | JArr l => Ok l
  | _ => Throw TypeError
  end.

(** The [for (const fileName of ...)] loop of a migration, with the
    [forEach] body chosen per file. *)
Fixpoint collect (bucket : Bucket)
    (emitFor : string -> JsVal -> Result (list WriteItem))
    (files : list string) : Result (list WriteItem) :=
  match files with
  | [] => Ok []
  | fileName :: rest =>
      let! items := readItems bucket fileName in
      let! pushed := forEachEmit (emitFor fileName) items in
      let! more := collect bucket emitFor rest in
      Ok (pushed ++ more)
  end.

Definition idle (st : gmap string Fields) : WriterState WriteItem :=
  {| w_store := st; w_counts := noCounts; w_log := [] |}.

(** [migrateCategories(categoryFiles, mode)] on the categories
    collection [st]. *)
Definition migrateCategories (env : Env) (bucket : Bucket)
    (st : gmap string Fields) (categoryFiles : list string) (mode : string)
    : Result (WriterState WriteItem) :=
  match categoryFiles with
  | [] => Ok (idle st)
  | _ =>
      let! allCategoriesData := collect bucket (fun _ => emitPlain) categoryFiles in
      Ok (batchWriteToFirestore_v2 env st allCategoriesData mode)
  end.

(** [migratePrompts(promptFiles, categoryMapping, mode)] on the prompts
    collection [st]. *)
Definition migratePrompts (toLowerCase : string -> string) (env : Env)
    (bucket : Bucket) (st : gmap string Fields) (promptFiles : list string)
    (categoryMapping : option Fields) (mode : string)
    : Result (WriterState WriteItem) :=
  match promptFiles with
  | [] => Ok (idle st)
  | _ =>
      let! allPromptsData :=
        collect bucket
          (fun fileName =>
             emitPrompt (linkCategory toLowerCase categoryMapping
                           (categoryNameOf fileName)))
          promptFiles in
      Ok (batchWriteToFirestore_v2 env st allPromptsData mode)
  end.

(** [migratePromptDetails(promptDetailFiles, mode)] on the prompt details
    collection [st]. *)
Definition migratePromptDetails (env : Env) (bucket : Bucket)
    (st : gmap string Fields) (promptDetailFiles : list string) (mode : string)
    : Result (WriterState WriteItem) :=
  match promptDetailFiles with
  | [] => Ok (idle st)
  | _ =>
      let! allDetailsData := collect bucket (fun _ => emitPlain) promptDetailFiles in
      Ok (batchWriteToFirestore_v2 env st allDetailsData mode)
  end.

(** *** Statements about a migration *)

(** All the items of the files, in order. *)
Fixpoint readAll (bucket : Bucket) (files : list string) : Result (list JsVal) :=
  match files with
  | [] => Ok []
  | fileName :: rest =>
      let! items := readItems bucket fileName in
      let! more := readAll bucket rest in
      Ok (items ++ more)
  end.

(** The item has a truthy [_id] or [id]. *)
Definition hasDocId (item : JsVal) : bool :=
  match docIdOfItem item with
  | Ok d => truthy d
  | Throw _ => false
  end.

Definition countsTotal (c : Counts) : Z :=
  (successCount c + skippedCount c + errorCount c)%Z.

End Migration.

(** ** Listing and sorting the files of the bucket *)

Module Files.

(** [s.includes(p)] *)
Fixpoint includes (p s : string) : bool :=
  String.prefix p s ||
  match s with
  | EmptyString => false
  | String _ rest => includes p rest
  end.

(** [s.endsWith(suffix)] *)
Fixpoint endsWith (suffix s : string) : bool :=
  String.eqb suffix s ||
  match s with
  | EmptyString => false
  | String _ rest => endsWith suffix rest
  end.

(** What follows [p] at the head of [s]. *)
Fixpoint afterPrefix (p s : string) : option string :=
  match p, s with
  | EmptyString, _ => Some s
  | String a p', String b s' =>
      if Ascii.eqb a b then afterPrefix p' s' else None
  | String _ _, EmptyString => None
  end.

(** [s.replace(p, "")] with a string pattern: the first occurrence of [p]
    is removed. *)
Fixpoint removeFirst (p s : string) : string :=
  match afterPrefix p s with
  | Some rest => rest
  | None =>
      match s with
      | EmptyString => EmptyString
      | String c rest => String c (removeFirst p rest)
      end
  end.

Definition DATA_FOLDER : string := "data/".

(** The names kept from the listing [files] of [getFiles({ prefix })]:
    [files.filter(f => f.name.endsWith(".json"))
          .map(f => f.name.replace(prefix, ""))]. *)
Definition jsonFiles (prefix : string) (files : list string) : list string :=
  map (removeFirst prefix) (List.filter (endsWith ".json") files).

(** The object name that [fetchJSONFromStorage(fileName)] opens. *)
Definition objectName (fileName : string) : string := DATA_FOLDER +:+ fileName.

Record Categorized : Type := {
  categories : list string;
  prompts : list string;
  promptDetails : list string
}.

(** The body of [fileNames.forEach]; [toLowerCase] is
    [String.prototype.toLowerCase]. *)
Definition categorizeOne (toLowerCase : string -> string) (c : Categorized)
    (fileName : string) : Categorized :=
  let lowerName := toLowerCase fileName in
  if includes "category" lowerName || String.prefix "pt_category" lowerName
  then {| categories := categories c ++ [fileName];
          prompts := prompts c; promptDetails := promptDetails c |}
  else if String.prefix "prompts_" lowerName
  then {| categories := categories c;
          prompts := prompts c ++ [fileName]; promptDetails := promptDetails c |}
  else if String.prefix "promptdetails_" lowerName
  then {| categories := categories c;
          prompts := prompts c; promptDetails := promptDetails c ++ [fileName] |}
  else c.

(** [categorizeFiles(fileNames)] of the dynamic script; the v2 script has
    the same loop inside [listAndCategorizeFiles]. *)
Definition categorizeFiles (toLowerCase : string -> string)
    (fileNames : list string) : Categorized :=
  fold_left (categorizeOne toLowerCase) fileNames
    {| categories := []; prompts := []; promptDetails := [] |}.

(** [listAndCategorizeFiles()] of the v2 script on the listing [files]. *)
Definition listAndCategorizeFiles (toLowerCase : string -> string)
    (files : list string) : Categorized :=
  categorizeFiles toLowerCase (jsonFiles DATA_FOLDER files).

End Files.

(** ** The category mapping of the v2 script *)

Module Mapping.
Import Migration.

(** [mapping[key] = v] on a plain object, [v] a string: assigning a string
    to [__proto__] creates no property.  The position of a key in the
    object plays no role: the mapping is only read by key. *)
Definition assign (key : string) (v : JsVal) (mapping : Fields) : Fields :=
  if String.eqb key "__proto__" then mapping else setField key v mapping.

(** [data.name || data.category_name || data.categoryName || data.title] *)
Definition categoryNameField (data : Fields) : JsVal :=
  jsOr (jsOr (jsOr (objGet data "name") (objGet data "category_name"))
             (objGet data "categoryName"))
       (objGet data "title").

(** [snapshot.docs.forEach(...)] inside the [try] block.  [keyOf] is the
    property key a value that is not a string converts to.  A truthy name
    that is not a string gets its first entry, then [name.toLowerCase]
    raises, and the [catch] returns the mapping as it is. *)
Fixpoint forEachDoc (toLowerCase : string -> string) (keyOf : JsVal -> string)
    (docs : list (string * Fields)) (mapping : Fields) : Fields :=
  match docs with
  | [] => mapping
  | (id, data) :: rest =>
      let name := categoryNameField data in
      if truthy name && truthy (JStr id) then
        match name with
        | JStr s =>
            forEachDoc toLowerCase keyOf rest
              (assign (toLowerCase s) (JStr id) (assign s (JStr id) mapping))
        | _ => assign (keyOf name) (JStr id) mapping
        end
      else forEachDoc toLowerCase keyOf rest mapping
  end.

(** [buildCategoryMapping()] of the v2 script; [snapshot] is what
    [db.collection("categories").get()] answers. *)
Definition buildCategoryMapping (toLowerCase : string -> string)
    (keyOf : JsVal -> string) (snapshot : Result (list (string * Fields)))
    : Fields :=
  match snapshot with
  | Ok docs => forEachDoc toLowerCase keyOf docs []
  | Throw _ => []
  end.

(** The document [doc] sets the key [k] of the mapping. *)
Definition namesKey (toLowerCase : string -> string) (k : string)
    (doc : string * Fields) : bool :=
  truthy (JStr (fst doc)) &&
  match categoryNameField (snd doc) with
  | JStr s => negb (String.eqb s "") &&
              (String.eqb k s || String.eqb k (toLowerCase s))
  | _ => false
  end.

(** The category name of the document is a string, or falsy. *)
Definition plainName (doc : string * Fields) : bool :=
  match categoryNameField (snd doc) with
  | JStr _ => true
  | v => negb (truthy v)
  end.

(** The document has an id and a category name that is the string [s]
    up to case. *)
Definition namedUpToCase (toLowerCase : string -> string) (s : string)
    (doc : string * Fields) : Prop :=
  exists s', categoryNameField (snd doc) = JStr s' /\
             String.eqb s' "" = false /\
             truthy (JStr (fst doc)) = true /\
             toLowerCase s' = toLowerCase s.

End Mapping.

(** ** The v2 migration as a whole *)

Module Main.
Import Firestore Writer Migration Files Mapping.

(** The three collections. *)
Record World : Type := {
  categoriesCol : gmap string Fields;
  promptsCol : gmap string Fields;
  promptDetailsCol : gmap string Fields
}.

(** What the server decides during a run: the outcomes of the SDK calls of
    each of the three batch writes, and what
    [db.collection("categories").get()] answers on the categories
    collection. *)
Record Server : Type := {
  categoriesEnv : Env;
  promptsEnv : Env;
  promptDetailsEnv : Env;
  categoriesSnapshot : gmap string Fields -> Result (list (string * Fields))
}.

Record Summary : Type := {
  categoriesResult : Counts;
  promptsResult : Counts;
  promptDetailsResult : Counts
}.

(** [main()] with [MIGRATION_MODE = mode]; [listing] is what
    [storage.getFiles({ prefix: DATA_FOLDER })] answers.  The result is
    the collections as they are left, with the summary printed, [None]
    when no file was recognised, or the error that ends the process. *)
Definition main (toLowerCase : string -> string) (keyOf : JsVal -> string)
    (server : Server) (bucket : Bucket) (listing : Result (list string))
    (w : World) (mode : string) : World * Result (option Summary) :=
  match listing with
  | Throw e => (w, Throw e)
  | Ok files =>
      let categorizedFiles := listAndCategorizeFiles toLowerCase files in
      match categories categorizedFiles, prompts categorizedFiles,
            promptDetails categorizedFiles with
      | [], [], [] => (w, Ok None)
      | _, _, _ =>
          match migrateCategories (categoriesEnv server) bucket
                  (categoriesCol w) (categories categorizedFiles) mode with
          | Throw e => (w, Throw e)
          | Ok r1 =>
              let w1 := {| categoriesCol := w_store r1;
                           promptsCol := promptsCol w;
                           promptDetailsCol := promptDetailsCol w |} in
              let categoryMapping :=
                if (0 <? successCount (w_counts r1))%Z || String.eqb mode "update"
                then Some (buildCategoryMapping toLowerCase keyOf
                             (categoriesSnapshot server (w_store r1)))
                else None in
              match migratePrompts toLowerCase (promptsEnv server) bucket
                      (promptsCol w) (prompts categorizedFiles)
                      categoryMapping mode with
              | Throw e => (w1, Throw e)
              | Ok r2 =>
                  let w2 := {| categoriesCol := w_store r1;
                               promptsCol := w_store r2;
                               promptDetailsCol := promptDetailsCol w |} in
                  match migratePromptDetails (promptDetailsEnv server) bucket
                          (promptDetailsCol w)
                          (promptDetails categorizedFiles) mode with
                  | Throw e => (w2, Throw e)
                  | Ok r3 =>
                      ({| categoriesCol := w_store r1;
                          promptsCol := w_store r2;
                          promptDetailsCol := w_store r3 |},
                       Ok (Some {| categoriesResult := w_counts r1;
                                   promptsResult := w_counts r2;
                                   promptDetailsResult := w_counts r3 |}))
                  end
              end
          end
      end
  end.

End Main.

(** ** The cleanup script *)

Module Cleanup.

Record Env : Type := {
  (** the ids of the documents that [limit(500).get()] answers with on a
      collection, or the error it raises *)
  snapshot : gmap string Fields -> Result (list string);
  (** whether the commit of delete batch number [k] (from 0) succeeds *)
  commitOk : nat -> bool
}.

(** A committed batch of [batch.delete(doc.ref)]. *)
Definition deleteAll (st : gmap string Fields) (ids : list string)
    : gmap string Fields :=
  foldl (fun s id => delete id s) st ids.

(** The [while (true)] loop of [deleteCollection], at batch number [k]
    with [totalDeleted] so far; [None] when [fuel] iterations did not end
    it.  The result is paired with the collection as it is left. *)
Fixpoint deleteLoop (env : Env) (fuel : nat) (k : nat)
    (st : gmap string Fields) (totalDeleted : Z)
    : option (Result Z * gmap string Fields) :=
  match fuel with
  | O => None
  | S fuel' =>
      match snapshot env st with
      | Throw e => Some (Throw e, st)
      | Ok [] => Some (Ok totalDeleted, st)
      | Ok docs =>
          if commitOk env k
          then deleteLoop env fuel' (S k) (deleteAll st docs)
                 (totalDeleted + Z.of_nat (length docs))
          else Some (Throw OtherError, st)
      end
  end.

(** [deleteCollection(collectionName)] on the collection [st]. *)
Definition deleteCollection (env : Env) (fuel : nat) (st : gmap string Fields)
    : option (Result Z * gmap string Fields) :=
  deleteLoop env fuel 0 st 0.

(** The query answers as Firestore does: with documents of the
    collection, each once, at most 500 of them, and with none only when
    the collection is empty. *)
Definition answersFromCollection (env : Env) : Prop :=
  forall st docs,
    snapshot env st = Ok docs ->
    NoDup docs /\ (forall id, id ∈ docs -> id ∈ dom st) /\
    (length docs <= 500)%nat /\ (docs = [] -> st = ∅).

End Cleanup.

(** ** The repair script for nested prompt details *)

Module Fix.
Import Firestore Migration.

(** [data.data[0]] when [data.data] is a non-empty array. *)
Definition nestedPrompt (data : Fields) : option JsVal :=
  match objGet data "data" with
  | JArr (promptData :: _) => Some promptData
  | _ => None
  end.

Record Plan : Type := {
  (** the writes queued in [batch] *)
  sets : list SetOp;
  oldDocIds : list string;
  fixedCount : Z;
  skippedCount : Z
}.

Definition emptyPlan : Plan :=
  {| sets := []; oldDocIds := []; fixedCount := 0; skippedCount := 0 |}.

(** The body of [for (const doc of snapshot.docs)]. *)
Definition planDoc (env : Env) (plan : Plan) (doc : string * Fields)
    : Result Plan :=
  match nestedPrompt (snd doc) with
  | Some promptData =>
      match getProp promptData "_id" with
      | None => Throw TypeError
      | Some realPromptId =>
          if truthy realPromptId then
            match docRef env realPromptId with
            | None => Throw OtherError
            | Some newId =>
                let cleanData := withoutKeys ["_id"] (ownFields promptData) in
                let payload := spread cleanData timestamps in
                if docDataOk env payload
                then Ok {| sets := sets plan ++
                                     [ {| op_id := newId; op_data := payload;
                                          op_merge := false |} ];
                           oldDocIds := oldDocIds plan ++ [fst doc];
                           fixedCount := fixedCount plan + 1;
                           skippedCount := skippedCount plan |}
                else Throw OtherError
            end
          else Ok plan
      end
  | None =>
      Ok {| sets := sets plan; oldDocIds := oldDocIds plan;
            fixedCount := fixedCount plan;
            skippedCount := skippedCount plan + 1 |}
  end.

Fixpoint planDocs (env : Env) (docs : list (string * Fields)) (plan : Plan)
    : Result Plan :=
  match docs with
  | [] => Ok plan
  | doc :: rest =>
      let! plan' := planDoc env plan doc in
      planDocs env rest plan'
  end.

(** [fixPromptDetails()] on the collection [st], whose snapshot lists
    [docs]: the collection as it is left, and the count returned or the
    error raised.  Commit 0 is the batch of writes, commit 1 the batch of
    deletions. *)
Definition fixPromptDetails (env : Env) (docs : list (string * Fields))
    (st : gmap string Fields) : gmap string Fields * Result Z :=
  match planDocs env docs emptyPlan with
  | Throw e => (st, Throw e)
  | Ok plan =>
      if (0 <? fixedCount plan)%Z then
        if commitOk env 0 then
          let st1 := commit st (sets plan) in
          if commitOk env 1
          then (Cleanup.deleteAll st1 (oldDocIds plan), Ok (fixedCount plan))
          else (st1, Throw OtherError)
        else (st, Throw OtherError)
      else (st, Ok (fixedCount plan))
  end.

(** The document is one that the loop rewrites: its [data] starts with an
    entry that has a truthy [_id]. *)
Definition isNested (doc : string * Fields) : bool :=
  match nestedPrompt (snd doc) with
  | Some promptData =>
      match getProp promptData "_id" with
      | Some realPromptId => truthy realPromptId
      | None => false
      end
  | None => false
  end.

(** [data.data[0]._id] of a document, [undefined] when there is none. *)
Definition realPromptId (doc : string * Fields) : JsVal :=
  match nestedPrompt (snd doc) with
  | Some promptData =>
      match getProp promptData "_id" with
      | Some realPromptId => realPromptId
      | None => JUndefined
      end
  | None => JUndefined
  end.

(** The payload written for a rewritten document:
    [{ ...cleanData, createdAt, updatedAt }]. *)
Definition payloadOf (doc : string * Fields) : Fields :=
  match nestedPrompt (snd doc) with
  | Some promptData => spread (withoutKeys ["_id"] (ownFields promptData)) timestamps
  | None => []
  end.

End Fix.

(** ** Statements about migrated records *)

Module Records.
Import Migration.

(** The payload [fs] written for [item]: no identifier field, both time
    stamps set by the server, every other field but [categoryId] as in
    the item. *)
Definition cleanedAndStamped (item : JsVal) (fs : Fields) : Prop :=
  lookupField "_id" fs = None /\ lookupField "id" fs = None /\
  lookupField "createdAt" fs = Some JServerTimestamp /\
  lookupField "updatedAt" fs = Some JServerTimestamp /\
  forall k, ~ In k ["_id"; "id"; "categoryId"; "createdAt"; "updatedAt"] ->
            lookupField k fs = lookupField k (ownFields item).

(** [item] is an element of the array read from one of [files]. *)
Definition itemOf (bucket : Bucket) (files : list string) (item : JsVal) : Prop :=
  exists fileName items,
    fileName ∈ files /\ readItems bucket fileName = Ok items /\ item ∈ items.

End Records.

(** ** Statements about the read APIs *)

Module Answers.
Import Api.



(** A configuration that passed the validation of [getConfig]. *)
Definition validConfig (config : JsVal) : Prop :=
  exists categoryMap promptDetailsFiles,
    getProp config "categoryMap" = Some categoryMap /\
    truthy categoryMap = true /\
    getProp config "promptDetailsFiles" = Some promptDetailsFiles /\
    truthy promptDetailsFiles = true.

End Answers.

(** ** Sample data *)

Module Samples.
Import Pagination Api.

Definition prompt (n : Z) : JsVal :=
  JObj [("_id", JNum n); ("prompt", JStr "a prompt")].

Definition prompts25 : list JsVal :=
  map (fun n => prompt (Z.of_nat n)) (seq 0 25).

Definition sampleConfig : JsVal :=
  JObj [("categoryMap", JObj [("cat1", JStr "prompts_Cat1.json")]);
        ("promptDetailsFiles", JArr [JStr "promptDetails_Cat1.json"])].

Definition sampleStorage : Storage := fun fileName =>
  match fileName with
  | JStr name =>
      if String.eqb name "config.json" then Ok sampleConfig
      else if String.eqb name "prompts_Cat1.json" then Ok (JArr prompts25)
      else Throw (FileNotFound name)
  | _ => Throw OtherError
  end.

Definition brokenStorage : Storage := fun _ => Throw OtherError.

Definition listRequest : Request :=
  {| method := "POST"; path := "/getCategoryList";
     apiKeyHeader := Some "s3cret";
     reqBody := JObj [("id", JStr "cat1")];
     queryPage := QStr "2"; queryLimit := QStr "10" |}.

Definition healthRequestNoKey : Request :=
  {| method := "GET"; path := "/health"; apiKeyHeader := None;
     reqBody := JObj []; queryPage := QAbsent; queryLimit := QAbsent |}.

Definition healthRequestWithKey : Request :=
  {| method := "GET"; path := "/health"; apiKeyHeader := Some "s3cret";
     reqBody := JObj []; queryPage := QAbsent; queryLimit := QAbsent |}.

(** The cache after a first successful call at clock reading 1000. *)
Definition warmState : ConfigState :=
  fst (fst (getConfig initialConfigState 1000 sampleStorage)).

Definition emptyDb : Db :=
  {| db_categories := Ok [];
     db_promptsByCategory := fun _ => queryOver [];
     db_promptDetail := fun _ => Ok None |}.

Definition allOk : Firestore.Env :=
  {| Firestore.scanOk := true;
     Firestore.commitOk := fun _ => true;
     Firestore.docPathOk := fun _ => true;
     Firestore.docDataOk := fun _ => true;
     Firestore.autoId := fun j => String.concat "" ("auto-" :: repeat "i" j) |}.

Definition scanFails : Firestore.Env :=
  {| Firestore.scanOk := false;
     Firestore.commitOk := fun _ => true;
     Firestore.docPathOk := fun _ => true;
     Firestore.docDataOk := fun _ => true;
     Firestore.autoId := fun j => String.concat "" ("auto-" :: repeat "i" j) |}.

(** A collection holding the single document [a]. *)
Definition oneDoc : gmap string Fields :=
  {[ "a" := [("x", JNum 1); ("y", JNum 7)] ]}.

Definition rewriteA : Writer.WriteItem :=
  {| Writer.docId := JStr "a"; Writer.data := [("x", JNum 2)] |}.

Definition newB : Writer.WriteItem :=
  {| Writer.docId := JStr "b"; Writer.data := [("x", JNum 3)] |}.

Definition asciiToLowerCase (s : string) : string :=
  String.string_of_list_ascii
    (map Migration.asciiLower (String.list_ascii_of_string s)).


(** A prompt file whose name matches no category, holding one item with
    an identifier and a [categoryId] of its own, and one item without
    identifier. *)
Definition sampleBucket : Migration.Bucket := fun fileName =>
  if String.eqb fileName "prompts_Unknown.json"
  then Ok (JArr [JObj [("_id", JStr "p1"); ("categoryId", JStr "stale")];
                 JObj [("prompt", JStr "no identifier")]])
  else if String.eqb fileName "prompts_MUSIC.json"
  then Ok (JObj [("prompts", JArr [JObj [("id", JStr "p2"); ("categoryId", JStr "stale")]])])
  else Throw (FileNotFound fileName).

End Samples.

Module MoreSamples.
Import Pagination Api.

(** A bucket with a configuration and two prompt detail files; the first
    one has a [null] entry in front of the entry [d2]. *)
Definition detailStorage : Storage := fun fileName =>
  match fileName with
  | JStr name =>
      if String.eqb name "config.json"
      then Ok (JObj [("categoryMap", JObj [("cat1", JStr "prompts_Cat1.json")]);
                     ("promptDetailsFiles",
                      JArr [JStr "promptDetails_A.json";
                            JStr "promptDetails_B.json"])])
      else if String.eqb name "promptDetails_A.json"
      then Ok (JArr [JObj [("_id", JStr "d1"); ("text", JStr "one")];
                     JNull;
                     JObj [("_id", JStr "d2"); ("text", JStr "two")]])
      else if String.eqb name "promptDetails_B.json"
      then Ok (JArr [JObj [("_id", JStr "d3"); ("text", JStr "three")]])
      else Throw (FileNotFound name)
  | _ => Throw OtherError
  end.

Definition detailRequest (id : string) : Request :=
  {| method := "POST"; path := "/getPromptDetails";
     apiKeyHeader := Some "s3cret";
     reqBody := JObj [("_id", JStr id)];
     queryPage := QAbsent; queryLimit := QAbsent |}.

(** A snapshot of the categories collection. *)
Definition categoryDocs : list (string * Fields) :=
  [ ("c1", [("name", JStr "Music")]);
    ("c2", [("title", JStr "Art"); ("order", JNum 2)]);
    ("c3", [("category_name", JStr "music")]) ].

(** The property key of a value that is not a string (here: of any
    object). *)
Definition sampleKeyOf (v : JsVal) : string := "[object Object]".

(** A server on which every read and every commit succeeds; a query with
    [limit(500)] answers with the first 500 ids. *)
Definition cleanupOk : Cleanup.Env :=
  {| Cleanup.snapshot := fun st => Ok (take 500 (elements (dom st)));
     Cleanup.commitOk := fun _ => true |}.

(** A prompt details collection with a nested document stored under a
    generated id, a nested document stored under its own prompt id, and a
    flat document. *)
Definition nestedDetails : list (string * Fields) :=
  [ ("auto1", [("data", JArr [JObj [("_id", JStr "d1"); ("text", JStr "one")]])]);
    ("d2", [("data", JArr [JObj [("_id", JStr "d2"); ("text", JStr "two")]])]);
    ("d3", [("text", JStr "three")]) ].

(** A server on which every SDK call succeeds. *)
Definition sampleServer : Main.Server :=
  {| Main.categoriesEnv := Samples.allOk;
     Main.promptsEnv := Samples.allOk;
     Main.promptDetailsEnv := Samples.allOk;
     Main.categoriesSnapshot := fun st => Ok (map_to_list st) |}.

(** The categories collection holds the category Music; the bucket holds
    one prompt file for it and no category file. *)
Definition sampleWorld : Main.World :=
  {| Main.categoriesCol := {[ "cat-music" := [("name", JStr "Music")] ]};
     Main.promptsCol := ∅;
     Main.promptDetailsCol := ∅ |}.

Definition sampleListing : list string := ["data/prompts_MUSIC.json"].

Definition noSummary : Main.Summary :=
  {| Main.categoriesResult := Writer.noCounts;
     Main.promptsResult := Writer.noCounts;
     Main.promptDetailsResult := Writer.noCounts |}.

End MoreSamples.

(** ** Theorems *)

Module ExtractFacts.
Import Extract.

Lemma firstArrayUnder_Some fs keys a :
  firstArrayUnder fs keys = Some a ->
  exists k, firstArrayKey fs keys k /\ a = objGet fs k.
Proof.
  induction keys as [|key rest IH]; simpl; [discriminate|].
  destruct (isArray (objGet fs key)) eqn:E.
  - intros [= <-]. exists key. split; [|reflexivity].
    exists [], rest. repeat split; auto.
  - intros H. destruct (IH H) as (k & (b & af & -> & Hk & Hb) & ->).
    exists k. split; [|reflexivity].
    exists (key :: b), af. repeat split; auto.
Qed.

Lemma firstArrayUnder_None fs keys :
  firstArrayUnder fs keys = None <-> noArrayKey fs keys.
Proof.
  unfold noArrayKey. induction keys as [|key rest IH]; simpl.
  - split; auto.
  - destruct (isArray (objGet fs key)) eqn:E.
    + split; [discriminate|]. intros H. inversion H; congruence.
    + rewrite IH. split; intros H; [constructor; auto|inversion H; auto].
Qed.

Lemma lookupField_In k fs v :
  lookupField k fs = Some v -> In k (objectKeys fs).
Proof.
  induction fs as [|[k' v'] rest IH]; simpl; [discriminate|].
  destruct (String.eqb k k') eqn:E.
  - apply String.eqb_eq in E. subst. auto.
  - auto.
Qed.

(** An array can only be read under an own key. *)
Lemma array_under_own_key fs k :
  isArray (objGet fs k) = true -> In k (objectKeys fs).
Proof.
  unfold objGet. destruct (lookupField k fs) eqn:E.
  - intros _. eapply lookupField_In; eauto.
  - destruct (inStrings k objectPrototypeMembers); discriminate.
Qed.

Lemma noArrayKey_own_iff fs :
  noArrayKey fs (objectKeys fs) <-> ~ hasArrayProperty fs.
Proof.
  unfold noArrayKey, hasArrayProperty. rewrite Forall_forall. split.
  - intros H [k Hk]. specialize (H k).
    rewrite H in Hk; [discriminate|]. rewrite list_elem_of_In.
    now apply array_under_own_key.
  - intros H k _. destruct (isArray (objGet fs k)) eqn:E; auto.
    exfalso. apply H. eauto.
Qed.

Lemma extract_contract pk data fileName :
  readerContract pk data fileName (extractArrayFromJSON pk data fileName).
Proof.
  unfold readerContract, extractArrayFromJSON.
  destruct data as [| | | | | |fs| |]; simpl; try reflexivity.
  destruct (firstArrayUnder fs pk) as [a|] eqn:E1.
  - left. apply firstArrayUnder_Some in E1 as (k & Hk & ->).
    exists k. split; [exact Hk|reflexivity].
  - apply firstArrayUnder_None in E1. right.
    destruct (firstArrayUnder fs (objectKeys fs)) as [a|] eqn:E2.
    + left. split; [assumption|].
      apply firstArrayUnder_Some in E2 as (k & Hk & ->).
      exists k. split; [exact Hk|reflexivity].
    + right. split; [|reflexivity].
      apply noArrayKey_own_iff. now apply firstArrayUnder_None.
Qed.

Lemma firstArrayKey_has fs keys k :
  firstArrayKey fs keys k -> hasArrayProperty fs.
Proof. intros (b & a & _ & H & _). exists k. exact H. Qed.

Lemma extract_throws_iff pk data fileName :
  throws (extractArrayFromJSON pk data fileName) <-> malformed data.
Proof.
  pose proof (extract_contract pk data fileName) as C.
  unfold throws. destruct data; simpl in C |- *;
    try (rewrite C; split; eauto; fail).
  - rewrite C. split; [intros [e He]; discriminate|tauto].
  - destruct C as [(k & Hk & ->)|[(Hn & k & Hk & ->)|(Hn & ->)]].
    + split; [intros [e He]; discriminate|].
      intros H. exfalso. apply H. eapply firstArrayKey_has; eauto.
    + split; [intros [e He]; discriminate|].
      intros H. exfalso. apply H. eapply firstArrayKey_has; eauto.
    + split; eauto.
Qed.

(** C7. For every parsed JSON value, both versions of
    [extractArrayFromJSON] return an array unchanged, return from an
    object the array under the first matching priority key and otherwise
    the first array-valued property, and raise an error exactly when the
    value is an object without array-valued property or is neither an
    array nor an object. *)
Theorem C7_extractArrayFromJSON_contract (data : JsVal) (fileName : string) :
  readerContract possibleKeys_v2 data fileName
    (extractArrayFromJSON_v2 data fileName) /\
  readerContract possibleKeys_dyn data fileName
    (extractArrayFromJSON_dyn data fileName) /\
  (throws (extractArrayFromJSON_v2 data fileName) <-> malformed data) /\
  (throws (extractArrayFromJSON_dyn data fileName) <-> malformed data).
Proof.
  repeat split; try apply extract_contract; apply extract_throws_iff.
Qed.

Example extract_direct_array :
  extractArrayFromJSON_v2 (JArr [JNum 1; JNum 2]) "f.json"
  = Ok (JArr [JNum 1; JNum 2]).
Proof. reflexivity. Qed.

Example extract_priority_beats_order :
  extractArrayFromJSON_v2
    (JObj [("zzz", JArr [JNum 1]); ("items", JArr [JNum 2]);
           ("data", JStr "x")]) "f.json"
  = Ok (JArr [JNum 2]).
Proof. reflexivity. Qed.

Example extract_records_key_differs :
  extractArrayFromJSON_dyn
    (JObj [("zzz", JArr [JNum 1]); ("records", JArr [JNum 2])]) "f.json"
  = Ok (JArr [JNum 2]) /\
  extractArrayFromJSON_v2
    (JObj [("zzz", JArr [JNum 1]); ("records", JArr [JNum 2])]) "f.json"
  = Ok (JArr [JNum 1]).
Proof. split; reflexivity. Qed.

Example extract_no_array :
  extractArrayFromJSON_v2 (JObj [("a", JNum 1)]) "f.json"
  = Throw (NoArrayFound "f.json") /\
  extractArrayFromJSON_v2 JNull "f.json"
  = Throw (InvalidJsonStructure "f.json").
Proof. split; reflexivity. Qed.

End ExtractFacts.

Module PaginationFacts.
Import Pagination.
Local Open Scope Z_scope.

Example parseInt_examples :
  parseInt "-5" = Some (-5) /\ parseInt "1000" = Some 1000 /\
  parseInt "abc" = None /\ parseInt "" = None /\
  parseInt "  42px" = Some 42 /\ parseInt "0x1F" = Some 31 /\
  parseInt "+7.9" = Some 7 /\ parseInt "-" = None /\
  parseInt (queryToString (QList [QStr "3"; QStr "4"])) = Some 3 /\
  parseInt (queryToString (QMap [("a", QStr "1")])) = None.
Proof. repeat split; reflexivity. Qed.

Lemma sanitizeLimit_range q : 1 <= sanitizeLimit q <= 100.
Proof. unfold sanitizeLimit. lia. Qed.

Lemma sanitizePage_ge_1 q : 1 <= sanitizePage q.
Proof. unfold sanitizePage. lia. Qed.

Lemma ceilDiv_spec a b :
  0 < b -> b * (ceilDiv a b - 1) < a <= b * ceilDiv a b.
Proof.
  intros Hb. unfold ceilDiv.
  pose proof (Z.div_mod (- a) b ltac:(lia)) as E.
  pose proof (Z.mod_pos_bound (- a) b Hb) as M.
  nia.
Qed.

(** [ceilDiv] is the least number of pages of size [b] that hold [a]. *)
Lemma ceilDiv_least a b n :
  0 < b -> a <= b * n -> ceilDiv a b <= n.
Proof.
  intros Hb Hn. pose proof (ceilDiv_spec a b Hb). nia.
Qed.

Lemma slice_nonneg {A} (arr : list A) s e :
  0 <= s <= e ->
  slice arr s e = take (Z.to_nat (e - s)) (drop (Z.to_nat s) arr).
Proof.
  intros H. unfold slice.
  destruct (Z.ltb_spec s 0); [lia|].
  destruct (Z.ltb_spec e 0); [lia|].
  set (len := Z.of_nat (length arr)).
  destruct (Z_le_gt_dec len s) as [Hs|Hs].
  - rewrite !(drop_ge arr) by (unfold len in *; lia).
    now rewrite !take_nil.
  - rewrite (Z.min_l s len) by lia.
    destruct (Z_le_gt_dec e len) as [He|He].
    + now rewrite (Z.min_l e len) by lia.
    + rewrite (Z.min_r e len) by lia.
      rewrite !take_ge; [reflexivity| |];
        rewrite length_drop; unfold len in *; lia.
Qed.

(** What [paginate] returns, for any array and any query values. *)
Lemma paginate_facts {A} (arr : list A) (pageArg limitArg : QueryVal) :
  let p := sanitizePage pageArg in
  let l := sanitizeLimit limitArg in
  let r := paginate arr pageArg limitArg in
  page r = p /\ limit r = l /\
  total r = Z.of_nat (length arr) /\
  l * (totalPages r - 1) < total r <= l * totalPages r /\
  data r = take (Z.to_nat l) (drop (Z.to_nat ((p - 1) * l)) arr) /\
  (forall j : nat, Z.of_nat j < l ->
     data r !! j = arr !! (Z.to_nat ((p - 1) * l) + j)%nat).
Proof.
  intros p l r.
  pose proof (sanitizePage_ge_1 pageArg) as Hp.
  pose proof (sanitizeLimit_range limitArg) as Hl.
  fold p in Hp. fold l in Hl.
  assert (D : data r = take (Z.to_nat l) (drop (Z.to_nat ((p - 1) * l)) arr)).
  { unfold r, paginate. simpl. fold p l.
    rewrite slice_nonneg by nia. f_equal. f_equal. lia. }
  repeat split; try reflexivity.
  - apply ceilDiv_spec. lia.
  - apply ceilDiv_spec. lia.
  - exact D.
  - intros j Hj. rewrite D.
    rewrite lookup_take_lt by lia. now rewrite lookup_drop.
Qed.


End PaginationFacts.

Module ApiFacts.
Import Pagination Api PaginationFacts.
Local Open Scope Z_scope.

(** The fields of a successful [/getCategoryList] answer. *)
Lemma category_list_body (p : Paginated JsVal) :
  spread [("success", JBool true);
          ("message", JStr "Category data fetched successfully")]
         (paginatedFields p)
  = [("success", JBool true);
     ("message", JStr "Category data fetched successfully");
     ("page", JNum (page p)); ("limit", JNum (limit p));
     ("total", JNum (total p)); ("totalPages", JNum (totalPages p));
     ("data", JArr (data p))].
Proof. reflexivity. Qed.

Lemma getCategoryList_success st now storage req idStr config categoryMap
    fileName items :
  getProp (reqBody req) "id" = Some (JStr idStr) ->
  idStr <> "" ->
  snd (fst (getConfig st now storage)) = Ok config ->
  getProp config "categoryMap" = Some categoryMap ->
  getProp categoryMap idStr = Some fileName ->
  truthy fileName = true ->
  storage fileName = Ok (JArr items) ->
  snd (getCategoryList st now storage req)
  = json (spread [("success", JBool true);
                  ("message", JStr "Category data fetched successfully")]
                 (paginatedFields
                    (paginate items (queryPage req) (queryLimit req)))).
Proof.
  intros Hid Hne Hcfg Hmap Hfile Htr Hst.
  unfold getCategoryList. rewrite Hid.
  assert (T : truthy (JStr idStr) = true).
  { simpl. destruct (String.eqb_spec idStr ""); [contradiction|reflexivity]. }
  rewrite T. simpl negb. cbv iota.
  destruct (getConfig st now storage) as [[st' cfg] ev].
  simpl in Hcfg. subst cfg. simpl.
  rewrite Hmap. simpl. rewrite Hfile. simpl. rewrite Htr. simpl.
  rewrite Hst. reflexivity.
Qed.

(** C5. When [/getCategoryList] reaches [paginate] with an array of
    matching prompts, the answer carries the sanitized page [p] and limit
    [l], [total] equal to the number of items, [totalPages] equal to
    [ceil(total / l)], and as [data] the items at positions [(p-1)*l]
    through [p*l - 1]; with 25 items, [page=2] and [limit=10] it carries
    exactly 10 items, [total = 25] and [totalPages = 3]. *)
Theorem C5_category_list_pagination st now storage req idStr config
    categoryMap fileName (items : list JsVal) :
  getProp (reqBody req) "id" = Some (JStr idStr) ->
  idStr <> "" ->
  snd (fst (getConfig st now storage)) = Ok config ->
  getProp config "categoryMap" = Some categoryMap ->
  getProp categoryMap idStr = Some fileName ->
  truthy fileName = true ->
  storage fileName = Ok (JArr items) ->
  let p := sanitizePage (queryPage req) in
  let l := sanitizeLimit (queryLimit req) in
  let n := Z.of_nat (length items) in
  exists (pages : Z) (shown : list JsVal),
    snd (getCategoryList st now storage req)
    = {| status := 200;
         body := JObj [("success", JBool true);
                       ("message", JStr "Category data fetched successfully");
                       ("page", JNum p); ("limit", JNum l);
                       ("total", JNum n); ("totalPages", JNum pages);
                       ("data", JArr shown)] |} /\
    l * (pages - 1) < n <= l * pages /\
    shown = take (Z.to_nat l) (drop (Z.to_nat ((p - 1) * l)) items) /\
    (forall j : nat, Z.of_nat j < l ->
       shown !! j = items !! (Z.to_nat ((p - 1) * l) + j)%nat) /\
    (length items = 25%nat ->
     queryPage req = QStr "2" -> queryLimit req = QStr "10" ->
     length shown = 10%nat /\ n = 25 /\ pages = 3).
Proof.
  intros Hid Hne Hcfg Hmap Hfile Htr Hst p l n.
  pose proof (getCategoryList_success _ _ _ _ _ _ _ _ _
                Hid Hne Hcfg Hmap Hfile Htr Hst) as E.
  rewrite category_list_body in E.
  destruct (paginate_facts items (queryPage req) (queryLimit req))
    as (E1 & E2 & E3 & E4 & E5 & E6).
  set (r := paginate items (queryPage req) (queryLimit req)) in *.
  exists (totalPages r), (data r).
  rewrite E1, E2, E3 in E. fold p l n in E4, E5, E6.
  rewrite E3 in E4. fold n in E4.
  split; [exact E|]. split; [exact E4|]. split; [exact E5|].
  split; [exact E6|].
  intros Hlen Hp Hl.
  assert (Pp : p = 2) by (unfold p; rewrite Hp; reflexivity).
  assert (Pl : l = 10) by (unfold l; rewrite Hl; reflexivity).
  assert (Pn : n = 25) by (unfold n; rewrite Hlen; reflexivity).
  rewrite Pl, Pn in E4.
  split; [|split; [exact Pn|lia]].
  rewrite E5, Pp, Pl. rewrite length_take, length_drop, Hlen. reflexivity.
Qed.

(** *** The API key middleware *)

Lemma verifyAPIKey_rejects expectedKey req :
  apiKeyHeader req = None \/ apiKeyHeader req <> Some expectedKey ->
  verifyAPIKey expectedKey req = Some forbiddenResponse.
Proof.
  unfold verifyAPIKey. destruct (apiKeyHeader req) as [k|]; [|reflexivity].
  intros [H|H]; [discriminate|].
  destruct (String.eqb_spec k expectedKey) as [->|Hne]; [contradiction|].
  simpl. now rewrite orb_true_r.
Qed.

Lemma verifyAPIKey_accepts expectedKey req :
  expectedKey <> "" -> apiKeyHeader req = Some expectedKey ->
  verifyAPIKey expectedKey req = None.
Proof.
  intros Hne Hk. unfold verifyAPIKey. rewrite Hk.
  rewrite String.eqb_refl.
  destruct (String.eqb_spec expectedKey ""); [contradiction|reflexivity].
Qed.

(** C6 (as the code has it). In both applications every request whose
    [x-api-key] header is absent or differs from the configured secret
    is answered 403 with the fixed body [forbiddenResponse], which does
    not depend on the secret, whatever the route, [GET /health]
    included; [GET /health] succeeds once the request carries the
    configured, non-empty key. *)
Theorem C6_api_key_guards_every_route (expectedKey timestamp : string)
    (st : ConfigState) (now : Z) (storage : Storage) (db : Db)
    (req : Request) :
  (apiKeyHeader req = None \/ apiKeyHeader req <> Some expectedKey ->
   appFs expectedKey timestamp db req = forbiddenResponse /\
   app expectedKey timestamp st now storage req = (st, forbiddenResponse)) /\
  (expectedKey <> "" -> apiKeyHeader req = Some expectedKey ->
   routeIs req "GET" "/health" = true ->
   appFs expectedKey timestamp db req = health timestamp /\
   app expectedKey timestamp st now storage req = (st, health timestamp) /\
   status (health timestamp) = 200 /\
   lookupField "success" [("success", JBool true);
                          ("message", JStr "API is running");
                          ("timestamp", JStr timestamp)] = Some (JBool true)).
Proof.
  split.
  - intros H. unfold appFs, app.
    rewrite (verifyAPIKey_rejects _ _ H). split; reflexivity.
  - intros Hne Hk Hr. unfold appFs, app.
    rewrite (verifyAPIKey_accepts _ _ Hne Hk), Hr. repeat split.
Qed.

(** *** The configuration cache *)







End ApiFacts.

Module ApiWitnesses.
Import Pagination Api ApiFacts Samples.
Local Open Scope Z_scope.

Lemma C5_witness :
  exists (pages : Z) (shown : list JsVal),
    snd (getCategoryList initialConfigState 1000 sampleStorage listRequest)
    = {| status := 200;
         body := JObj [("success", JBool true);
                       ("message", JStr "Category data fetched successfully");
                       ("page", JNum 2); ("limit", JNum 10);
                       ("total", JNum 25); ("totalPages", JNum pages);
                       ("data", JArr shown)] |} /\
    length shown = 10%nat /\ pages = 3.
Proof.
  destruct (C5_category_list_pagination initialConfigState 1000 sampleStorage
              listRequest "cat1" sampleConfig
              (JObj [("cat1", JStr "prompts_Cat1.json")])
              (JStr "prompts_Cat1.json") prompts25)
    as (pages & shown & E & _ & _ & _ & Ex);
    try reflexivity; [discriminate|].
  exists pages, shown. split; [exact E|].
  destruct Ex as (L & _ & P); try reflexivity. split; assumption.
Defined.

(** The specification lets [GET /health] through without a key; the
    middleware does not. *)
Lemma C6_health_without_key_is_rejected :
  status (appFs "s3cret" "2024-01-01T00:00:00.000Z" emptyDb healthRequestNoKey)
  = 403 /\
  status (snd (app "s3cret" "2024-01-01T00:00:00.000Z" initialConfigState
                 1000 sampleStorage healthRequestNoKey)) = 403.
Proof. split; reflexivity. Qed.

Lemma C6_witness :
  appFs "s3cret" "2024-01-01T00:00:00.000Z" emptyDb healthRequestNoKey
  = forbiddenResponse /\
  appFs "s3cret" "2024-01-01T00:00:00.000Z" emptyDb healthRequestWithKey
  = health "2024-01-01T00:00:00.000Z".
Proof.
  split.
  - destruct (C6_api_key_guards_every_route "s3cret"
                "2024-01-01T00:00:00.000Z" initialConfigState 1000
                sampleStorage emptyDb healthRequestNoKey) as [H _].
    destruct H as [H _]; [left; reflexivity|exact H].
  - destruct (C6_api_key_guards_every_route "s3cret"
                "2024-01-01T00:00:00.000Z" initialConfigState 1000
                sampleStorage emptyDb healthRequestWithKey) as [_ H].
    destruct H as [H _]; [discriminate|reflexivity|reflexivity|exact H].
Defined.

Example health_with_key :
  status (appFs "s3cret" "2024-01-01T00:00:00.000Z" emptyDb healthRequestWithKey)
  = 200.
Proof. reflexivity. Qed.


End ApiWitnesses.

Module PathFacts.
Import Firestore.

Lemma noSlash_split s : noSlash s = true -> splitPath s = [s].
Proof.
  induction s as [|c s IH]; cbn [noSlash splitPath]; [reflexivity|].
  destruct (Ascii.eqb c slash); cbn [negb andb]; [discriminate|].
  intros H. now rewrite (IH H).
Qed.

Lemma noSlash_segmentsOf s :
  noSlash s = true -> s <> "" -> segmentsOf s = [s].
Proof.
  intros H Hne. unfold segmentsOf. rewrite (noSlash_split s H).
  cbn [List.filter]. now destruct (String.eqb_spec s "").
Qed.

Lemma noSlash_hasDoubleSlash s : noSlash s = true -> hasDoubleSlash s = false.
Proof.
  induction s as [|a s IH]; [reflexivity|].
  cbn [noSlash]. destruct (Ascii.eqb a slash) eqn:Ea; cbn [negb andb];
    [discriminate|].
  intros H. destruct s as [|b s]; [reflexivity|].
  change (hasDoubleSlash (String a (String b s)))
    with ((Ascii.eqb a slash && Ascii.eqb b slash)
          || hasDoubleSlash (String b s)).
  now rewrite Ea, (IH H).
Qed.

(** On a string without slash [doc] addresses the document of that
    name. *)
Lemma docRef_plain env s :
  noSlash s = true ->
  docRef env (JStr s)
  = if negb (String.eqb s "") && docPathOk env s then Some s else None.
Proof.
  intros H. unfold docRef. rewrite (noSlash_hasDoubleSlash s H).
  destruct (String.eqb_spec s "") as [->|Hne]; [reflexivity|].
  rewrite (noSlash_segmentsOf s H Hne). cbn.
  now destruct (docPathOk env s).
Qed.

Lemma docRef_Some env v id :
  docRef env v = Some id -> exists s, v = JStr s /\ truthy v = true.
Proof.
  unfold docRef. destruct v as [| | | |s| | | |]; try discriminate.
  destruct (String.eqb s "") eqn:E; [discriminate|].
  intros _. exists s. split; [reflexivity|]. cbn. now rewrite E.
Qed.

Lemma elem_of_collectionIds (st : gmap string Fields) key :
  key ∈ collectionIds st <-> noSlash key = true /\ key ∈ dom st.
Proof.
  unfold collectionIds.
  apply (elem_of_filter (fun k => noSlash k = true) (dom st) key).
Qed.

Lemma collectionIds_dom (st : gmap string Fields) key :
  noSlash key = true -> key ∉ collectionIds st -> key ∉ dom st.
Proof.
  intros H N D. apply N, elem_of_collectionIds. now split.
Qed.

(** A path with a trailing slash addresses the document without it, and a
    path of three segments a document of a sub-collection. *)
Example docRef_examples :
  docRef Samples.allOk (JStr "a") = Some "a" /\
  docRef Samples.allOk (JStr "a/") = Some "a" /\
  docRef Samples.allOk (JStr "/a") = Some "a" /\
  docRef Samples.allOk (JStr "a/b/c") = Some "a/b/c" /\
  docRef Samples.allOk (JStr "a/b") = None /\
  docRef Samples.allOk (JStr "a//b/c") = None /\
  docRef Samples.allOk (JStr "/") = None /\
  docRef Samples.allOk (JStr "") = None /\
  docRef Samples.allOk (JNum 5) = None.
Proof. repeat split; reflexivity. Qed.

End PathFacts.

Module WriterFacts.
Import Firestore Writer PathFacts.

Lemma chunkCount_lt (k n : nat) : (k * batchSize < n <-> k < chunkCount n)%nat.
Proof.
  unfold chunkCount, batchSize. simpl Nat.sub.
  pose proof (Nat.div_mod_eq (n + 499) 500) as E.
  pose proof (Nat.mod_upper_bound (n + 499) 500 ltac:(lia)) as M.
  lia.
Qed.

Lemma chunkCount_le_length (n : nat) : (chunkCount n <= n)%nat.
Proof.
  destruct (Nat.le_gt_cases (chunkCount n) n) as [H|H]; [exact H|].
  apply chunkCount_lt in H. unfold batchSize in H. lia.
Qed.

(** [chunkCount n] is [ceil(n / 500)]. *)
Lemma chunkCount_ceil (n : nat) :
  Z.of_nat (chunkCount n) = Pagination.ceilDiv (Z.of_nat n) 500.
Proof.
  pose proof (PaginationFacts.ceilDiv_spec (Z.of_nat n) 500 ltac:(lia)) as C.
  pose proof (chunkCount_lt (chunkCount n) n) as U.
  destruct (chunkCount n) as [|c] eqn:E.
  - assert (n = 0)%nat.
    { destruct n as [|n]; [reflexivity|].
      assert (0 < chunkCount (S n))%nat
        by (apply chunkCount_lt; unfold batchSize; lia). lia. }
    subst n. reflexivity.
  - pose proof (proj2 (chunkCount_lt c n) ltac:(lia)) as L.
    unfold batchSize in *.
    assert (~ (S c * 500 < n)%nat) by (intros X; apply U in X; lia).
    lia.
Qed.

Section LoopFacts.
Context {A : Type}.
Variable prep : A -> Prepared.
Variable commitSucceeds : nat -> bool.
Variable dec : bool.
Variable data : list A.

Local Abbreviation forEachItem := (forEachItem prep).
Local Abbreviation writeChunk := (writeChunk prep commitSucceeds dec data).
Local Abbreviation writeLoop := (writeLoop prep commitSucceeds dec data).
Local Abbreviation eventOf := (eventOf prep commitSucceeds data).
Local Abbreviation stepEvent := (stepEvent prep dec).
Local Abbreviation chunkAt := (chunkAt data).

Lemma opsOf_app ps qs : opsOf (ps ++ qs) = opsOf ps ++ opsOf qs.
Proof. unfold opsOf. apply omap_app. Qed.

Lemma countOf_app f ps qs : countOf f (ps ++ qs) = (countOf f ps + countOf f qs)%Z.
Proof. unfold countOf. rewrite List.filter_app, length_app. lia. Qed.

Lemma forEachItem_spec chunk batch c :
  forEachItem chunk batch c
  = (batch ++ opsOf (map prep chunk),
     {| successCount := successCount c;
        errorCount := (errorCount c + countOf isFailed (map prep chunk))%Z;
        skippedCount := (skippedCount c + countOf isSkipped (map prep chunk))%Z |}).
Proof.
  revert batch c. induction chunk as [|item rest IH]; intros batch c.
  - simpl. rewrite app_nil_r. destruct c. unfold countOf. simpl.
    f_equal. f_equal; lia.
  - simpl. destruct (prep item) as [| |op] eqn:E; rewrite IH; simpl;
      unfold countOf, opsOf; simpl.
    + f_equal. f_equal; lia.
    + f_equal. f_equal; lia.
    + f_equal. now rewrite <- app_assoc.
Qed.

Lemma writeChunk_event k s :
  writeChunk (k * batchSize) s = stepEvent s (eventOf k).
Proof.
  unfold Writer.writeChunk. rewrite forEachItem_spec.
  rewrite Nat.div_mul by (unfold batchSize; lia).
  unfold stepEvent, Writer.stepEvent, Writer.eventOf, applyEvent, countEvent,
    outcomeOf. simpl.
  fold (chunkAt k).
  destruct (opsOf (map prep (chunkAt k))) as [|op ops] eqn:E; simpl.
  - f_equal. destruct (w_counts s). simpl. f_equal; lia.
  - destruct (commitSucceeds k); simpl; f_equal; f_equal; try lia.
    destruct dec; lia.
Qed.

Lemma writeLoop_events fuel k s :
  (chunkCount (length data) <= k + fuel)%nat ->
  (k <= chunkCount (length data))%nat ->
  writeLoop fuel (k * batchSize) s
  = foldl stepEvent s (eventOf <$> seq k (chunkCount (length data) - k)).
Proof.
  revert k s. induction fuel as [|fuel IH]; intros k s Hf Hk.
  - replace (chunkCount (length data) - k)%nat with 0%nat by lia. reflexivity.
  - simpl. destruct (Nat.ltb_spec (k * batchSize) (length data)) as [Hlt|Hge].
    + apply chunkCount_lt in Hlt.
      replace (k * batchSize + batchSize)%nat with (S k * batchSize)%nat by lia.
      rewrite writeChunk_event, IH by lia.
      replace (chunkCount (length data) - k)%nat
        with (S (chunkCount (length data) - S k)) by lia.
      reflexivity.
    + assert (~ (k < chunkCount (length data))%nat)
        by (rewrite <- chunkCount_lt; lia).
      replace (chunkCount (length data) - k)%nat with 0%nat by lia. reflexivity.
Qed.

(** The loop, batch by batch. *)
Lemma runWriter_events st :
  runWriter prep commitSucceeds dec data st
  = foldl stepEvent {| w_store := st; w_counts := noCounts; w_log := [] |}
      (eventOf <$> seq 0 (chunkCount (length data))).
Proof.
  unfold runWriter.
  change 0%nat with (0 * batchSize)%nat at 1.
  rewrite writeLoop_events.
  - now rewrite Nat.sub_0_r.
  - pose proof (chunkCount_le_length (length data)). lia.
  - lia.
Qed.

(** More fuel than [length data] changes nothing: the loop has ended. *)
Lemma writeLoop_fuel fuel s :
  (length data <= fuel)%nat ->
  writeLoop fuel 0 s = writeLoop (length data) 0 s.
Proof.
  intros H. change 0%nat with (0 * batchSize)%nat.
  pose proof (chunkCount_le_length (length data)).
  rewrite !writeLoop_events by lia. reflexivity.
Qed.

Lemma sumZ_cons {B} (f : B -> Z) x l : sumZ f (x :: l) = (f x + sumZ f l)%Z.
Proof. reflexivity. Qed.

Lemma fold_log evs s :
  w_log (foldl stepEvent s evs) = w_log s ++ evs.
Proof.
  revert s. induction evs as [|ev evs IH]; intros s; simpl.
  - now rewrite app_nil_r.
  - rewrite IH. simpl. now rewrite <- app_assoc.
Qed.

Lemma fold_store evs s :
  w_store (foldl stepEvent s evs) = foldl (applyEvent (A:=A)) (w_store s) evs.
Proof.
  revert s. induction evs as [|ev evs IH]; intros s; simpl; [reflexivity|].
  now rewrite IH.
Qed.

Lemma fold_counts evs s :
  let c := w_counts (foldl stepEvent s evs) in
  let c0 := w_counts s in
  (skippedCount c
   = skippedCount c0 + sumZ (fun ev => countOf isSkipped (map prep (ev_chunk ev))) evs
   /\
   errorCount c
   = errorCount c0 + sumZ (fun ev => countOf isFailed (map prep (ev_chunk ev))) evs
     + opsIn rejected evs /\
   successCount c
   = successCount c0 + opsIn committed evs
     - (if dec then opsIn rejected evs else 0))%Z.
Proof.
  revert s. induction evs as [|ev evs IH]; intros s; simpl.
  - unfold opsIn. simpl. destruct dec; lia.
  - destruct (IH (stepEvent s ev)) as (E1 & E2 & E3).
    rewrite E1, E2, E3. unfold opsIn, rejected, committed. simpl.
    destruct (ev_outcome ev); destruct dec; lia.
Qed.

(** *** The chunks *)

Lemma chunks_take m k :
  concat (chunkAt <$> seq k m)
  = take (m * batchSize) (drop (k * batchSize) data).
Proof.
  revert k. induction m as [|m IH]; intros k; simpl; [now rewrite take_0|].
  rewrite IH. unfold Writer.chunkAt.
  replace (S k * batchSize)%nat with (k * batchSize + batchSize)%nat by lia.
  rewrite <- drop_drop. apply take_take_drop.
Qed.

Lemma chunks_concat :
  concat (chunkAt <$> seq 0 (chunkCount (length data))) = data.
Proof.
  rewrite chunks_take. simpl. rewrite drop_0. apply take_ge.
  pose proof (chunkCount_lt (chunkCount (length data)) (length data)). lia.
Qed.

Lemma chunk_length k :
  (k < chunkCount (length data))%nat ->
  (0 < length (chunkAt k) <= batchSize)%nat.
Proof.
  intros H. apply chunkCount_lt in H. unfold Writer.chunkAt.
  rewrite length_take, length_drop. unfold batchSize in *. lia.
Qed.

Lemma sum_over_chunks (g : list A -> Z) :
  g [] = 0%Z -> (forall l1 l2, g (l1 ++ l2) = g l1 + g l2)%Z ->
  sumZ (fun ev => g (ev_chunk ev)) (eventOf <$> seq 0 (chunkCount (length data)))
  = g data.
Proof.
  intros G0 Gapp.
  assert (E : forall ks,
             sumZ (fun ev => g (ev_chunk ev)) (eventOf <$> ks)
             = g (concat (chunkAt <$> ks))).
  { induction ks as [|k ks IH]; [simpl; now rewrite G0|].
    rewrite !fmap_cons. change (concat (chunkAt k :: (chunkAt <$> ks)))
      with (chunkAt k ++ concat (chunkAt <$> ks)).
    rewrite Gapp, <- IH. reflexivity. }
  now rewrite E, chunks_concat.
Qed.

Lemma ops_over_chunks :
  concat (ev_ops <$> (eventOf <$> seq 0 (chunkCount (length data))))
  = opsOf (map prep data).
Proof.
  assert (E : forall ks,
             concat (ev_ops <$> (eventOf <$> ks))
             = opsOf (map prep (concat (chunkAt <$> ks)))).
  { induction ks as [|k ks IH]; [reflexivity|].
    rewrite !fmap_cons. change (concat (chunkAt k :: (chunkAt <$> ks)))
      with (chunkAt k ++ concat (chunkAt <$> ks)).
    rewrite map_app, opsOf_app, <- IH. reflexivity. }
  now rewrite E, chunks_concat.
Qed.

(** Every item is skipped, failed or queued. *)
Lemma outcomes_partition (ps : list Prepared) :
  (countOf isSkipped ps + countOf isFailed ps + Z.of_nat (length (opsOf ps))
   = Z.of_nat (length ps))%Z.
Proof.
  unfold countOf, opsOf. induction ps as [|p ps IH]; simpl; [reflexivity|].
  change (list_omap Prepared SetOp queuedOp ps) with (omap queuedOp ps).
  destruct p; simpl; lia.
Qed.

Lemma opsIn_all_none (evs : list (BatchEvent A)) :
  Forall (fun ev => ev_outcome ev = NotIssued -> ev_ops ev = []) evs ->
  (opsIn committed evs + opsIn rejected evs
   = Z.of_nat (length (concat (ev_ops <$> evs))))%Z.
Proof.
  induction 1 as [|ev evs H _ IH]; [reflexivity|].
  rewrite fmap_cons.
  change (concat (ev_ops ev :: (ev_ops <$> evs)))
    with (ev_ops ev ++ concat (ev_ops <$> evs)).
  rewrite length_app, Nat2Z.inj_add, <- IH.
  unfold opsIn. rewrite !sumZ_cons. unfold committed, rejected.
  destruct (ev_outcome ev); try lia.
  rewrite (H eq_refl). simpl length. lia.
Qed.

(** *** The run as a whole *)

Lemma run_log st :
  w_log (runWriter prep commitSucceeds dec data st)
  = eventOf <$> seq 0 (chunkCount (length data)).
Proof. rewrite runWriter_events, fold_log. reflexivity. Qed.

Lemma run_store st :
  w_store (runWriter prep commitSucceeds dec data st)
  = foldl (applyEvent (A:=A)) st
      (w_log (runWriter prep commitSucceeds dec data st)).
Proof. rewrite run_log, runWriter_events, fold_store. reflexivity. Qed.

Lemma log_not_issued_iff st :
  Forall (fun ev => ev_outcome ev = NotIssued <-> ev_ops ev = [])
         (w_log (runWriter prep commitSucceeds dec data st)).
Proof.
  rewrite run_log. apply Forall_fmap, Forall_forall. intros k _.
  unfold Writer.eventOf, outcomeOf. simpl.
  destruct (opsOf (map prep (chunkAt k))); [tauto|].
  destruct (commitSucceeds k); split; discriminate.
Qed.

Lemma run_counts st :
  let r := runWriter prep commitSucceeds dec data st in
  (skippedCount (w_counts r) = countOf isSkipped (map prep data) /\
   errorCount (w_counts r)
   = countOf isFailed (map prep data) + opsIn rejected (w_log r) /\
   successCount (w_counts r)
   = opsIn committed (w_log r) - (if dec then opsIn rejected (w_log r) else 0) /\
   opsIn committed (w_log r) + opsIn rejected (w_log r)
   = Z.of_nat (length (opsOf (map prep data))))%Z.
Proof.
  intros r.
  pose proof (log_not_issued_iff st) as N. fold r in N.
  assert (L : w_log r = eventOf <$> seq 0 (chunkCount (length data)))
    by apply run_log.
  rewrite L in N |- *. unfold r. rewrite runWriter_events.
  destruct (fold_counts (eventOf <$> seq 0 (chunkCount (length data)))
              {| w_store := st; w_counts := noCounts; w_log := [] |})
    as (E1 & E2 & E3).
  rewrite E1, E2, E3. simpl.
  rewrite (sum_over_chunks (fun l => countOf isSkipped (map prep l)))
    by (intros; rewrite ?map_app, ?countOf_app; reflexivity).
  rewrite (sum_over_chunks (fun l => countOf isFailed (map prep l)))
    by (intros; rewrite ?map_app, ?countOf_app; reflexivity).
  repeat split; try lia.
  rewrite <- ops_over_chunks. apply opsIn_all_none.
  eapply Forall_impl; [exact N|]. intros ev H. apply H.
Qed.

(** Without the decrement, the three counters add up to the number of
    items handed over. *)
Lemma run_counts_total st :
  dec = false ->
  let c := w_counts (runWriter prep commitSucceeds dec data st) in
  (successCount c + errorCount c + skippedCount c = Z.of_nat (length data))%Z.
Proof.
  intros Hd c. destruct (run_counts st) as (E1 & E2 & E3 & E4).
  unfold c. rewrite E1, E2, E3.
  set (lost := opsIn rejected _) in *.
  assert (X : (if dec then lost else 0%Z) = 0%Z) by now rewrite Hd.
  rewrite X.
  pose proof (outcomes_partition (map prep data)) as P.
  rewrite length_map in P. lia.
Qed.

(** Every write of the log was queued by [prep] for an item of [data]. *)
Lemma log_ops_from_data st :
  Forall (fun ev =>
            Forall (fun op => exists x, x ∈ data /\ prep x = Queued op)
                   (ev_ops ev))
         (w_log (runWriter prep commitSucceeds dec data st)).
Proof.
  rewrite run_log. apply Forall_fmap, Forall_forall. intros k _.
  apply Forall_forall. intros op Hop. simpl in Hop.
  unfold opsOf in Hop. apply list_elem_of_omap in Hop as (p & Hp & Hq).
  change (map prep (chunkAt k)) with (prep <$> chunkAt k) in Hp.
  apply list_elem_of_fmap in Hp as (x & -> & Hx).
  exists x. split.
  - unfold Writer.chunkAt in Hx.
    apply subseteq_take in Hx. now apply subseteq_drop in Hx.
  - destruct (prep x); simpl in Hq; congruence.
Qed.

(** *** What commits do to one document *)

Lemma applyOp_lookup st (op : SetOp) (key : string) :
  applyOp st op !! key
  = if decide (op_id op = key) then Some (written (st !! key) op)
    else st !! key.
Proof.
  unfold applyOp, written.
  destruct (decide (op_id op = key)) as [<-|Hne].
  - destruct (op_merge op); now rewrite lookup_insert_eq.
  - destruct (op_merge op); now rewrite lookup_insert_ne.
Qed.

Lemma commit_inv (key : string) (I : option Fields -> Prop)
    (P : SetOp -> Prop) (ops : list SetOp) st :
  (forall op o, P op -> op_id op = key -> I o -> I (Some (written o op))) ->
  Forall P ops -> I (st !! key) -> I (commit st ops !! key).
Proof.
  intros Step HP. revert st. unfold commit.
  induction HP as [|op ops Hop _ IH]; intros st H0; simpl; [exact H0|].
  apply IH. rewrite applyOp_lookup.
  destruct (decide (op_id op = key)); [now apply Step|exact H0].
Qed.

Lemma events_inv (key : string) (I : option Fields -> Prop)
    (P : SetOp -> Prop) (evs : list (BatchEvent A)) st :
  (forall op o, P op -> op_id op = key -> I o -> I (Some (written o op))) ->
  Forall (fun ev => Forall P (ev_ops ev)) evs ->
  I (st !! key) -> I (foldl (applyEvent (A:=A)) st evs !! key).
Proof.
  intros Step HP. revert st.
  induction HP as [|ev evs Hev _ IH]; intros st H0; simpl; [exact H0|].
  apply IH. unfold applyEvent.
  destruct (ev_outcome ev); try exact H0.
  eapply commit_inv; eauto.
Qed.

(** An invariant of one document that every queued write preserves holds
    after the run. *)
Lemma run_store_inv (key : string) (I : option Fields -> Prop) st :
  (forall x op o, x ∈ data -> prep x = Queued op -> op_id op = key ->
                  I o -> I (Some (written o op))) ->
  I (st !! key) ->
  I (w_store (runWriter prep commitSucceeds dec data st) !! key).
Proof.
  intros Step H0. rewrite run_store.
  eapply (events_inv key I
            (fun op => exists x, x ∈ data /\ prep x = Queued op)).
  - intros op o (x & Hx & Hq). eauto.
  - apply log_ops_from_data.
  - exact H0.
Qed.

(** *** The batching contract *)

Lemma opsOf_nonempty (chunk : list A) :
  chunk <> [] -> (forall x, x ∈ chunk -> exists op, prep x = Queued op) ->
  opsOf (map prep chunk) <> [].
Proof.
  destruct chunk as [|x rest]; [congruence|]. intros _ H.
  destruct (H x) as [op Hop]; [apply list_elem_of_here|].
  unfold opsOf. simpl. rewrite Hop. simpl. discriminate.
Qed.

Lemma run_contract st :
  batchingContract commitSucceeds prep data
    (runWriter prep commitSucceeds dec data st).
Proof.
  unfold batchingContract. rewrite run_log.
  split; [now rewrite length_fmap, length_seq|].
  split; [apply chunkCount_ceil|].
  split.
  { rewrite <- list_fmap_compose. apply chunks_concat. }
  split.
  { rewrite <- list_fmap_compose. apply list_fmap_id. }
  split.
  { apply Forall_fmap, Forall_forall. intros k Hk.
    apply elem_of_seq in Hk. simpl.
    split; [apply chunk_length; lia|].
    split; [reflexivity|].
    unfold outcomeOf.
    destruct (opsOf (map prep (chunkAt k))) as [|op ops]; [tauto|].
    split; [|reflexivity].
    destruct (commitSucceeds k); split; discriminate. }
  split.
  { rewrite <- run_log with (st := st). apply run_counts. }
  intros Hall. apply Forall_fmap, Forall_forall. intros k Hk.
  apply elem_of_seq in Hk.
  unfold issued, Writer.eventOf, outcomeOf. simpl.
  pose proof (chunk_length k ltac:(lia)) as Hlen.
  assert (Hne : opsOf (map prep (chunkAt k)) <> []).
  { apply opsOf_nonempty.
    - intros E. rewrite E in Hlen. simpl in Hlen. lia.
    - intros x Hx. apply Hall. unfold Writer.chunkAt in Hx.
      apply subseteq_take in Hx. now apply subseteq_drop in Hx. }
  destruct (opsOf (map prep (chunkAt k))); [congruence|].
  now destruct (commitSucceeds k).
Qed.

End LoopFacts.

(** What a run attempts depends neither on the commit outcomes nor on the
    content of the store. *)
Lemma run_attempts_indep {A} (prep : A -> Prepared) (c1 c2 : nat -> bool)
    (d1 d2 : bool) (data : list A) st1 st2 :
  attempts (runWriter prep c1 d1 data st1)
  = attempts (runWriter prep c2 d2 data st2).
Proof.
  unfold attempts. rewrite !run_log, <- !list_fmap_compose. reflexivity.
Qed.

(** *** Merge writes *)

Lemma lookupField_setField_ne f k v fs :
  f <> k -> lookupField f (setField k v fs) = lookupField f fs.
Proof.
  intros Hne. induction fs as [|[k' v'] rest IH]; simpl.
  - destruct (String.eqb_spec f k); [contradiction|reflexivity].
  - destruct (String.eqb_spec k k') as [->|Hk]; simpl.
    + destruct (String.eqb_spec f k'); [contradiction|reflexivity].
    + destruct (String.eqb_spec f k'); [reflexivity|exact IH].
Qed.

Lemma lookupField_setField_eq k v fs :
  lookupField k (setField k v fs) = Some v.
Proof.
  induction fs as [|[k' v'] rest IH]; simpl.
  - now rewrite String.eqb_refl.
  - destruct (String.eqb_spec k k') as [->|Hk]; simpl.
    + now rewrite String.eqb_refl.
    + destruct (String.eqb_spec k k'); [contradiction|exact IH].
Qed.


(** *** The two writers *)

Lemma v2_run env st items mode :
  batchWriteToFirestore_v2 env st items mode
  = runWriter (prepare_v2 env mode (existingFor env st mode)) (commitOk env)
      false items st.
Proof. destruct items; reflexivity. Qed.

Lemma dyn_run env st items useIdField mode :
  batchWriteToFirestore_dyn env st items useIdField mode
  = runWriter (prepare_dyn env useIdField mode (existingFor env st mode))
      (commitOk env) true (withPositions items) st.
Proof. destruct items; reflexivity. Qed.

Lemma withPositions_snd items : (snd <$> withPositions items) = items.
Proof.
  unfold withPositions. apply snd_zip. now rewrite length_seq.
Qed.

Lemma withPositions_length items : length (withPositions items) = length items.
Proof.
  rewrite <- (withPositions_snd items) at 2. now rewrite length_fmap.
Qed.

Lemma docRef_plainId env v id :
  plainDocId v = true -> docRef env v = Some id -> v = JStr id.
Proof.
  destruct v as [| | | |s| | | |]; try discriminate.
  cbn [plainDocId]. intros H. rewrite (docRef_plain env s H).
  destruct (negb (String.eqb s "") && docPathOk env s); [|discriminate].
  now intros [= <-].
Qed.

Lemma setHas_false ids s : setHas ids (JStr s) = false -> s ∉ ids.
Proof. simpl. intros H. now apply bool_decide_eq_false in H. Qed.

(** In update mode the v2 writer skips exactly the items whose key is in
    [existingIds], and queues no write to such a key for an item whose
    key is a plain id. *)
Lemma prepare_v2_update_skipped env ids it :
  isSkipped (prepare_v2 env "update" ids it)
  = truthy (docId it) && setHas ids (docId it).
Proof.
  unfold prepare_v2. simpl.
  destruct (truthy (docId it) && setHas ids (docId it)); [reflexivity|].
  destruct (docRef env (docId it)); [|reflexivity].
  now destruct (docDataOk env (data it)).
Qed.

Lemma prepare_v2_update_queued env ids it op :
  plainDocId (docId it) = true ->
  prepare_v2 env "update" ids it = Queued op ->
  noSlash (op_id op) = true /\ op_id op ∉ ids.
Proof.
  intros Hplain. unfold prepare_v2. simpl.
  destruct (truthy (docId it) && setHas ids (docId it)) eqn:E; [discriminate|].
  destruct (docRef env (docId it)) as [id|] eqn:R; [|discriminate].
  destruct (docDataOk env (data it)); [|discriminate].
  intros [= <-]. simpl.
  destruct (docRef_Some env _ _ R) as (s & _ & Ht).
  apply (docRef_plainId env _ _ Hplain) in R.
  rewrite R in Hplain, E, Ht. rewrite Ht in E.
  split; [exact Hplain|now apply setHas_false].
Qed.

Lemma prepare_dyn_update_skipped env u ids j item :
  isSkipped (prepare_dyn env u "update" ids (j, item))
  = truthy (docIdOf u item) && setHas ids (docIdOf u item).
Proof.
  unfold prepare_dyn. simpl.
  destruct (truthy (docIdOf u item) && setHas ids (docIdOf u item));
    [reflexivity|].
  destruct (if truthy (docIdOf u item) then _ else _); [|reflexivity].
  now destruct (docDataOk env _).
Qed.

Lemma prepare_dyn_update_queued env u ids j item op :
  plainDocId (docIdOf u item) = true ->
  prepare_dyn env u "update" ids (j, item) = Queued op ->
  (noSlash (op_id op) = true /\ op_id op ∉ ids) \/ op_id op = autoId env j.
Proof.
  intros Hplain. unfold prepare_dyn. simpl.
  destruct (truthy (docIdOf u item) && setHas ids (docIdOf u item)) eqn:E;
    [discriminate|].
  destruct (truthy (docIdOf u item)) eqn:T.
  - destruct (docRef env (docIdOf u item)) as [id|] eqn:R; [|discriminate].
    destruct (docDataOk env _); [|discriminate].
    intros [= <-]. simpl. left.
    apply (docRef_plainId env _ _ Hplain) in R.
    rewrite R in Hplain, E.
    split; [exact Hplain|now apply setHas_false].
  - destruct (docDataOk env _); [|discriminate].
    intros [= <-]. now right.
Qed.

Lemma countOf_skipped_filter {A} (prep : A -> Prepared) (present : A -> bool)
    (items : list A) :
  (forall x, isSkipped (prep x) = present x) ->
  countOf isSkipped (map prep items)
  = Z.of_nat (length (List.filter present items)).
Proof.
  intros H. unfold countOf. induction items as [|x rest IH]; simpl;
    [reflexivity|].
  rewrite H. destruct (present x); simpl; lia.
Qed.

Lemma filter_withPositions (present : Fields -> bool) (items : list Fields) :
  length (List.filter (fun p => present (snd p)) (withPositions items))
  = length (List.filter present items).
Proof.
  unfold withPositions. generalize 0%nat.
  induction items as [|x rest IH]; intros k; simpl; [reflexivity|].
  destruct (present x); simpl; now rewrite IH.
Qed.

Lemma elem_of_withPositions j item items :
  (j, item) ∈ withPositions items -> item ∈ items.
Proof.
  intros H. rewrite <- (withPositions_snd items).
  apply list_elem_of_fmap. exists (j, item). split; [reflexivity|exact H].
Qed.

(** *** Generic consequences for the store and the log *)






(** *** The last write to a document *)







(** Two [forEach] bodies that agree on every item give the same run. *)
Lemma forEachItem_ext {A} (prep prep' : A -> Prepared) chunk batch c :
  (forall x, prep x = prep' x) ->
  forEachItem prep chunk batch c = forEachItem prep' chunk batch c.
Proof.
  intros H. revert batch c.
  induction chunk as [|x chunk IH]; intros batch c; simpl; [reflexivity|].
  rewrite <- (H x). destruct (prep x); apply IH.
Qed.

Lemma writeLoop_ext {A} (prep prep' : A -> Prepared) cs dec items fuel i s :
  (forall x, prep x = prep' x) ->
  writeLoop prep cs dec items fuel i s = writeLoop prep' cs dec items fuel i s.
Proof.
  intros H. revert i s.
  induction fuel as [|fuel IH]; intros i s; simpl; [reflexivity|].
  destruct (i <? length items)%nat; [|reflexivity].
  rewrite IH. f_equal. unfold writeChunk.
  now rewrite (forEachItem_ext prep prep' _ _ _ H).
Qed.

(** When the key scan succeeds and the keys of the records are plain ids,
    a call of either writer in update mode leaves every document as it
    was, queues no write to an existing document, and counts as skipped
    exactly the incoming records whose key is the id of a document of the
    collection, once per record.  (For the dynamic writer the ids that
    [doc()] generates are taken to be fresh.) *)
Lemma update_after_scan (env : Env) (st : gmap string Fields) :
  scanOk env = true ->
  (forall items : list WriteItem,
     Forall (fun it => plainDocId (docId it) = true) items ->
     let r := batchWriteToFirestore_v2 env st items "update" in
     (forall key, key ∈ dom st -> w_store r !! key = st !! key) /\
     Forall (fun ev => Forall (fun op => op_id op ∉ dom st) (ev_ops ev))
            (w_log r) /\
     skippedCount (w_counts r)
     = Z.of_nat (length (List.filter (fun it => keyPresent st (docId it)) items)))
  /\
  (forall (items : list Fields) (useIdField : bool),
     Forall (fun item => plainDocId (docIdOf useIdField item) = true) items ->
     (forall j, autoId env j ∉ dom st) ->
     let r := batchWriteToFirestore_dyn env st items useIdField "update" in
     (forall key, key ∈ dom st -> w_store r !! key = st !! key) /\
     Forall (fun ev => Forall (fun op => op_id op ∉ dom st) (ev_ops ev))
            (w_log r) /\
     skippedCount (w_counts r)
     = Z.of_nat (length (List.filter
                           (fun item => keyPresent st (docIdOf useIdField item))
                           items))).
Proof.
  intros Hscan.
  assert (Hex : existingFor env st "update" = collectionIds st).
  { unfold existingFor, getExistingDocIds. simpl. now rewrite Hscan. }
  split.
  - intros items Hplain r. unfold r. rewrite v2_run, Hex.
    rewrite Forall_forall in Hplain.
    assert (Hq : forall x op,
               x ∈ items ->
               prepare_v2 env "update" (collectionIds st) x = Queued op ->
               op_id op ∉ dom st).
    { intros x op Hx H.
      apply prepare_v2_update_queued in H as [H1 H2]; [|now apply Hplain].
      now apply collectionIds_dom. }
    split; [|split].
    + intros key Hkey.
      apply (run_store_inv _ _ _ _ key (fun o => o = st !! key)); [|reflexivity].
      intros x op o Hx Hp Hid _. apply (Hq x op Hx) in Hp.
      now rewrite Hid in Hp.
    + eapply Forall_impl; [apply log_ops_from_data|].
      intros ev Hev. eapply Forall_impl; [exact Hev|].
      intros op (x & Hx & Hp). now apply (Hq x op Hx).
    + destruct (run_counts (prepare_v2 env "update" (collectionIds st))
                  (commitOk env) false items st) as (E & _).
      rewrite E. apply countOf_skipped_filter.
      intros x. apply prepare_v2_update_skipped.
  - intros items u Hplain Hauto r. unfold r. rewrite dyn_run, Hex.
    rewrite Forall_forall in Hplain.
    assert (Hq : forall x op,
               x ∈ withPositions items ->
               prepare_dyn env u "update" (collectionIds st) x = Queued op ->
               op_id op ∉ dom st).
    { intros [j item] op Hx H.
      apply prepare_dyn_update_queued in H as [[H1 H2]|H].
      - now apply collectionIds_dom.
      - rewrite H. apply Hauto.
      - apply Hplain. eapply elem_of_withPositions; eauto. }
    split; [|split].
    + intros key Hkey.
      apply (run_store_inv _ _ _ _ key (fun o => o = st !! key)); [|reflexivity].
      intros x op o Hx Hp Hid _. apply (Hq x op Hx) in Hp.
      now rewrite Hid in Hp.
    + eapply Forall_impl; [apply log_ops_from_data|].
      intros ev Hev. eapply Forall_impl; [exact Hev|].
      intros op (x & Hx & Hp). now apply (Hq x op Hx).
    + destruct (run_counts (prepare_dyn env u "update" (collectionIds st))
                  (commitOk env) true (withPositions items) st) as (E & _).
      rewrite E.
      rewrite (countOf_skipped_filter _
                 (fun p => keyPresent st (docIdOf u (snd p)))).
      * now rewrite (filter_withPositions
                       (fun item => keyPresent st (docIdOf u item))).
      * intros [j item]. apply prepare_dyn_update_skipped.
Qed.

(** When the key scan fails, an update run is a fresh run. *)
Lemma update_without_scan (env : Env) (st : gmap string Fields) :
  scanOk env = false ->
  (forall items : list WriteItem,
     batchWriteToFirestore_v2 env st items "update"
     = batchWriteToFirestore_v2 env st items "fresh") /\
  (forall (items : list Fields) (useIdField : bool),
     batchWriteToFirestore_dyn env st items useIdField "update"
     = batchWriteToFirestore_dyn env st items useIdField "fresh").
Proof.
  intros Hscan.
  assert (Hex : existingFor env st "update" = ∅).
  { unfold existingFor, getExistingDocIds. simpl. now rewrite Hscan. }
  assert (Hno : forall v, truthy v && setHas ∅ v = false).
  { intros v. destruct (truthy v); [|reflexivity].
    destruct v; reflexivity. }
  split.
  - intros items. rewrite !v2_run, Hex. unfold runWriter.
    apply writeLoop_ext. intros x. unfold prepare_v2.
    cbn [String.eqb Ascii.eqb Bool.eqb andb].
    now rewrite (Hno (docId x)).
  - intros items u. rewrite !dyn_run, Hex. unfold runWriter.
    apply writeLoop_ext. intros [j item]. unfold prepare_dyn.
    cbn [String.eqb Ascii.eqb Bool.eqb andb].
    now rewrite (Hno (docIdOf u item)).
Qed.

(** C1. The claim holds of both writers when the key scan succeeds and
    the keys of the records are plain ids: existing documents are left as
    they were, no write to one is queued, and the skipped counter counts
    the records with an existing key.  It fails when the key scan fails:
    [getExistingDocIds] then answers with the empty set, and the update
    run is the fresh run, record for record; on the collection that holds
    [a] with fields [x] and [y], the record for [a] with the field [x]
    only replaces the document and nothing is counted as skipped. *)
Theorem C1_update_skips_existing_only_after_a_scan :
  (forall (env : Env) (st : gmap string Fields),
     scanOk env = true ->
     (forall items : list WriteItem,
        Forall (fun it => plainDocId (docId it) = true) items ->
        let r := batchWriteToFirestore_v2 env st items "update" in
        (forall key, key ∈ dom st -> w_store r !! key = st !! key) /\
        Forall (fun ev => Forall (fun op => op_id op ∉ dom st) (ev_ops ev))
               (w_log r) /\
        skippedCount (w_counts r)
        = Z.of_nat (length (List.filter (fun it => keyPresent st (docId it))
                                        items))) /\
     (forall (items : list Fields) (useIdField : bool),
        Forall (fun item => plainDocId (docIdOf useIdField item) = true) items ->
        (forall j, autoId env j ∉ dom st) ->
        let r := batchWriteToFirestore_dyn env st items useIdField "update" in
        (forall key, key ∈ dom st -> w_store r !! key = st !! key) /\
        Forall (fun ev => Forall (fun op => op_id op ∉ dom st) (ev_ops ev))
               (w_log r) /\
        skippedCount (w_counts r)
        = Z.of_nat (length (List.filter
                              (fun item => keyPresent st (docIdOf useIdField item))
                              items)))) /\
  (forall (env : Env) (st : gmap string Fields),
     scanOk env = false ->
     (forall items : list WriteItem,
        batchWriteToFirestore_v2 env st items "update"
        = batchWriteToFirestore_v2 env st items "fresh") /\
     (forall (items : list Fields) (useIdField : bool),
        batchWriteToFirestore_dyn env st items useIdField "update"
        = batchWriteToFirestore_dyn env st items useIdField "fresh")) /\
  (let r := batchWriteToFirestore_v2 Samples.scanFails Samples.oneDoc
              [Samples.rewriteA] "update" in
   keyPresent Samples.oneDoc (docId Samples.rewriteA) = true /\
   Samples.oneDoc !! "a" = Some [("x", JNum 1); ("y", JNum 7)] /\
   w_store r !! "a" = Some [("x", JNum 2)] /\
   skippedCount (w_counts r) = 0%Z /\
   successCount (w_counts r) = 1%Z).
Proof.
  split; [exact update_after_scan|]. split; [exact update_without_scan|].
  vm_compute. repeat split.
Qed.

(** *** Modes other than update *)

Lemma prepare_v2_plain env mode ids it :
  String.eqb mode "update" = false ->
  prepare_v2 env mode ids it
  = match docRef env (docId it) with
    | None => Failed
    | Some id =>
        if docDataOk env (data it)
        then Queued {| op_id := id; op_data := data it;
                       op_merge := String.eqb mode "force" |}
        else Failed
    end.
Proof. intros H. unfold prepare_v2. now rewrite H. Qed.

Lemma prepare_v2_plain_queued env mode ids it op :
  String.eqb mode "update" = false ->
  prepare_v2 env mode ids it = Queued op ->
  docRef env (docId it) = Some (op_id op) /\ op_data op = data it /\
  op_merge op = String.eqb mode "force".
Proof.
  intros H. rewrite prepare_v2_plain by exact H.
  destruct (docRef env (docId it)) as [id|] eqn:R; [|discriminate].
  destruct (docDataOk env (data it)); [|discriminate].
  intros [= <-]. simpl. auto.
Qed.





(** C2 (as the code has it). For every list of [n] records (those with
    [n > 500] included) and every mode, either writer cuts the list into
    [ceil(n/500)] consecutive chunks of at most 500 records, issues one
    commit for each chunk that queued at least one write and none for a
    chunk whose records were all skipped or refused, counts every write of
    a rejected commit as failed, and attempts the same chunks and writes
    whatever the earlier commits answered; when the mode is not update and
    the SDK accepts every record, that is [ceil(n/500)] commits. *)
Theorem C2_chunked_commits (env : Env) (st : gmap string Fields)
    (mode : string) :
  (forall items : list WriteItem,
     let r := batchWriteToFirestore_v2 env st items mode in
     batchingContract (commitOk env)
       (prepare_v2 env mode (existingFor env st mode)) items r /\
     (forall outcomes,
        attempts (batchWriteToFirestore_v2 (withCommits env outcomes) st items mode)
        = attempts r) /\
     (String.eqb mode "update" = false ->
      (forall it, it ∈ items ->
         docRef env (docId it) <> None /\ docDataOk env (data it) = true) ->
      Forall (fun ev => issued ev = true) (w_log r))) /\
  (forall (items : list Fields) (useIdField : bool),
     let r := batchWriteToFirestore_dyn env st items useIdField mode in
     batchingContract (commitOk env)
       (prepare_dyn env useIdField mode (existingFor env st mode))
       (withPositions items) r /\
     length (withPositions items) = length items /\
     (forall outcomes,
        attempts (batchWriteToFirestore_dyn (withCommits env outcomes) st items
                    useIdField mode)
        = attempts r)).
Proof.
  split.
  - intros items r. unfold r. rewrite v2_run.
    pose proof (run_contract (prepare_v2 env mode (existingFor env st mode))
                  (commitOk env) false items st) as C.
    split; [exact C|]. split.
    + intros outcomes. rewrite v2_run.
      exact (run_attempts_indep _ _ _ _ _ _ _ _).
    + intros Hm Hok. destruct C as (_ & _ & _ & _ & _ & _ & C). apply C.
      intros x Hx. destruct (Hok x Hx) as [Hr Hd].
      rewrite prepare_v2_plain by exact Hm.
      destruct (docRef env (docId x)); [|congruence]. rewrite Hd. eauto.
  - intros items u r. unfold r. rewrite dyn_run.
    split; [apply run_contract|]. split; [apply withPositions_length|].
    intros outcomes. rewrite dyn_run.
    exact (run_attempts_indep _ _ _ _ _ _ _ _).
Qed.

(** *** Merge writes *)





(** *** Positions in the dynamic writer *)





End WriterFacts.

Module WriterWitnesses.
Import Firestore Writer WriterFacts Samples.

Lemma C1_witness :
  let r := batchWriteToFirestore_v2 allOk oneDoc [rewriteA; newB] "update" in
  w_store r !! "a" = oneDoc !! "a" /\
  skippedCount (w_counts r) = 1%Z.
Proof.
  destruct C1_update_skips_existing_only_after_a_scan as [H _].
  destruct (H allOk oneDoc eq_refl) as [Hv2 _].
  destruct (Hv2 [rewriteA; newB]) as (Hs & _ & Hk).
  - repeat constructor.
  - split.
    + apply Hs. apply elem_of_dom. exists [("x", JNum 1); ("y", JNum 7)].
      reflexivity.
    + rewrite Hk. reflexivity.
Defined.

(** The key of a record is read as a document path, the key scan lists
    plain ids: after a successful scan the record with the key [a/] is not
    found among the existing ids, and its write replaces the document
    [a]. *)
Example update_trailing_slash_overwrites :
  let it := {| docId := JStr "a/"; data := [("x", JNum 2)] |} in
  let r := batchWriteToFirestore_v2 allOk oneDoc [it] "update" in
  keyPresent oneDoc (docId it) = false /\
  docRef allOk (docId it) = Some "a" /\
  w_store r !! "a" = Some [("x", JNum 2)] /\
  skippedCount (w_counts r) = 0%Z.
Proof. vm_compute. repeat split. Qed.

(** 501 records, all for the existing document [a], in update mode: two
    chunks and no commit at all. *)
Lemma C2_all_skipped_no_commit :
  let r := batchWriteToFirestore_v2 allOk oneDoc (replicate 501 rewriteA)
             "update" in
  chunkCount 501 = 2%nat /\
  length (w_log r) = 2%nat /\
  length (List.filter issued (w_log r)) = 0%nat /\
  skippedCount (w_counts r) = 501%Z.
Proof. vm_compute. repeat split. Qed.

Lemma C2_witness :
  Forall (fun ev => issued ev = true)
         (w_log (batchWriteToFirestore_v2 allOk oneDoc (replicate 501 rewriteA)
                   "fresh")).
Proof.
  destruct (C2_chunked_commits allOk oneDoc "fresh") as [H _].
  destruct (H (replicate 501 rewriteA)) as (_ & _ & A).
  apply A; [reflexivity|].
  intros it Hit. apply elem_of_replicate in Hit as [-> _].
  split; [discriminate|reflexivity].
Defined.


(** The dynamic writer in fresh mode: the record without identifier is
    written under the generated id of its position. *)
Example dyn_fresh_writes_generated_id :
  let r := batchWriteToFirestore_dyn allOk oneDoc
             [[("_id", JStr "p1"); ("t", JNum 1)]; [("t", JNum 2)]] true "fresh" in
  w_store r !! "p1" = Some [("t", JNum 1)] /\
  w_store r !! autoId allOk 1 = Some [("t", JNum 2)].
Proof. vm_compute. repeat split. Qed.

Example force_merge_keeps_field :
  let r := batchWriteToFirestore_v2 allOk oneDoc [rewriteA] "force" in
  w_store r !! "a" = Some [("x", JNum 2); ("y", JNum 7)].
Proof. vm_compute. reflexivity. Qed.

Example fresh_replaces_document :
  let r := batchWriteToFirestore_v2 allOk oneDoc [rewriteA] "fresh" in
  w_store r !! "a" = Some [("x", JNum 2)].
Proof. vm_compute. reflexivity. Qed.

Example dyn_rejected_commit_counts :
  let env := withCommits allOk (fun _ => false) in
  let r := batchWriteToFirestore_dyn env ∅
             [[("_id", JStr "p1"); ("t", JNum 1)]; [("t", JNum 2)]] true "fresh" in
  w_counts r = {| successCount := -2; errorCount := 2; skippedCount := 0 |}.
Proof. vm_compute. reflexivity. Qed.

End WriterWitnesses.

Module MigrationFacts.
Import Firestore Writer WriterFacts Extract Migration Samples.

(** *** The file-name pattern *)







Example pattern_examples :
  categoryNameOf "prompts_Music.json" = Some "Music" /\
  categoryNameOf "PROMPTS_DualPortrait.JSON" = Some "DualPortrait" /\
  categoryNameOf "prompts_.json" = None /\
  categoryNameOf "promptDetails_Music.json" = None /\
  categoryNameOf "old/prompts_a.json.json" = Some "a.json" /\
  extractCategoryName "promptDetails_Music.json" = Some "Music" /\
  extractCategoryName "pt_category.json" = None.
Proof. repeat split; reflexivity. Qed.

(** *** What a prompt record carries *)

Lemma lookupField_withoutKeys f ks fs :
  inStrings f ks = false ->
  lookupField f (withoutKeys ks fs) = lookupField f fs.
Proof.
  intros Hf. unfold withoutKeys.
  induction fs as [|[k v] rest IH]; simpl; [reflexivity|].
  destruct (inStrings k ks) eqn:Hk; simpl.
  - destruct (String.eqb_spec f k) as [->|Hne]; [congruence|exact IH].
  - now rewrite IH.
Qed.



Lemma emitPrompt_unlinked categoryId item :
  truthy categoryId = false -> emitPrompt categoryId item = emitPlain item.
Proof.
  intros H. unfold emitPrompt, emitPlain, categoryStamp. now rewrite H.
Qed.


(** *** Items without identifier *)

Lemma emit_without_identifier fs categoryId :
  lookupField "_id" fs = None -> lookupField "id" fs = None ->
  emitPlain (JObj fs) = Ok [] /\ emitPrompt categoryId (JObj fs) = Ok [] /\
  hasDocId (JObj fs) = false.
Proof.
  intros H1 H2.
  assert (E : docIdOfItem (JObj fs) = Ok JUndefined).
  { unfold docIdOfItem, getProp, objGet. now rewrite H1, H2. }
  unfold emitPlain, emitPrompt, hasDocId. rewrite E. repeat split.
Qed.

Lemma emitPlain_length item recs :
  emitPlain item = Ok recs ->
  length recs = if hasDocId item then 1%nat else 0%nat.
Proof.
  unfold emitPlain, hasDocId.
  destruct (docIdOfItem item) as [d|e]; simpl; [|discriminate].
  destruct (truthy d); simpl; now intros [= <-].
Qed.

Lemma emitPrompt_length categoryId item recs :
  emitPrompt categoryId item = Ok recs ->
  length recs = if hasDocId item then 1%nat else 0%nat.
Proof.
  unfold emitPrompt, hasDocId.
  destruct (docIdOfItem item) as [d|e]; simpl; [|discriminate].
  destruct (truthy d); simpl; now intros [= <-].
Qed.

Lemma forEachEmit_length emit items recs :
  (forall item r, emit item = Ok r ->
                  length r = if hasDocId item then 1%nat else 0%nat) ->
  forEachEmit emit items = Ok recs ->
  length recs = length (List.filter hasDocId items).
Proof.
  intros Hemit. revert recs.
  induction items as [|item rest IH]; simpl; intros recs.
  - now intros [= <-].
  - destruct (emit item) as [r|e] eqn:E; simpl; [|discriminate].
    destruct (forEachEmit emit rest) as [more|e]; simpl; [|discriminate].
    intros [= <-]. rewrite length_app, (Hemit _ _ E), (IH more eq_refl).
    now destruct (hasDocId item).
Qed.

Lemma collect_length bucket emitFor files recs :
  (forall f item r, emitFor f item = Ok r ->
                    length r = if hasDocId item then 1%nat else 0%nat) ->
  collect bucket emitFor files = Ok recs ->
  exists items, readAll bucket files = Ok items /\
                length recs = length (List.filter hasDocId items).
Proof.
  intros Hemit. revert recs.
  induction files as [|f rest IH]; simpl; intros recs.
  - intros [= <-]. now exists [].
  - destruct (readItems bucket f) as [items|e]; simpl; [|discriminate].
    destruct (forEachEmit (emitFor f) items) as [pushed|e] eqn:E; simpl;
      [|discriminate].
    destruct (collect bucket emitFor rest) as [more|e]; simpl; [|discriminate].
    intros [= <-]. destruct (IH more eq_refl) as (others & -> & Hlen).
    exists (items ++ others). split; [reflexivity|].
    rewrite length_app, List.filter_app, length_app, Hlen.
    now rewrite (forEachEmit_length _ _ _ (Hemit f) E).
Qed.

Lemma v2_counts_total env st recs mode :
  countsTotal (w_counts (batchWriteToFirestore_v2 env st recs mode))
  = Z.of_nat (length recs).
Proof.
  rewrite v2_run. unfold countsTotal.
  pose proof (run_counts_total
                (prepare_v2 env mode (existingFor env st mode))
                (commitOk env) false recs st eq_refl) as T.
  simpl in T. lia.
Qed.

Lemma migration_total env bucket st emitFor files mode r :
  (forall f item rs, emitFor f item = Ok rs ->
                     length rs = if hasDocId item then 1%nat else 0%nat) ->
  match files with
  | [] => Ok (idle st)
  | _ => let! recs := collect bucket emitFor files in
         Ok (batchWriteToFirestore_v2 env st recs mode)
  end = Ok r ->
  exists items, readAll bucket files = Ok items /\
    countsTotal (w_counts r) = Z.of_nat (length (List.filter hasDocId items)).
Proof.
  intros Hemit H.
  assert (H' : (let! recs := collect bucket emitFor files in
                Ok (batchWriteToFirestore_v2 env st recs mode)) = Ok r).
  { destruct files; [|exact H]. simpl in *. exact H. }
  clear H. destruct (collect bucket emitFor files) as [recs|e] eqn:C;
    simpl in H'; [|discriminate].
  injection H' as <-.
  destruct (collect_length _ _ _ _ Hemit C) as (items & Hr & Hlen).
  exists items. split; [exact Hr|]. now rewrite v2_counts_total, Hlen.
Qed.

(** C10. In the v2 migration an item with neither [_id] nor [id] makes
    the [forEach] body of categories, prompts and prompt details push
    nothing; the counters a migration returns add up to the number of
    items that have an identifier, so such an item is in none of them;
    and a run exists whose counters add up to less than the number of
    input items. *)
Theorem C10_items_without_identifier_are_dropped :
  (forall fs categoryId,
     lookupField "_id" fs = None -> lookupField "id" fs = None ->
     emitPlain (JObj fs) = Ok [] /\ emitPrompt categoryId (JObj fs) = Ok [] /\
     hasDocId (JObj fs) = false) /\
  (forall env bucket st files mode r,
     migrateCategories env bucket st files mode = Ok r ->
     exists items, readAll bucket files = Ok items /\
       countsTotal (w_counts r) = Z.of_nat (length (List.filter hasDocId items))) /\
  (forall toLowerCase env bucket st files categoryMapping mode r,
     migratePrompts toLowerCase env bucket st files categoryMapping mode = Ok r ->
     exists items, readAll bucket files = Ok items /\
       countsTotal (w_counts r) = Z.of_nat (length (List.filter hasDocId items))) /\
  (forall env bucket st files mode r,
     migratePromptDetails env bucket st files mode = Ok r ->
     exists items, readAll bucket files = Ok items /\
       countsTotal (w_counts r) = Z.of_nat (length (List.filter hasDocId items))) /\
  (exists r items,
     migrateCategories allOk sampleBucket ∅ ["prompts_Unknown.json"] "update"
     = Ok r /\
     readAll sampleBucket ["prompts_Unknown.json"] = Ok items /\
     (countsTotal (w_counts r) < Z.of_nat (length items))%Z).
Proof.
  split; [intros; now apply emit_without_identifier|].
  split.
  { intros env bucket st files mode r H.
    eapply (migration_total env bucket st (fun _ => emitPlain)); [|exact H].
    intros _ item rs. apply emitPlain_length. }
  split.
  { intros lower env bucket st files mapping mode r H.
    eapply (migration_total env bucket st
              (fun f => emitPrompt (linkCategory lower mapping (categoryNameOf f))));
      [|exact H].
    intros f item rs. apply emitPrompt_length. }
  split.
  { intros env bucket st files mode r H.
    eapply (migration_total env bucket st (fun _ => emitPlain)); [|exact H].
    intros _ item rs. apply emitPlain_length. }
  eexists. eexists. split; [reflexivity|]. split; [reflexivity|].
  vm_compute. reflexivity.
Qed.

End MigrationFacts.

Module MigrationWitnesses.
Import Firestore Writer Migration MigrationFacts Samples.



End MigrationWitnesses.

(** * Further properties of the writers *)

Module WriterRuns.
Import Firestore Writer PathFacts WriterFacts.

Lemma commit_app st ops1 ops2 :
  commit (commit st ops1) ops2 = commit st (ops1 ++ ops2).
Proof. unfold commit. now rewrite foldl_app. Qed.

Lemma dom_applyOp st op : dom (applyOp st op) = {[ op_id op ]} ∪ dom st.
Proof. unfold applyOp. destruct (op_merge op); apply dom_insert_L. Qed.

Lemma dom_commit st ops :
  dom (commit st ops) = dom st ∪ list_to_set (op_id <$> ops).
Proof.
  revert st. unfold commit. induction ops as [|op ops IH]; intros st.
  - rewrite fmap_nil, list_to_set_nil. simpl. now rewrite (right_id_L ∅ union).
  - rewrite fmap_cons, list_to_set_cons. simpl. rewrite IH, dom_applyOp.
    now rewrite (comm_L union {[op_id op]} (dom st)), <- (assoc_L union).
Qed.

Lemma countOf_nonneg f ps : (0 <= countOf f ps)%Z.
Proof. unfold countOf. lia. Qed.

Lemma opsIn_nonneg {A} (sel : BatchEvent A -> bool) log : (0 <= opsIn sel log)%Z.
Proof.
  unfold opsIn. induction log as [|ev log IH]; [reflexivity|].
  rewrite sumZ_cons. destruct (sel ev); lia.
Qed.

Lemma opsIn_rejected_none {A} (log : list (BatchEvent A)) :
  Forall (fun ev => ev_outcome ev <> Rejected) log -> opsIn rejected log = 0%Z.
Proof.
  unfold opsIn. induction 1 as [|ev log H _ IH]; [reflexivity|].
  rewrite sumZ_cons, IH. unfold rejected.
  destruct (ev_outcome ev); try reflexivity. congruence.
Qed.

Section AllCommitted.
Context {A : Type}.
Variable prep : A -> Prepared.
Variable commitSucceeds : nat -> bool.
Variable dec : bool.
Variable items : list A.
Hypothesis always : forall k, commitSucceeds k = true.

Lemma no_rejection st :
  Forall (fun ev => ev_outcome ev <> Rejected)
         (w_log (runWriter prep commitSucceeds dec items st)).
Proof.
  destruct (run_contract prep commitSucceeds dec items st)
    as (_ & _ & _ & _ & H & _).
  eapply Forall_impl; [exact H|]. intros ev (_ & _ & Hn & Hout).
  destruct (ev_ops ev) as [|op ops] eqn:E.
  - rewrite (proj2 Hn eq_refl). discriminate.
  - rewrite Hout by discriminate. rewrite always. discriminate.
Qed.

Lemma fold_all_applied (evs : list (BatchEvent A)) st :
  Forall (fun ev => ev_outcome ev <> Rejected) evs ->
  Forall (fun ev => ev_outcome ev = NotIssued -> ev_ops ev = []) evs ->
  foldl (applyEvent (A:=A)) st evs = commit st (concat (ev_ops <$> evs)).
Proof.
  intros H1 H2. revert st.
  induction H1 as [|ev evs Hev _ IH]; intros st; [reflexivity|].
  inversion H2 as [|? ? Hn H2']; subst.
  rewrite fmap_cons.
  change (concat (ev_ops ev :: (ev_ops <$> evs)))
    with (ev_ops ev ++ concat (ev_ops <$> evs)).
  rewrite <- commit_app. simpl. rewrite IH by exact H2'. f_equal.
  unfold applyEvent. destruct (ev_outcome ev) eqn:E; try reflexivity.
  - now rewrite (Hn eq_refl).
  - congruence.
Qed.

(** When no commit is rejected, the run leaves the store that the queued
    writes produce one after the other. *)
Lemma run_all_committed st :
  w_store (runWriter prep commitSucceeds dec items st)
  = commit st (opsOf (map prep items)).
Proof.
  rewrite run_store, fold_all_applied.
  - rewrite run_log. now rewrite ops_over_chunks.
  - apply no_rejection.
  - eapply Forall_impl; [apply log_not_issued_iff|]. intros ev H. apply H.
Qed.

End AllCommitted.

(** A plain write of a key is followed, at that key, by the data of a
    write of the batch. *)
Lemma commit_plain_present st ops op :
  Forall (fun o => op_merge o = false) ops -> op ∈ ops ->
  exists op', op' ∈ ops /\ op_id op' = op_id op /\
              commit st ops !! op_id op = Some (op_data op').
Proof.
  intros Hplain. revert st.
  induction Hplain as [|o ops Ho Hrest IH]; intros st Hin.
  - now apply not_elem_of_nil in Hin.
  - apply elem_of_cons in Hin as [->|Hin].
    + change (commit st (o :: ops)) with (commit (applyOp st o) ops).
      apply (commit_inv (op_id o)
               (fun v => exists op', op' ∈ o :: ops /\ op_id op' = op_id o /\
                                     v = Some (op_data op'))
               (fun x => x ∈ ops /\ op_merge x = false)).
      * intros x v [Hx Hm] Hid _. exists x.
        split; [now apply list_elem_of_further|]. split; [exact Hid|].
        unfold written. now rewrite Hm.
      * apply Forall_forall. intros x Hx. split; [exact Hx|].
        rewrite Forall_forall in Hrest. now apply Hrest.
      * exists o. split; [apply list_elem_of_here|]. split; [reflexivity|].
        rewrite applyOp_lookup. destruct (decide (op_id o = op_id o));
          [|congruence]. unfold written. now rewrite Ho.
    + destruct (IH (applyOp st o) Hin) as (op' & H1 & H2 & H3).
      exists op'. split; [now apply list_elem_of_further|]. auto.
Qed.

Lemma opsOf_elem {A} (prep : A -> Prepared) items op :
  op ∈ opsOf (map prep items) <-> exists x, x ∈ items /\ prep x = Queued op.
Proof.
  unfold opsOf. rewrite list_elem_of_omap. split.
  - intros (p & Hp & Hq).
    change (map prep items) with (prep <$> items) in Hp.
    apply list_elem_of_fmap in Hp as (x & -> & Hx).
    exists x. split; [exact Hx|]. destruct (prep x); simpl in Hq; congruence.
  - intros (x & Hx & Hq). exists (Queued op). split; [|reflexivity].
    rewrite <- Hq. change (map prep items) with (prep <$> items).
    apply list_elem_of_fmap. eauto.
Qed.

(** X1. The three counters that the v2 writer returns are never negative
    and add up to the number of records it was given, whatever the mode,
    the store and the outcome of the scan and of the commits. *)
Theorem X1_v2_counters_account_for_every_record (env : Env)
    (st : gmap string Fields) (items : list WriteItem) (mode : string) :
  let c := w_counts (batchWriteToFirestore_v2 env st items mode) in
  (0 <= successCount c /\ 0 <= errorCount c /\ 0 <= skippedCount c /\
   successCount c + errorCount c + skippedCount c = Z.of_nat (length items))%Z.
Proof.
  intros c. unfold c. rewrite v2_run.
  set (prep := prepare_v2 env mode (existingFor env st mode)).
  destruct (run_counts prep (commitOk env) false items st) as (E1 & E2 & E3 & E4).
  pose proof (outcomes_partition (map prep items)) as P.
  rewrite length_map in P.
  pose proof (countOf_nonneg isSkipped (map prep items)).
  pose proof (countOf_nonneg isFailed (map prep items)).
  pose proof (opsIn_nonneg committed
                (w_log (runWriter prep (commitOk env) false items st))).
  pose proof (opsIn_nonneg rejected
                (w_log (runWriter prep (commitOk env) false items st))).
  rewrite E1, E2, E3. lia.
Qed.

(** X2. In the dynamic writer a rejected commit adds its writes to the
    error counter and also subtracts them from the success counter, which
    never had them: the three counters add up to the number of records
    minus the writes lost in rejected commits, and the success counter is
    the committed writes minus the lost ones. *)
Theorem X2_dyn_counters_lose_rejected_writes (env : Env)
    (st : gmap string Fields) (items : list Fields) (useIdField : bool)
    (mode : string) :
  let r := batchWriteToFirestore_dyn env st items useIdField mode in
  let lost := opsIn rejected (w_log r) in
  (successCount (w_counts r) = opsIn committed (w_log r) - lost /\
   successCount (w_counts r) + errorCount (w_counts r) + skippedCount (w_counts r)
   = Z.of_nat (length items) - lost /\
   0 <= lost /\
   ((forall k, commitOk env k = true) -> lost = 0))%Z.
Proof.
  intros r lost. unfold lost, r. rewrite dyn_run.
  set (prep := prepare_dyn env useIdField mode (existingFor env st mode)).
  destruct (run_counts prep (commitOk env) true (withPositions items) st)
    as (E1 & E2 & E3 & E4).
  pose proof (outcomes_partition (map prep (withPositions items))) as P.
  rewrite length_map, withPositions_length in P.
  rewrite E1, E2, E3.
  split; [reflexivity|]. split; [lia|]. split; [apply opsIn_nonneg|].
  intros Hall. apply opsIn_rejected_none. now apply no_rejection.
Qed.

(** X3. An update run whose scan and commits succeed, over records whose
    keys are plain ids (a single path segment, the only keys that the key
    scan lists), is idempotent: the same records handed to a second update
    run queue no write, no commit is issued, nothing succeeds and the store
    stays as the first run left it. *)
Theorem X3_update_twice_writes_nothing (env : Env) (st : gmap string Fields)
    (items : list WriteItem) :
  scanOk env = true -> (forall k, commitOk env k = true) ->
  Forall (fun it => plainDocId (docId it) = true) items ->
  let r1 := batchWriteToFirestore_v2 env st items "update" in
  let r2 := batchWriteToFirestore_v2 env (w_store r1) items "update" in
  w_store r2 = w_store r1 /\
  Forall (fun ev => ev_ops ev = [] /\ ev_outcome ev = NotIssued) (w_log r2) /\
  successCount (w_counts r2) = 0%Z.
Proof.
  intros Hscan Hcommit Hplain r1 r2.
  rewrite Forall_forall in Hplain.
  assert (Hex : forall s, existingFor env s "update" = collectionIds s).
  { intros s. unfold existingFor, getExistingDocIds. simpl. now rewrite Hscan. }
  assert (S1 : w_store r1
               = commit st (opsOf (map (prepare_v2 env "update" (collectionIds st))
                                       items))).
  { unfold r1. rewrite v2_run, Hex. now apply run_all_committed. }
  set (prep2 := prepare_v2 env "update" (collectionIds (w_store r1))).
  assert (None2 : forall x op, x ∈ items -> prep2 x <> Queued op).
  { intros x op Hx Hq.
    destruct (prepare_v2_update_queued _ _ _ _ (Hplain x Hx) Hq) as [Hns Hnot].
    apply Hnot. apply elem_of_collectionIds. split; [exact Hns|].
    assert (Hop : op_id op ∈ dom st \/
                  prepare_v2 env "update" (collectionIds st) x
                  = Queued {| op_id := op_id op; op_data := data x;
                              op_merge := false |}).
    { revert Hq. unfold prep2, prepare_v2. simpl.
      destruct (truthy (docId x)
                && setHas (collectionIds (w_store r1)) (docId x));
        [discriminate|].
      destruct (docRef env (docId x)) as [id|] eqn:R; [|discriminate].
      destruct (docDataOk env (data x)); [|discriminate].
      intros [= <-]. simpl.
      destruct (truthy (docId x) && setHas (collectionIds st) (docId x)) eqn:E;
        [|now right].
      left. apply (docRef_plainId env _ _ (Hplain x Hx)) in R. rewrite R in E.
      apply andb_true_iff in E as [_ E]. simpl in E.
      apply bool_decide_eq_true in E.
      now apply elem_of_collectionIds in E as [_ E]. }
    rewrite S1, dom_commit.
    destruct Hop as [Hop|Hop]; [now apply elem_of_union_l|].
    apply elem_of_union_r. apply elem_of_list_to_set.
    apply list_elem_of_fmap.
    exists {| op_id := op_id op; op_data := data x; op_merge := false |}.
    split; [reflexivity|]. apply opsOf_elem. eauto. }
  assert (Empty2 : opsOf (map prep2 items) = []).
  { destruct (opsOf (map prep2 items)) as [|op ops] eqn:E; [reflexivity|].
    assert (Hin : op ∈ opsOf (map prep2 items))
      by (rewrite E; apply list_elem_of_here).
    apply opsOf_elem in Hin as (x & Hx & Hq). now apply None2 in Hq. }
  assert (R2 : r2 = runWriter prep2 (commitOk env) false items (w_store r1)).
  { unfold r2. now rewrite v2_run, Hex. }
  rewrite R2. split; [|split].
  - rewrite run_all_committed by exact Hcommit. now rewrite Empty2.
  - pose proof (log_ops_from_data prep2 (commitOk env) false items (w_store r1))
      as Hfrom.
    pose proof (log_not_issued_iff prep2 (commitOk env) false items (w_store r1))
      as Hiff.
    rewrite Forall_forall in Hfrom, Hiff. apply Forall_forall. intros ev Hev.
    assert (Hnil : ev_ops ev = []).
    { destruct (ev_ops ev) as [|op ops] eqn:E; [reflexivity|].
      specialize (Hfrom ev Hev). rewrite E in Hfrom.
      inversion Hfrom as [|? ? (x & Hx & Hq) _]; subst.
      now apply None2 in Hq. }
    split; [exact Hnil|]. now apply Hiff.
  - destruct (run_counts prep2 (commitOk env) false items (w_store r1))
      as (_ & _ & E3 & E4).
    rewrite E3. rewrite Empty2 in E4. simpl in E4.
    pose proof (opsIn_nonneg committed
                  (w_log (runWriter prep2 (commitOk env) false items (w_store r1)))).
    pose proof (opsIn_nonneg rejected
                  (w_log (runWriter prep2 (commitOk env) false items (w_store r1)))).
    lia.
Qed.

(** A fresh run whose commits all succeed leaves, for every accepted
    record, a document at the path its key addresses, holding the data of
    a record of the run whose key addresses that path. *)
Lemma fresh_run_present (env : Env) (st : gmap string Fields)
    (items : list WriteItem) (it : WriteItem) (id : string) :
  (forall k, commitOk env k = true) ->
  it ∈ items -> docRef env (docId it) = Some id ->
  docDataOk env (data it) = true ->
  exists it', it' ∈ items /\ docRef env (docId it') = Some id /\
              w_store (batchWriteToFirestore_v2 env st items "fresh") !! id
              = Some (data it').
Proof.
  intros Hcommit Hit Hr Hd.
  assert (Hex : existingFor env st "fresh" = ∅) by reflexivity.
  set (prep := prepare_v2 env "fresh" ∅).
  assert (Hq : forall x op, prep x = Queued op ->
                 docRef env (docId x) = Some (op_id op) /\
                 op_data op = data x /\ op_merge op = false).
  { intros x op H.
    now apply (prepare_v2_plain_queued env "fresh" ∅ x op eq_refl) in H. }
  rewrite v2_run, Hex. fold prep.
  rewrite run_all_committed by exact Hcommit.
  set (op := {| op_id := id; op_data := data it; op_merge := false |}).
  assert (Hop : op ∈ opsOf (map prep items)).
  { apply opsOf_elem. exists it. split; [exact Hit|].
    unfold prep. rewrite prepare_v2_plain by reflexivity. now rewrite Hr, Hd. }
  destruct (commit_plain_present st (opsOf (map prep items)) op)
    as (op' & Hin & Hid & Hlook); [|exact Hop|].
  - apply Forall_forall. intros o Ho. apply opsOf_elem in Ho as (x & _ & Hx).
    now apply Hq in Hx.
  - apply opsOf_elem in Hin as (x & Hx & Hpx).
    destruct (Hq x op' Hpx) as (Hk & Hdata & _).
    exists x. split; [exact Hx|]. split; [now rewrite Hk, Hid|].
    now rewrite <- Hdata.
Qed.

(** X4. After a fresh run whose commits all succeed, every record that
    the SDK accepts has a document at the path its key addresses, holding
    exactly the data of a record of the run whose key addresses that path
    (for a key that is a plain id, the path is the key); a path that no
    record addresses keeps the document it had, or none. *)
Theorem X4_fresh_run_leaves_every_record (env : Env) (st : gmap string Fields)
    (items : list WriteItem) :
  (forall k, commitOk env k = true) ->
  let r := batchWriteToFirestore_v2 env st items "fresh" in
  (forall it id,
     it ∈ items -> docRef env (docId it) = Some id ->
     docDataOk env (data it) = true ->
     exists it', it' ∈ items /\ docRef env (docId it') = Some id /\
                 w_store r !! id = Some (data it')) /\
  (forall it id,
     plainDocId (docId it) = true -> docRef env (docId it) = Some id ->
     docId it = JStr id) /\
  (forall key,
     (forall it, it ∈ items -> docRef env (docId it) <> Some key) ->
     w_store r !! key = st !! key).
Proof.
  intros Hcommit r. split; [|split].
  - intros it id Hit Hr Hd.
    exact (fresh_run_present env st items it id Hcommit Hit Hr Hd).
  - intros it id. apply docRef_plainId.
  - intros key Hnone. unfold r. rewrite v2_run.
    set (prep := prepare_v2 env "fresh" (existingFor env st "fresh")).
    apply (run_store_inv prep (commitOk env) false items key
             (fun o => o = st !! key)); [|reflexivity].
    intros x op o Hx Hpx Hid _. exfalso.
    apply (prepare_v2_plain_queued env "fresh"
             (existingFor env st "fresh") x op eq_refl) in Hpx as (Hk & _).
    apply (Hnone x Hx). now rewrite Hk, Hid.
Qed.

End WriterRuns.

Module WriterRunsWitnesses.
Import Firestore Writer WriterFacts WriterRuns Samples.

Lemma X3_witness :
  let r1 := batchWriteToFirestore_v2 allOk oneDoc [rewriteA; newB] "update" in
  let r2 := batchWriteToFirestore_v2 allOk (w_store r1) [rewriteA; newB] "update" in
  w_store r2 = w_store r1 /\ successCount (w_counts r2) = 0%Z.
Proof.
  destruct (X3_update_twice_writes_nothing allOk oneDoc [rewriteA; newB]
              eq_refl (fun _ => eq_refl)) as (H1 & _ & H3).
  - repeat constructor.
  - split; assumption.
Defined.

(** Without the restriction to plain ids the second run writes again: the
    record with the key [a/b/c] goes to a sub-collection, which the key
    scan does not list. *)
Example update_twice_nested_key_written_again :
  let items := [newB; {| docId := JStr "a/b/c"; data := [("x", JNum 4)] |}] in
  let r1 := batchWriteToFirestore_v2 allOk oneDoc items "update" in
  let r2 := batchWriteToFirestore_v2 allOk (w_store r1) items "update" in
  w_counts r1 = {| successCount := 2; errorCount := 0; skippedCount := 0 |} /\
  w_counts r2 = {| successCount := 1; errorCount := 0; skippedCount := 1 |} /\
  length (List.filter issued (w_log r2)) = 1%nat.
Proof. vm_compute. repeat split. Qed.

Lemma X4_witness :
  exists it',
    it' ∈ [rewriteA; newB] /\ docRef allOk (docId it') = Some "b" /\
    w_store (batchWriteToFirestore_v2 allOk oneDoc [rewriteA; newB] "fresh")
      !! "b" = Some (data it').
Proof.
  destruct (X4_fresh_run_leaves_every_record allOk oneDoc [rewriteA; newB]
              (fun _ => eq_refl)) as [H _].
  apply (H newB "b"); [|reflexivity|reflexivity].
  apply list_elem_of_further, list_elem_of_here.
Defined.

Example dyn_success_counter_negative :
  let env := withCommits allOk (fun _ => false) in
  let r := batchWriteToFirestore_dyn env ∅
             [[("_id", JStr "p1")]; [("_id", JStr "p2")]] true "fresh" in
  successCount (w_counts r) = (-2)%Z /\ errorCount (w_counts r) = 2%Z.
Proof. vm_compute. split; reflexivity. Qed.

End WriterRunsWitnesses.

(** * The mode argument of the writers *)

Module ModeFacts.
Import Firestore Writer WriterFacts.

Lemma mode_is_fresh mode :
  mode <> "update" -> mode <> "force" ->
  String.eqb mode "update" = false /\ String.eqb mode "force" = false.
Proof.
  intros H1 H2. split; apply String.eqb_neq; assumption.
Qed.

(** X5. A mode string other than ["update"] and ["force"] (["auto"], a
    misspelling, the empty string) makes both writers behave exactly as
    in ["fresh"] mode: nothing is skipped and every write replaces. *)
Theorem X5_unknown_mode_is_fresh (env : Env) (st : gmap string Fields)
    (mode : string) :
  mode <> "update" -> mode <> "force" ->
  (forall items,
     batchWriteToFirestore_v2 env st items mode
     = batchWriteToFirestore_v2 env st items "fresh") /\
  (forall items useIdField,
     batchWriteToFirestore_dyn env st items useIdField mode
     = batchWriteToFirestore_dyn env st items useIdField "fresh").
Proof.
  intros H1 H2. destruct (mode_is_fresh mode H1 H2) as [E1 E2].
  split.
  - intros items. unfold batchWriteToFirestore_v2, existingFor, runWriter.
    destruct items as [|x items]; [reflexivity|].
    rewrite E1. change (String.eqb "fresh" "update") with false. cbv iota.
    apply writeLoop_ext. intros y. unfold prepare_v2.
    rewrite E1, E2. reflexivity.
  - intros items useIdField.
    unfold batchWriteToFirestore_dyn, existingFor, runWriter.
    destruct items as [|x items]; [reflexivity|].
    rewrite E1. change (String.eqb "fresh" "update") with false. cbv iota.
    apply writeLoop_ext. intros [j y]. unfold prepare_dyn.
    rewrite E1, E2. reflexivity.
Qed.

Lemma X5_witness :
  batchWriteToFirestore_v2 Samples.allOk Samples.oneDoc
    [Samples.rewriteA; Samples.newB] "auto"
  = batchWriteToFirestore_v2 Samples.allOk Samples.oneDoc
      [Samples.rewriteA; Samples.newB] "fresh".
Proof.
  destruct (X5_unknown_mode_is_fresh Samples.allOk Samples.oneDoc "auto")
    as [H _]; [discriminate|discriminate|].
  apply H.
Defined.

End ModeFacts.

(** * Pages of the storage-backed API *)

Module PagingFacts.
Import Pagination PaginationFacts.
Local Open Scope Z_scope.

(** Consecutive chunks of [l] items cover a list. *)
Lemma concat_chunks {A} (l : nat) (arr : list A) (m : nat) :
  (0 < l)%nat -> (length arr <= m * l)%nat ->
  concat (map (fun k => take l (drop (k * l) arr)) (seq 0 m)) = arr.
Proof.
  intros Hl. revert arr.
  induction m as [|m IH]; intros arr Hlen.
  - destruct arr; [reflexivity|simpl in Hlen; lia].
  - change (seq 0 (S m)) with (0%nat :: seq 1 m).
    rewrite <- (fmap_S_seq 0 m).
    change (map ?f (0%nat :: ?t)) with (f 0%nat :: map f t).
    change (concat (?x :: ?t)) with (x ++ concat t).
    change (S <$> seq 0 m) with (map S (seq 0 m)).
    rewrite map_map.
    transitivity (take l arr ++ drop l arr); [|apply take_drop].
    f_equal.
    transitivity
      (concat (map (fun k => take l (drop (k * l) (drop l arr))) (seq 0 m)));
      [|apply IH; rewrite length_drop; lia].
    f_equal. apply map_ext. intros k.
    rewrite drop_drop. do 2 f_equal; lia.
Qed.

(** X6. The size of the page that [paginate] answers with: the limit on
    every page before the last, what remains on the last, nothing beyond
    it; and the page count is zero exactly for an empty array. *)
Theorem X6_page_sizes (A : Type) (arr : list A) (pageArg limitArg : QueryVal) :
  let r := paginate arr pageArg limitArg in
  Z.of_nat (length (data r))
  = Z.max 0 (Z.min (limit r) (total r - (page r - 1) * limit r)) /\
  (data r = [] <-> totalPages r < page r) /\
  (page r < totalPages r -> Z.of_nat (length (data r)) = limit r) /\
  (totalPages r = 0 <-> arr = []).
Proof.
  intros r.
  destruct (paginate_facts arr pageArg limitArg)
    as (E1 & E2 & E3 & E4 & D & _).
  fold r in E1, E2, E3, E4, D.
  pose proof (sanitizePage_ge_1 pageArg) as Hp.
  pose proof (sanitizeLimit_range limitArg) as Hl.
  rewrite <- E1 in Hp. rewrite <- E2 in Hl.
  rewrite <- E1, <- E2 in D.
  assert (L : Z.of_nat (length (data r))
              = Z.max 0 (Z.min (limit r) (total r - (page r - 1) * limit r))).
  { rewrite D, length_take, length_drop, E3. nia. }
  split; [exact L|]. split; [|split].
  - split.
    + intros H. rewrite H in L. simpl in L. nia.
    + intros H. apply length_zero_iff_nil. nia.
  - intros H. nia.
  - split.
    + intros H. apply length_zero_iff_nil. nia.
    + intros Harr. rewrite Harr in E3. change (total r = 0) in E3.
      assert (totalPages r - 1 < 0) by nia. nia.
Qed.

(** X7. The pages of an array, taken in order from page 1 to the last
    one with the same limit, are consecutive pieces of it: put end to end
    they give the array back. *)
Theorem X7_pages_partition_the_array (A : Type) (arr : list A)
    (limitArg : QueryVal) (pageArgs : nat -> QueryVal) :
  let pages := Z.to_nat (ceilDiv (Z.of_nat (length arr)) (sanitizeLimit limitArg)) in
  (forall k, (k < pages)%nat -> sanitizePage (pageArgs k) = Z.of_nat (S k)) ->
  Forall (fun k => totalPages (paginate arr (pageArgs k) limitArg) = Z.of_nat pages)
         (seq 0 pages) /\
  concat (map (fun k => data (paginate arr (pageArgs k) limitArg)) (seq 0 pages))
  = arr.
Proof.
  intros pages Hargs.
  pose proof (sanitizeLimit_range limitArg) as Hl.
  set (l := sanitizeLimit limitArg) in *.
  pose proof (ceilDiv_spec (Z.of_nat (length arr)) l ltac:(lia)) as Hc.
  assert (Hpages : Z.of_nat pages = ceilDiv (Z.of_nat (length arr)) l).
  { unfold pages. rewrite Z2Nat.id; [reflexivity|]. nia. }
  split.
  - apply Forall_forall. intros k _. now rewrite Hpages.
  - transitivity
      (concat (map (fun k => take (Z.to_nat l) (drop (k * Z.to_nat l) arr))
                   (seq 0 pages)));
      [|apply concat_chunks; nia].
    f_equal. apply map_ext_in. intros k Hk. apply in_seq in Hk.
    destruct (paginate_facts arr (pageArgs k) limitArg) as (_ & _ & _ & _ & D & _).
    rewrite D. fold l. rewrite (Hargs k) by lia.
    do 2 f_equal. nia.
Qed.

Lemma X7_witness :
  let pageArgs := fun k : nat =>
    match k with O => QStr "1" | 1%nat => QStr "2" | _ => QStr "3" end in
  concat (map (fun k => data (paginate Samples.prompts25 (pageArgs k) (QStr "10")))
              (seq 0 3))
  = Samples.prompts25.
Proof.
  intros pageArgs.
  destruct (X7_pages_partition_the_array JsVal Samples.prompts25 (QStr "10") pageArgs)
    as [_ H].
  - intros k Hk. change (k < 3)%nat in Hk.
    destruct k as [|[|[|k]]]; [reflexivity|reflexivity|reflexivity|lia].
  - exact H.
Defined.

End PagingFacts.

(** * Answers of the read APIs *)

Module HandlerFacts.
Import Pagination Api Answers ApiFacts.
Local Open Scope Z_scope.










Lemma fetchValidConfig_valid storage config :
  fetchValidConfig storage = Ok config -> validConfig config.
Proof.
  unfold fetchValidConfig.
  destruct (storage (JStr "config.json")) as [c|e]; cbn [bind]; [|discriminate].
  destruct (getProp c "categoryMap") as [m|] eqn:Em; [|discriminate].
  destruct (getProp c "promptDetailsFiles") as [f|] eqn:Ef; [|discriminate].
  destruct (truthy m) eqn:Tm; [|discriminate].
  destruct (truthy f) eqn:Tf; [|discriminate].
  cbn. intros [= <-]. now exists m, f.
Qed.

Lemma cache_valid st :
  reachable st -> configCache st = JNull \/ validConfig (configCache st).
Proof.
  induction 1 as [|st now storage _ IH Hn]; [now left|].
  unfold getConfig.
  destruct (truthy (configCache st) && _); [exact IH|].
  destruct (fetchValidConfig storage) as [c|e] eqn:F.
  - right. cbn. now apply fetchValidConfig_valid in F.
  - destruct (truthy (configCache st)); exact IH.
Qed.

(** X9. From any cache state that calls of [getConfig] can leave, the
    configuration that [getConfig] returns, fresh, cached or stale, has
    passed the validation: it has a truthy [categoryMap] and a truthy
    [promptDetailsFiles]. *)
Theorem X9_served_config_is_validated (st : ConfigState) (now : Z)
    (storage : Storage) (config : JsVal) :
  reachable st ->
  snd (fst (getConfig st now storage)) = Ok config ->
  validConfig config.
Proof.
  intros R. pose proof (cache_valid st R) as V. unfold getConfig.
  destruct (truthy (configCache st) && _) eqn:Fresh.
  - cbn. intros [= <-]. destruct V as [N|V]; [|exact V].
    rewrite N in Fresh. discriminate.
  - destruct (fetchValidConfig storage) as [c|e] eqn:F.
    + cbn. intros [= <-]. now apply fetchValidConfig_valid in F.
    + destruct (truthy (configCache st)) eqn:T; cbn; [|discriminate].
      intros [= <-]. destruct V as [N|V]; [|exact V].
      rewrite N in T. discriminate.
Qed.

Lemma X9_witness : validConfig Samples.sampleConfig.
Proof.
  apply (X9_served_config_is_validated Samples.warmState 400000
           Samples.brokenStorage).
  - apply (reach_call initialConfigState 1000 Samples.sampleStorage);
      [apply reach_init|reflexivity].
  - reflexivity.
Defined.

Lemma findById_sound _id entries item :
  findById _id entries = Ok (Some item) ->
  item ∈ entries /\ getProp item "_id" = Some (JStr _id).
Proof.
  induction entries as [|entry rest IH]; simpl; [discriminate|].
  destruct (getProp entry "_id") as [v|] eqn:G; [|discriminate].
  assert (Hrest : findById _id rest = Ok (Some item) ->
                  item ∈ entry :: rest /\ getProp item "_id" = Some (JStr _id)).
  { intros H. destruct (IH H). split; [now apply list_elem_of_further|assumption]. }
  destruct v as [| |b|n|s|l|fs| |nm]; try exact Hrest.
  destruct (String.eqb_spec s _id) as [->|Hne]; [|exact Hrest].
  intros [= <-]. split; [apply list_elem_of_here|exact G].
Qed.

Lemma searchDetailFiles_sound storage _id files item :
  searchDetailFiles storage _id files = Some item ->
  exists fileName entries,
    fileName ∈ files /\ storage fileName = Ok (JArr entries) /\
    item ∈ entries /\ getProp item "_id" = Some (JStr _id).
Proof.
  induction files as [|fileName rest IH]; simpl; [discriminate|].
  assert (Hrest : searchDetailFiles storage _id rest = Some item ->
            exists fileName0 entries,
              fileName0 ∈ fileName :: rest /\
              storage fileName0 = Ok (JArr entries) /\
              item ∈ entries /\ getProp item "_id" = Some (JStr _id)).
  { intros H. destruct (IH H) as (f & es & Hf & Hrest).
    exists f, es. split; [now apply list_elem_of_further|exact Hrest]. }
  destruct (storage fileName) as [fileData|e] eqn:S; [|exact Hrest].
  destruct fileData as [| |b|n|s|entries|fs| |nm]; try exact Hrest.
  destruct (findById _id entries) as [[found|]|e] eqn:F; try exact Hrest.
  destruct (truthy found); [|exact Hrest].
  intros [= <-]. apply findById_sound in F as [Hin Hid].
  exists fileName, entries. split; [apply list_elem_of_here|]. now split.
Qed.

(** X10. When [/getPromptDetails] of the storage-backed API answers 200,
    the request carried a non-empty string [_id], and the [data] of the
    answer is an entry whose [_id] is that string, taken from an array
    stored in one of the files that the configuration in use lists under
    [promptDetailsFiles]. *)
Theorem X10_prompt_details_answer_is_the_entry_asked_for (st : ConfigState)
    (now : Z) (storage : Storage) (req : Request) :
  status (snd (getPromptDetails st now storage req)) = 200 ->
  exists idStr item config filesVal files fileName entries,
    getProp (reqBody req) "_id" = Some (JStr idStr) /\ idStr <> "" /\
    body (snd (getPromptDetails st now storage req))
    = JObj [("success", JBool true);
            ("message", JStr "Prompt details fetched successfully");
            ("data", item)] /\
    getProp item "_id" = Some (JStr idStr) /\
    snd (fst (getConfig st now storage)) = Ok config /\
    getProp config "promptDetailsFiles" = Some filesVal /\
    iterate filesVal = Ok files /\
    fileName ∈ files /\
    storage fileName = Ok (JArr entries) /\
    item ∈ entries.
Proof.
  unfold getPromptDetails.
  destruct (getProp (reqBody req) "_id") as [id|]; [|discriminate].
  destruct id as [| |b|n|idStr|l|fs| |nm]; try discriminate.
  destruct (String.eqb_spec idStr "") as [->|Hne]; [discriminate|].
  destruct (getConfig st now storage) as [[st' cfg] ev].
  destruct cfg as [config|e]; cbn [bind]; [|discriminate].
  destruct (getProp config "promptDetailsFiles") as [filesVal|] eqn:G;
    cbn [bind]; [|discriminate].
  destruct (iterate filesVal) as [files|e] eqn:I; cbn [bind]; [|discriminate].
  destruct (searchDetailFiles storage idStr files) as [item|] eqn:S;
    [|discriminate].
  intros _. apply searchDetailFiles_sound in S as (f & es & Hf & Hs & Hin & Hid).
  exists idStr, item, config, filesVal, files, f, es.
  repeat split; assumption.
Qed.

Lemma X10_witness :
  exists item,
    body (snd (getPromptDetails initialConfigState 1000
                 MoreSamples.detailStorage (MoreSamples.detailRequest "d3")))
    = JObj [("success", JBool true);
            ("message", JStr "Prompt details fetched successfully");
            ("data", item)] /\
    getProp item "_id" = Some (JStr "d3").
Proof.
  destruct (X10_prompt_details_answer_is_the_entry_asked_for
              initialConfigState 1000 MoreSamples.detailStorage
              (MoreSamples.detailRequest "d3") eq_refl)
    as (idStr & item & config & filesVal & files & f & es &
        Hid & _ & Hb & Hi & _).
  exists item. split; [exact Hb|].
  injection Hid as <-. exact Hi.
Defined.

(** An entry that follows a [null] entry in its file is not found: reading
    [_id] from [null] raises, and the file is passed over. *)
Example entry_behind_null_is_not_found :
  status (snd (getPromptDetails initialConfigState 1000
                 MoreSamples.detailStorage (MoreSamples.detailRequest "d2")))
  = 404 /\
  status (snd (getPromptDetails initialConfigState 1000
                 MoreSamples.detailStorage (MoreSamples.detailRequest "d1")))
  = 200.
Proof. split; reflexivity. Qed.

End HandlerFacts.

(** * The two versions of the storage reader *)

Module ReaderFacts.
Import Extract ExtractFacts.

Lemma firstArrayUnder_app fs keys1 keys2 :
  firstArrayUnder fs (keys1 ++ keys2)
  = match firstArrayUnder fs keys1 with
    | Some a => Some a
    | None => firstArrayUnder fs keys2
    end.
Proof.
  induction keys1 as [|k keys1 IH]; simpl; [reflexivity|].
  destruct (isArray (objGet fs k)); [reflexivity|exact IH].
Qed.

Lemma firstArrayUnder_isArray fs keys a :
  firstArrayUnder fs keys = Some a -> isArray a = true.
Proof.
  induction keys as [|k keys IH]; simpl; [discriminate|].
  destruct (isArray (objGet fs k)) eqn:E; [|exact IH].
  now intros [= <-].
Qed.

Lemma extract_isArray pk data fileName a :
  extractArrayFromJSON pk data fileName = Ok a -> isArray a = true.
Proof.
  unfold extractArrayFromJSON.
  destruct (isArray data) eqn:E; [now intros [= <-]|].
  destruct data as [| | | | | |fs| |]; try discriminate.
  destruct (firstArrayUnder fs pk) as [x|] eqn:E1.
  - intros [= <-]. eapply firstArrayUnder_isArray; eauto.
  - destruct (firstArrayUnder fs (objectKeys fs)) as [x|] eqn:E2;
      [|discriminate].
    intros [= <-]. eapply firstArrayUnder_isArray; eauto.
Qed.

(** X11. What either version of [extractArrayFromJSON] returns is an
    array; and the two versions return the same on every value, except on
    an object that holds no array under the seven keys they share and
    holds one under [records]: there the dynamic script returns the array
    under [records], whatever the order of the properties. *)
Theorem X11_readers_agree_unless_records (data : JsVal) (fileName : string) :
  (forall a, extractArrayFromJSON_v2 data fileName = Ok a -> isArray a = true) /\
  (forall a, extractArrayFromJSON_dyn data fileName = Ok a -> isArray a = true) /\
  (extractArrayFromJSON_v2 data fileName = extractArrayFromJSON_dyn data fileName \/
   exists fs,
     data = JObj fs /\
     firstArrayUnder fs possibleKeys_v2 = None /\
     isArray (objGet fs "records") = true /\
     extractArrayFromJSON_dyn data fileName = Ok (objGet fs "records") /\
     exists k, In k (objectKeys fs) /\
               extractArrayFromJSON_v2 data fileName = Ok (objGet fs k)).
Proof.
  split; [intros a; apply extract_isArray|].
  split; [intros a; apply extract_isArray|].
  unfold extractArrayFromJSON_v2, extractArrayFromJSON_dyn, extractArrayFromJSON.
  destruct data as [| | | | | |fs| |]; try (left; reflexivity).
  cbn [isArray].
  change possibleKeys_dyn with (possibleKeys_v2 ++ ["records"]).
  rewrite firstArrayUnder_app.
  destruct (firstArrayUnder fs possibleKeys_v2) as [a|] eqn:E1;
    [left; reflexivity|].
  cbn [firstArrayUnder].
  destruct (isArray (objGet fs "records")) eqn:R; [|left; reflexivity].
  right. exists fs.
  split; [reflexivity|]. split; [exact E1|]. split; [exact R|].
  split; [reflexivity|].
  destruct (firstArrayUnder fs (objectKeys fs)) as [a|] eqn:E2.
  - apply firstArrayUnder_Some in E2 as (k & (b & af & Hk & _) & ->).
    exists k. split; [|reflexivity].
    rewrite Hk. apply in_or_app. right. now left.
  - exfalso. apply firstArrayUnder_None in E2.
    unfold noArrayKey in E2. rewrite Forall_forall in E2.
    rewrite (E2 "records") in R; [discriminate|].
    apply list_elem_of_In. now apply array_under_own_key.
Qed.

End ReaderFacts.

(** * File names and records of the v2 migration *)

Module LinkerFacts.
Import Firestore Writer PathFacts WriterFacts WriterRuns Migration MigrationFacts Records.

Lemma string_of_list_ascii_app l1 l2 :
  String.string_of_list_ascii (l1 ++ l2)
  = String.string_of_list_ascii l1 +:+ String.string_of_list_ascii l2.
Proof. induction l1 as [|c l1 IH]; simpl; [reflexivity|now rewrite IH]. Qed.

Lemma afterLiteral_sound literal s rest :
  afterLiteral literal s = Some rest ->
  exists lit,
    s = lit +:+ rest /\
    allEqIgnoreCase (String.list_ascii_of_string literal)
                    (String.list_ascii_of_string lit) = true.
Proof.
  revert s. induction literal as [|a literal IH]; intros s; simpl.
  - intros [= <-]. now exists "".
  - destruct s as [|b s]; [discriminate|].
    destruct (eqIgnoreCase a b) eqn:E; [|discriminate].
    intros H. destruct (IH s H) as (lit & -> & Hl).
    exists (String b lit). split; [reflexivity|]. simpl. now rewrite E, Hl.
Qed.

Lemma groupBeforeJson_sound rest group :
  groupBeforeJson rest = Some group ->
  group <> "" /\ oneLine group /\
  exists ext,
    rest = group +:+ ext /\
    allEqIgnoreCase (String.list_ascii_of_string ext)
                    (String.list_ascii_of_string ".json") = true.
Proof.
  unfold groupBeforeJson, oneLine.
  set (l := String.list_ascii_of_string rest).
  destruct (Nat.ltb_spec 5 (length l)) as [Hn|Hn]; [|discriminate].
  destruct (allEqIgnoreCase (drop (length l - 5) l) _) eqn:Hs; [|discriminate].
  destruct (forallb _ (take (length l - 5) l)) eqn:Hg; [|discriminate].
  cbn [andb]. intros [= <-].
  rewrite String.list_ascii_of_string_of_list_ascii.
  split; [|split; [exact Hg|]].
  - destruct (take (length l - 5) l) as [|c t] eqn:T; [|discriminate].
    apply (f_equal length) in T. rewrite length_take in T. simpl in T. lia.
  - exists (String.string_of_list_ascii (drop (length l - 5) l)).
    rewrite <- string_of_list_ascii_app, take_drop.
    rewrite String.list_ascii_of_string_of_list_ascii.
    split; [|exact Hs].
    unfold l. now rewrite String.string_of_list_ascii_of_string.
Qed.

Lemma matchHere_sound prefixes s group :
  matchHere prefixes s = Some group ->
  group <> "" /\ oneLine group /\
  exists prefix lit ext,
    In prefix prefixes /\
    s = lit +:+ group +:+ ext /\
    allEqIgnoreCase (String.list_ascii_of_string prefix)
                    (String.list_ascii_of_string lit) = true /\
    allEqIgnoreCase (String.list_ascii_of_string ext)
                    (String.list_ascii_of_string ".json") = true.
Proof.
  induction prefixes as [|prefix others IH]; simpl; [discriminate|].
  assert (Hothers : matchHere others s = Some group ->
    group <> "" /\ oneLine group /\
    exists prefix0 lit ext,
      (prefix = prefix0 \/ In prefix0 others) /\
      s = lit +:+ group +:+ ext /\
      allEqIgnoreCase (String.list_ascii_of_string prefix0)
                      (String.list_ascii_of_string lit) = true /\
      allEqIgnoreCase (String.list_ascii_of_string ext)
                      (String.list_ascii_of_string ".json") = true).
  { intros H. destruct (IH H) as (H1 & H2 & p & lit & ext & Hp & Hrest).
    split; [exact H1|]. split; [exact H2|]. exists p, lit, ext.
    split; [now right|exact Hrest]. }
  destruct (afterLiteral prefix s) as [rest|] eqn:A; [|exact Hothers].
  destruct (groupBeforeJson rest) as [g|] eqn:G; [|exact Hothers].
  intros [= <-].
  apply afterLiteral_sound in A as (lit & -> & Hl).
  apply groupBeforeJson_sound in G as (H1 & H2 & ext & -> & He).
  split; [exact H1|]. split; [exact H2|]. exists prefix, lit, ext.
  split; [now left|]. split; [reflexivity|]. now split.
Qed.

Lemma matchPattern_sound prefixes s group :
  matchPattern prefixes s = Some group ->
  group <> "" /\ oneLine group /\
  exists before prefix lit ext,
    In prefix prefixes /\
    s = before +:+ lit +:+ group +:+ ext /\
    allEqIgnoreCase (String.list_ascii_of_string prefix)
                    (String.list_ascii_of_string lit) = true /\
    allEqIgnoreCase (String.list_ascii_of_string ext)
                    (String.list_ascii_of_string ".json") = true.
Proof.
  assert (Hhere : forall s0, matchHere prefixes s0 = Some group ->
    group <> "" /\ oneLine group /\
    exists before prefix lit ext,
      In prefix prefixes /\
      s0 = before +:+ lit +:+ group +:+ ext /\
      allEqIgnoreCase (String.list_ascii_of_string prefix)
                      (String.list_ascii_of_string lit) = true /\
      allEqIgnoreCase (String.list_ascii_of_string ext)
                      (String.list_ascii_of_string ".json") = true).
  { intros s0 H. apply matchHere_sound in H
      as (H1 & H2 & p & lit & ext & Hp & -> & Hrest).
    split; [exact H1|]. split; [exact H2|]. exists "", p, lit, ext.
    split; [exact Hp|]. split; [reflexivity|exact Hrest]. }
  induction s as [|c s IH]; simpl.
  - destruct (matchHere prefixes "") eqn:M; [|discriminate].
    intros [= <-]. now apply Hhere.
  - destruct (matchHere prefixes (String c s)) eqn:M.
    + intros [= <-]. now apply Hhere.
    + intros H. destruct (IH H)
        as (H1 & H2 & before & p & lit & ext & Hp & -> & Hrest).
      split; [exact H1|]. split; [exact H2|].
      exists (String c before), p, lit, ext.
      split; [exact Hp|]. split; [reflexivity|exact Hrest].
Qed.

(** X12. A category name that either script extracts from a file name is
    cut out of that name: it is not empty, has no line break, is preceded
    in the name by [prompts_] (in the dynamic script also
    [promptDetails_]) and followed by [.json] at the very end, both read
    without regard to case. *)
Theorem X12_category_name_is_cut_from_the_file_name (fileName group : string) :
  (categoryNameOf fileName = Some group ->
   group <> "" /\ oneLine group /\
   exists before lit ext,
     fileName = before +:+ lit +:+ group +:+ ext /\
     allEqIgnoreCase (String.list_ascii_of_string "prompts_")
                     (String.list_ascii_of_string lit) = true /\
     allEqIgnoreCase (String.list_ascii_of_string ext)
                     (String.list_ascii_of_string ".json") = true) /\
  (extractCategoryName fileName = Some group ->
   group <> "" /\ oneLine group /\
   exists before prefix lit ext,
     (prefix = "prompts_" \/ prefix = "promptDetails_") /\
     fileName = before +:+ lit +:+ group +:+ ext /\
     allEqIgnoreCase (String.list_ascii_of_string prefix)
                     (String.list_ascii_of_string lit) = true /\
     allEqIgnoreCase (String.list_ascii_of_string ext)
                     (String.list_ascii_of_string ".json") = true).
Proof.
  split; intros H; apply matchPattern_sound in H
    as (H1 & H2 & before & p & lit & ext & Hp & Hs & Hl & He);
    (split; [exact H1|]); (split; [exact H2|]).
  - exists before, lit, ext. destruct Hp as [<-|[]]. now repeat split.
  - exists before, p, lit, ext. split; [|now repeat split].
    destruct Hp as [<-|[<-|[]]]; auto.
Qed.

Lemma lookupField_withoutKeys_in f ks fs :
  inStrings f ks = true -> lookupField f (withoutKeys ks fs) = None.
Proof.
  intros Hf. unfold withoutKeys.
  induction fs as [|[k v] rest IH]; simpl; [reflexivity|].
  destruct (inStrings k ks) eqn:Hk; simpl; [exact IH|].
  destruct (String.eqb_spec f k) as [->|Hne]; [congruence|exact IH].
Qed.

Lemma lookupField_stamped k clean :
  lookupField k (spread clean timestamps)
  = if inStrings k ["createdAt"; "updatedAt"] then Some JServerTimestamp
    else lookupField k clean.
Proof.
  unfold spread, timestamps. simpl.
  destruct (String.eqb_spec k "updatedAt") as [->|H2].
  - rewrite lookupField_setField_eq. reflexivity.
  - rewrite lookupField_setField_ne by congruence.
    destruct (String.eqb_spec k "createdAt") as [->|H1].
    + rewrite lookupField_setField_eq. reflexivity.
    + rewrite lookupField_setField_ne by congruence. reflexivity.
Qed.

Lemma lookupField_categoryStamp k categoryId clean :
  k <> "categoryId" ->
  lookupField k (spread clean (categoryStamp categoryId)) = lookupField k clean.
Proof.
  intros H. unfold categoryStamp, spread.
  destruct (truthy categoryId); simpl; [|reflexivity].
  now rewrite lookupField_setField_ne.
Qed.

(** What holds of a record pushed for [item] with payload [fs]. *)
Lemma record_fields item clean fs :
  (forall k, k <> "categoryId" -> lookupField k clean
     = lookupField k (withoutKeys ["_id"; "id"] (ownFields item))) ->
  fs = spread clean timestamps ->
  cleanedAndStamped item fs.
Proof.
  intros Hclean ->. unfold cleanedAndStamped.
  split; [|split; [|split; [|split]]].
  - rewrite lookupField_stamped, Hclean by discriminate.
    now apply lookupField_withoutKeys_in.
  - rewrite lookupField_stamped, Hclean by discriminate.
    now apply lookupField_withoutKeys_in.
  - now rewrite lookupField_stamped.
  - now rewrite lookupField_stamped.
  - intros k Hk.
    assert (N1 : k <> "_id") by (intros ->; apply Hk; simpl; tauto).
    assert (N2 : k <> "id") by (intros ->; apply Hk; simpl; tauto).
    assert (N3 : k <> "categoryId") by (intros ->; apply Hk; simpl; tauto).
    assert (N4 : k <> "createdAt") by (intros ->; apply Hk; simpl; tauto).
    assert (N5 : k <> "updatedAt") by (intros ->; apply Hk; simpl; tauto).
    rewrite lookupField_stamped. unfold inStrings. simpl.
    apply String.eqb_neq in N4, N5. rewrite N4, N5. simpl.
    rewrite Hclean by exact N3.
    apply lookupField_withoutKeys. unfold inStrings. simpl.
    apply String.eqb_neq in N1, N2. now rewrite N1, N2.
Qed.

Lemma pushed_record (categoryId item : JsVal) (recs : list WriteItem) :
  emitPlain item = Ok recs \/ emitPrompt categoryId item = Ok recs ->
  Forall (fun r =>
            docIdOfItem item = Ok (docId r) /\ truthy (docId r) = true /\
            cleanedAndStamped item (data r)) recs.
Proof.
  unfold emitPlain, emitPrompt.
  destruct (docIdOfItem item) as [d|e]; cbn [bind];
    [|intros [H|H]; discriminate].
  destruct (truthy d) eqn:T; cbn [negb].
  - intros [H|H]; injection H as <-; (constructor; [|constructor]);
      cbn [docId data]; (split; [reflexivity|]); (split; [exact T|]).
    + apply (record_fields item (withoutKeys ["_id"; "id"] (ownFields item)));
        [reflexivity|reflexivity].
    + apply (record_fields item
               (spread (withoutKeys ["_id"; "id"] (ownFields item))
                       (categoryStamp categoryId)));
        [|reflexivity].
      intros k Hk. now apply lookupField_categoryStamp.
  - intros [H|H]; injection H as <-; constructor.
Qed.

(** X13. A record that the v2 migration pushes for an item is keyed by
    the item's [_id], or its [id] when [_id] is falsy, and that key is
    truthy; its payload has neither [_id] nor [id], has both time stamps
    set to the server time stamp whatever the item held there, and agrees
    with the item on every other field except [categoryId]. *)
Theorem X13_pushed_record_is_cleaned_and_stamped (categoryId item : JsVal)
    (recs : list WriteItem) :
  emitPlain item = Ok recs \/ emitPrompt categoryId item = Ok recs ->
  Forall (fun r =>
            docIdOfItem item = Ok (docId r) /\ truthy (docId r) = true /\
            cleanedAndStamped item (data r)) recs.
Proof. exact (pushed_record categoryId item recs). Qed.

Lemma forEachEmit_elem emit items recs :
  forEachEmit emit items = Ok recs ->
  forall r, r ∈ recs <->
    exists item pushed, item ∈ items /\ emit item = Ok pushed /\ r ∈ pushed.
Proof.
  revert recs. induction items as [|item rest IH]; simpl; intros recs.
  - intros [= <-] r. split.
    + intros H. now apply not_elem_of_nil in H.
    + intros (x & p & H & _). now apply not_elem_of_nil in H.
  - destruct (emit item) as [pushed|e] eqn:E; cbn [bind]; [|discriminate].
    destruct (forEachEmit emit rest) as [more|e]; cbn [bind]; [|discriminate].
    intros [= <-] r. rewrite elem_of_app, (IH more eq_refl). split.
    + intros [H|(x & p & Hx & Hp & Hr)].
      * exists item, pushed. split; [apply list_elem_of_here|now split].
      * exists x, p. split; [now apply list_elem_of_further|now split].
    + intros (x & p & Hx & Hp & Hr). apply elem_of_cons in Hx as [->|Hx].
      * left. rewrite E in Hp. now injection Hp as <-.
      * right. now exists x, p.
Qed.

Lemma collect_elem bucket emitFor files recs :
  collect bucket emitFor files = Ok recs ->
  forall r, r ∈ recs <->
    exists fileName items item pushed,
      fileName ∈ files /\ readItems bucket fileName = Ok items /\
      item ∈ items /\ emitFor fileName item = Ok pushed /\ r ∈ pushed.
Proof.
  revert recs. induction files as [|f rest IH]; simpl; intros recs.
  - intros [= <-] r. split.
    + intros H. now apply not_elem_of_nil in H.
    + intros (x & l & i & p & H & _). now apply not_elem_of_nil in H.
  - destruct (readItems bucket f) as [items|e] eqn:R; cbn [bind]; [|discriminate].
    destruct (forEachEmit (emitFor f) items) as [pushed|e] eqn:E; cbn [bind];
      [|discriminate].
    destruct (collect bucket emitFor rest) as [more|e]; cbn [bind];
      [|discriminate].
    intros [= <-] r.
    rewrite elem_of_app, (IH more eq_refl), (forEachEmit_elem _ _ _ E). split.
    + intros [(i & p & Hi & Hp & Hr)|(x & l & i & p & Hx & Hrest)].
      * exists f, items, i, p. split; [apply list_elem_of_here|now repeat split].
      * exists x, l, i, p. split; [now apply list_elem_of_further|exact Hrest].
    + intros (x & l & i & p & Hx & Hl & Hi & Hp & Hr).
      apply elem_of_cons in Hx as [->|Hx].
      * left. rewrite R in Hl. injection Hl as <-. now exists i, p.
      * right. now exists x, l, i, p.
Qed.

(** A fresh run over the records collected with [emitFor], all commits
    succeeding. *)
Lemma fresh_migration_store env bucket st emitFor files recs item id :
  (forall k, commitOk env k = true) ->
  (forall f x pushed, emitFor f x = Ok pushed ->
     Forall (fun r => docIdOfItem x = Ok (docId r) /\ truthy (docId r) = true /\
                      cleanedAndStamped x (data r)) pushed) ->
  collect bucket emitFor files = Ok recs ->
  forall fileName items r,
    fileName ∈ files -> readItems bucket fileName = Ok items -> item ∈ items ->
    emitFor fileName item = Ok [r] ->
    docRef env (docId r) = Some id -> docDataOk env (data r) = true ->
    exists fs item' key,
      w_store (batchWriteToFirestore_v2 env st recs "fresh") !! id = Some fs /\
      itemOf bucket files item' /\ docIdOfItem item' = Ok key /\
      docRef env key = Some id /\ cleanedAndStamped item' fs.
Proof.
  intros Hcommit Hshape Hcollect fileName items r Hf Hread Hitem Hemit Href Hdata.
  assert (Hr : r ∈ recs).
  { apply (collect_elem _ _ _ _ Hcollect).
    exists fileName, items, item, [r]. repeat split; try assumption.
    apply list_elem_of_here. }
  destruct (fresh_run_present env st recs r id Hcommit Hr Href Hdata)
    as (r' & Hr' & Hid & Hlook).
  apply (collect_elem _ _ _ _ Hcollect) in Hr'
    as (f' & items' & item' & pushed & Hf' & Hread' & Hitem' & Hemit' & Hin).
  pose proof (Hshape _ _ _ Hemit') as Hall. rewrite Forall_forall in Hall.
  destruct (Hall r' Hin) as (Hdoc & _ & Hclean).
  exists (data r'), item', (docId r'). split; [exact Hlook|]. split.
  - now exists f', items'.
  - split; [exact Hdoc|]. split; [exact Hid|exact Hclean].
Qed.

(** X14. After a fresh migration of categories or of prompt details in
    which every commit succeeds, every item of the files whose identifier
    the SDK accepts as a document path, and whose cleaned payload it
    accepts, has a document at the path that the identifier addresses; the
    document is the cleaned and stamped payload of an item of the files
    whose identifier addresses that path, and an identifier that is a
    plain id is the path it addresses. *)
Theorem X14_fresh_migration_stores_every_identified_item (env : Env)
    (bucket : Bucket) (st : gmap string Fields) (files : list string)
    (r : WriterState WriteItem) (item key : JsVal) (id : string) :
  (forall k, commitOk env k = true) ->
  migrateCategories env bucket st files "fresh" = Ok r \/
  migratePromptDetails env bucket st files "fresh" = Ok r ->
  itemOf bucket files item ->
  docIdOfItem item = Ok key ->
  docRef env key = Some id ->
  docDataOk env (spread (withoutKeys ["_id"; "id"] (ownFields item)) timestamps)
  = true ->
  exists fs item' key',
    w_store r !! id = Some fs /\
    itemOf bucket files item' /\ docIdOfItem item' = Ok key' /\
    docRef env key' = Some id /\
    (plainDocId key' = true -> key' = JStr id) /\
    cleanedAndStamped item' fs.
Proof.
  intros Hcommit Hrun (fileName & items & Hf & Hread & Hitem) Hid Href Hdata.
  assert (Hrun' : exists recs,
            collect bucket (fun _ => emitPlain) files = Ok recs /\
            r = batchWriteToFirestore_v2 env st recs "fresh").
  { unfold migrateCategories, migratePromptDetails in Hrun.
    destruct files as [|f0 rest]; [now apply not_elem_of_nil in Hf|].
    destruct (collect bucket (fun _ => emitPlain) (f0 :: rest)) as [recs|e];
      cbn [bind] in Hrun; [|destruct Hrun; discriminate].
    exists recs. split; [reflexivity|]. destruct Hrun as [H|H]; now injection H. }
  destruct Hrun' as (recs & Hcollect & ->).
  destruct (docRef_Some env key id Href) as (s & _ & Ht).
  destruct (fresh_migration_store env bucket st (fun _ => emitPlain) files recs
              item id Hcommit) with
    (fileName := fileName) (items := items)
    (r := {| docId := key;
             data := spread (withoutKeys ["_id"; "id"] (ownFields item))
                            timestamps |})
    as (fs & item' & key' & H1 & H2 & H3 & H4 & H5);
    try assumption.
  - intros f x pushed H. apply (pushed_record JNull). now left.
  - unfold emitPlain. rewrite Hid. cbn [bind]. now rewrite Ht.
  - exists fs, item', key'. repeat (split; [assumption|]).
    split; [|exact H5]. intros Hp. now apply (docRef_plainId env).
Qed.

End LinkerFacts.

Module LinkerWitnesses.
Import Firestore Writer Migration Records LinkerFacts Samples.

Lemma X12_witness :
  exists before lit ext,
    "old/prompts_a.json.json" = before +:+ lit +:+ "a.json" +:+ ext /\
    allEqIgnoreCase (String.list_ascii_of_string "prompts_")
                    (String.list_ascii_of_string lit) = true /\
    allEqIgnoreCase (String.list_ascii_of_string ext)
                    (String.list_ascii_of_string ".json") = true.
Proof.
  destruct (X12_category_name_is_cut_from_the_file_name
              "old/prompts_a.json.json" "a.json") as [H _].
  destruct (H eq_refl) as (_ & _ & Hcut). exact Hcut.
Defined.

Lemma X13_witness :
  Forall (fun r =>
            docIdOfItem (JObj [("id", JStr "c1"); ("name", JStr "Music");
                               ("createdAt", JStr "2020-01-01")])
            = Ok (docId r) /\ truthy (docId r) = true /\
            cleanedAndStamped
              (JObj [("id", JStr "c1"); ("name", JStr "Music");
                     ("createdAt", JStr "2020-01-01")]) (data r))
         [ {| docId := JStr "c1";
              data := [("name", JStr "Music"); ("createdAt", JServerTimestamp);
                       ("updatedAt", JServerTimestamp)] |} ].
Proof.
  apply (X13_pushed_record_is_cleaned_and_stamped JNull).
  left. reflexivity.
Defined.

Lemma X14_witness :
  exists fs item' key',
    w_store
      (match migratePromptDetails allOk sampleBucket ∅ ["prompts_MUSIC.json"]
               "fresh" with
       | Ok r => r
       | Throw _ => idle ∅
       end) !! "p2" = Some fs /\
    itemOf sampleBucket ["prompts_MUSIC.json"] item' /\
    docIdOfItem item' = Ok key' /\
    docRef allOk key' = Some "p2" /\
    (plainDocId key' = true -> key' = JStr "p2") /\
    cleanedAndStamped item' fs.
Proof.
  apply (X14_fresh_migration_stores_every_identified_item allOk sampleBucket ∅
           ["prompts_MUSIC.json"] _
           (JObj [("id", JStr "p2"); ("categoryId", JStr "stale")])
           (JStr "p2") "p2").
  - intros k. reflexivity.
  - right. vm_compute. reflexivity.
  - exists "prompts_MUSIC.json",
      [JObj [("id", JStr "p2"); ("categoryId", JStr "stale")]].
    split; [apply list_elem_of_here|]. split; [reflexivity|].
    apply list_elem_of_here.
  - reflexivity.
  - reflexivity.
  - reflexivity.
Defined.

(** Two items whose identifiers address the same path: the document [c1]
    holds the payload of the later item, whose identifier is [c1/]. *)
Example migration_trailing_slash_same_document :
  let bucket : Bucket := fun _ =>
    Ok (JArr [JObj [("_id", JStr "c1"); ("name", JStr "first")];
              JObj [("_id", JStr "c1/"); ("name", JStr "second")]]) in
  match migrateCategories allOk bucket ∅ ["categories.json"] "fresh" with
  | Ok r =>
      w_store r !! "c1"
      = Some [("name", JStr "second"); ("createdAt", JServerTimestamp);
              ("updatedAt", JServerTimestamp)] /\
      w_store r !! "c1/" = None
  | Throw _ => False
  end.
Proof. vm_compute. split; reflexivity. Qed.

End LinkerWitnesses.

(** * Listing and sorting the files *)

Module FilesFacts.
Import Files.

Lemma prefix_split p s :
  String.prefix p s = true -> exists rest, s = p +:+ rest.
Proof.
  revert s. induction p as [|a p IH]; intros s.
  - intros _. now exists s.
  - destruct s as [|b s]; simpl; [discriminate|].
    destruct (ascii_dec a b) as [->|]; [|discriminate].
    intros H. destruct (IH s H) as [rest ->]. now exists rest.
Qed.

Lemma prefix_append p rest : String.prefix p (p +:+ rest) = true.
Proof.
  induction p as [|a p IH]; simpl; [now destruct rest|].
  destruct (ascii_dec a a); [exact IH|congruence].
Qed.

Lemma includes_unfold p s :
  includes p s
  = String.prefix p s ||
    match s with EmptyString => false | String _ rest => includes p rest end.
Proof. destruct s; reflexivity. Qed.

Lemma includes_append a p rest :
  includes p rest = true -> includes p (a +:+ rest) = true.
Proof.
  intros H. induction a as [|c a IH]; simpl; [exact H|].
  rewrite IH. apply orb_true_r.
Qed.

Lemma pt_category_includes s :
  String.prefix "pt_category" s = true -> includes "category" s = true.
Proof.
  intros H. apply prefix_split in H as [rest ->].
  change ("pt_category" +:+ rest) with ("pt_" +:+ ("category" +:+ rest)).
  apply includes_append. rewrite includes_unfold.
  now rewrite prefix_append.
Qed.

Lemma prompts_not_details s :
  String.prefix "prompts_" s = true ->
  String.prefix "promptdetails_" s = false.
Proof.
  intros H. destruct (String.prefix "promptdetails_" s) eqn:D; [|reflexivity].
  apply prefix_split in H as [r1 ->]. apply prefix_split in D as [r2 D].
  cbv beta iota delta [String.append] in D. congruence.
Qed.

(** The loop, from any intermediate state. *)
Lemma categorize_fold (toLowerCase : string -> string) fileNames c :
  let isCategory := fun f => includes "category" (toLowerCase f) in
  fold_left (categorizeOne toLowerCase) fileNames c
  = {| categories := categories c ++ List.filter isCategory fileNames;
       prompts :=
         prompts c ++
         List.filter (fun f => negb (isCategory f) &&
                               String.prefix "prompts_" (toLowerCase f))
                     fileNames;
       promptDetails :=
         promptDetails c ++
         List.filter (fun f => negb (isCategory f) &&
                               String.prefix "promptdetails_" (toLowerCase f))
                     fileNames |}.
Proof.
  intros isCategory. revert c.
  induction fileNames as [|f rest IH]; intros c; cbn [fold_left List.filter].
  - rewrite !app_nil_r. now destruct c.
  - rewrite IH. unfold categorizeOne, isCategory.
    destruct (includes "category" (toLowerCase f)) eqn:I; cbn [orb negb andb].
    + cbn [categories prompts promptDetails].
      now rewrite <- app_assoc.
    + destruct (String.prefix "pt_category" (toLowerCase f)) eqn:P.
      { apply pt_category_includes in P. congruence. }
      destruct (String.prefix "prompts_" (toLowerCase f)) eqn:Q.
      * rewrite (prompts_not_details _ Q).
        cbn [categories prompts promptDetails]. now rewrite <- app_assoc.
      * destruct (String.prefix "promptdetails_" (toLowerCase f));
          cbn [categories prompts promptDetails];
          [now rewrite <- app_assoc|reflexivity].
Qed.

Lemma filter_length_3 {A} (p q r : A -> bool) l :
  (forall x, p x && q x = false) -> (forall x, p x && r x = false) ->
  (forall x, q x && r x = false) ->
  (length (List.filter p l) + length (List.filter q l)
   + length (List.filter r l) <= length l)%nat.
Proof.
  intros Hpq Hpr Hqr. induction l as [|x l IH]; simpl; [lia|].
  specialize (Hpq x). specialize (Hpr x). specialize (Hqr x).
  destruct (p x), (q x), (r x); simpl in *; try discriminate; lia.
Qed.

(** X15. [categorizeFiles] sorts the names in one pass: a name goes to
    the categories when its lower-cased form contains [category] (the
    test on the prefix [pt_category] adds nothing), otherwise to the
    prompts when it starts with [prompts_], otherwise to the prompt
    details when it starts with [promptdetails_]; each list keeps the
    order of the input, no name is put in two lists, and together they
    hold at most the names given. *)
Theorem X15_files_are_sorted_by_name (toLowerCase : string -> string)
    (fileNames : list string) :
  let c := categorizeFiles toLowerCase fileNames in
  let isCategory := fun f => includes "category" (toLowerCase f) in
  let isPrompts := fun f =>
    negb (isCategory f) && String.prefix "prompts_" (toLowerCase f) in
  let isDetails := fun f =>
    negb (isCategory f) && String.prefix "promptdetails_" (toLowerCase f) in
  categories c = List.filter isCategory fileNames /\
  prompts c = List.filter isPrompts fileNames /\
  promptDetails c = List.filter isDetails fileNames /\
  (forall f, ~ (In f (categories c) /\ In f (prompts c))) /\
  (forall f, ~ (In f (categories c) /\ In f (promptDetails c))) /\
  (forall f, ~ (In f (prompts c) /\ In f (promptDetails c))) /\
  (length (categories c) + length (prompts c) + length (promptDetails c)
   <= length fileNames)%nat.
Proof.
  intros c isCategory isPrompts isDetails.
  assert (E : c = {| categories := List.filter isCategory fileNames;
                     prompts := List.filter isPrompts fileNames;
                     promptDetails := List.filter isDetails fileNames |}).
  { exact (categorize_fold toLowerCase fileNames
             {| categories := []; prompts := []; promptDetails := [] |}). }
  rewrite E. cbn [categories prompts promptDetails].
  split; [reflexivity|]. split; [reflexivity|]. split; [reflexivity|].
  assert (Hcp : forall x, isCategory x && isPrompts x = false).
  { intros x. unfold isPrompts. now destruct (isCategory x). }
  assert (Hcd : forall x, isCategory x && isDetails x = false).
  { intros x. unfold isDetails. now destruct (isCategory x). }
  assert (Hpd : forall x, isPrompts x && isDetails x = false).
  { intros x. unfold isPrompts, isDetails.
    destruct (isCategory x); [reflexivity|]. cbn [negb andb].
    destruct (String.prefix "prompts_" (toLowerCase x)) eqn:Q; [|reflexivity].
    now rewrite (prompts_not_details _ Q). }
  split; [|split; [|split]].
  - intros f [H1 H2]. apply filter_In in H1 as [_ H1], H2 as [_ H2].
    specialize (Hcp f). rewrite H1, H2 in Hcp. discriminate.
  - intros f [H1 H2]. apply filter_In in H1 as [_ H1], H2 as [_ H2].
    specialize (Hcd f). rewrite H1, H2 in Hcd. discriminate.
  - intros f [H1 H2]. apply filter_In in H1 as [_ H1], H2 as [_ H2].
    specialize (Hpd f). rewrite H1, H2 in Hpd. discriminate.
  - now apply filter_length_3.
Qed.

Lemma afterPrefix_append p rest : afterPrefix p (p +:+ rest) = Some rest.
Proof.
  induction p as [|a p IH]; simpl; [now destruct rest|].
  now rewrite Ascii.eqb_refl.
Qed.

Lemma removeFirst_unfold p s :
  removeFirst p s
  = match afterPrefix p s with
    | Some rest => rest
    | None =>
        match s with
        | EmptyString => EmptyString
        | String c rest => String c (removeFirst p rest)
        end
    end.
Proof. destruct s; reflexivity. Qed.

Lemma removeFirst_prefix p rest : removeFirst p (p +:+ rest) = rest.
Proof. now rewrite removeFirst_unfold, afterPrefix_append. Qed.

(** X16. The names that the v2 script keeps from a listing of the data
    folder are the listed names that end in [.json], in order, cut so
    that [fetchJSONFromStorage] opens exactly the listed object again. *)
Theorem X16_listed_names_open_the_listed_objects (files : list string) :
  Forall (fun name => String.prefix DATA_FOLDER name = true) files ->
  map objectName (jsonFiles DATA_FOLDER files)
  = List.filter (endsWith ".json") files.
Proof.
  intros H. unfold jsonFiles. rewrite map_map.
  induction H as [|name rest Hname _ IH]; [reflexivity|].
  cbn [List.filter]. destruct (endsWith ".json" name); [|exact IH].
  cbn [map]. rewrite IH. f_equal.
  apply prefix_split in Hname as [r ->].
  unfold objectName. now rewrite removeFirst_prefix.
Qed.

Lemma X16_witness :
  map objectName
      (jsonFiles DATA_FOLDER
         ["data/pt_category.json"; "data/notes.txt"; "data/prompts_data/x.json"])
  = ["data/pt_category.json"; "data/prompts_data/x.json"].
Proof.
  apply (X16_listed_names_open_the_listed_objects
           ["data/pt_category.json"; "data/notes.txt"; "data/prompts_data/x.json"]).
  repeat constructor.
Defined.

(** A prompts file whose name contains [category] is taken for a
    categories file. *)
Example prompts_file_sorted_as_categories :
  categorizeFiles Samples.asciiToLowerCase
    ["prompts_Category_Art.json"; "prompts_Art.json"; "promptDetails_Art.json";
     "PT_Category.json"; "config.json"]
  = {| categories := ["prompts_Category_Art.json"; "PT_Category.json"];
       prompts := ["prompts_Art.json"];
       promptDetails := ["promptDetails_Art.json"] |}.
Proof. reflexivity. Qed.

End FilesFacts.

(** * The category mapping and the linker *)

Module MappingFacts.
Import Migration Mapping WriterFacts.

Lemma lookupField_assign k key v m :
  k <> "__proto__" ->
  lookupField k (assign key v m)
  = if String.eqb k key then Some v else lookupField k m.
Proof.
  intros Hk. unfold assign.
  destruct (String.eqb_spec key "__proto__") as [->|Hp].
  - destruct (String.eqb_spec k "__proto__"); [contradiction|reflexivity].
  - destruct (String.eqb_spec k key) as [->|Hne].
    + apply lookupField_setField_eq.
    + now apply lookupField_setField_ne.
Qed.

Lemma plain_truthy_is_string doc :
  plainName doc = true -> truthy (categoryNameField (snd doc)) = true ->
  exists s, categoryNameField (snd doc) = JStr s /\ String.eqb s "" = false.
Proof.
  unfold plainName.
  destruct (categoryNameField (snd doc)) as [| |b|n|s|l|fs| |nm]; cbn;
    intros H T; try discriminate; try (rewrite T in H; discriminate).
  exists s. split; [reflexivity|]. now destruct (String.eqb s "").
Qed.

Lemma namesKey_false toLowerCase k id data :
  truthy (categoryNameField data) && truthy (JStr id) = false ->
  namesKey toLowerCase k (id, data) = false.
Proof.
  unfold namesKey. cbn [fst snd].
  destruct (truthy (JStr id)); [|reflexivity].
  rewrite andb_true_r.
  destruct (categoryNameField data) as [| |b|n|s|l|fs| |nm]; try reflexivity.
  cbn. intros ->. reflexivity.
Qed.

Lemma forEachDoc_lookup toLowerCase keyOf docs m k :
  Forall (fun d => plainName d = true) docs -> k <> "__proto__" ->
  lookupField k (forEachDoc toLowerCase keyOf docs m)
  = match last (List.filter (namesKey toLowerCase k) docs) with
    | Some d => Some (JStr (fst d))
    | None => lookupField k m
    end.
Proof.
  intros Hplain Hk. revert m.
  induction Hplain as [|[id data] rest Hd _ IH]; intros m; [reflexivity|].
  cbn [forEachDoc List.filter].
  destruct (truthy (categoryNameField data) && truthy (JStr id)) eqn:C.
  - apply andb_true_iff in C as [Tn Ti].
    destruct (plain_truthy_is_string (id, data) Hd Tn) as (s & Es & Hs).
    cbn [snd] in Es. rewrite Es, IH, !lookupField_assign by exact Hk.
    unfold namesKey at 2. cbn [fst snd]. rewrite Es, Ti, Hs. cbn [negb andb].
    destruct (String.eqb k s), (String.eqb k (toLowerCase s)); cbn [orb];
      try rewrite last_cons;
      destruct (last (List.filter (namesKey toLowerCase k) rest));
      reflexivity.
  - rewrite IH. now rewrite (namesKey_false toLowerCase k id data C).
Qed.

(** X17. When every category document has a string for a name (or none),
    the mapping that [buildCategoryMapping] returns holds, under a key,
    the id of the last document of the snapshot whose name, as it is or
    lower-cased, is that key, and holds nothing under a key that no
    document names.  (The key [__proto__] is never set.) *)
Theorem X17_mapping_holds_the_last_category_naming_a_key
    (toLowerCase : string -> string) (keyOf : JsVal -> string)
    (docs : list (string * Fields)) (k : string) :
  Forall (fun d => plainName d = true) docs ->
  (k <> "__proto__" ->
   lookupField k (buildCategoryMapping toLowerCase keyOf (Ok docs))
   = (fun d => JStr (fst d)) <$> last (List.filter (namesKey toLowerCase k) docs)) /\
  lookupField "__proto__" (buildCategoryMapping toLowerCase keyOf (Ok docs))
  = None.
Proof.
  intros Hplain. split.
  - intros Hk. unfold buildCategoryMapping.
    rewrite forEachDoc_lookup by assumption.
    now destruct (last _).
  - unfold buildCategoryMapping.
    assert (G : forall m, lookupField "__proto__" m = None ->
              lookupField "__proto__" (forEachDoc toLowerCase keyOf docs m) = None).
    { clear Hplain. induction docs as [|[id data] rest IH]; intros m Hm;
        [exact Hm|].
      assert (A : forall key v m0, lookupField "__proto__" m0 = None ->
                    lookupField "__proto__" (assign key v m0) = None).
      { intros key v m0 H0. unfold assign.
        destruct (String.eqb_spec key "__proto__") as [->|Hne]; [exact H0|].
        rewrite lookupField_setField_ne by congruence. exact H0. }
      cbn [forEachDoc].
      destruct (truthy (categoryNameField data) && truthy (JStr id));
        [|now apply IH].
      destruct (categoryNameField data); try (now apply A).
      apply IH. now apply A, A. }
    now apply G.
Qed.

Lemma namesKey_upToCase toLowerCase k N doc :
  (forall s, toLowerCase (toLowerCase s) = toLowerCase s) ->
  k = N \/ k = toLowerCase N ->
  namesKey toLowerCase k doc = true -> namedUpToCase toLowerCase N doc.
Proof.
  intros Hidem Hk. unfold namesKey, namedUpToCase.
  destruct (truthy (JStr (fst doc))) eqn:Ti; [|discriminate].
  destruct (categoryNameField (snd doc)) as [| |b|n|s|l|fs| |nm];
    try discriminate.
  cbn [andb]. intros H. apply andb_true_iff in H as [Hs H].
  exists s. split; [reflexivity|]. split; [now destruct (String.eqb s "")|].
  split; [reflexivity|].
  apply orb_true_iff in H as [H|H]; apply String.eqb_eq in H;
    destruct Hk as [->| ->]; subst; congruence.
Qed.

Lemma upToCase_namesKey toLowerCase N doc :
  namedUpToCase toLowerCase N doc ->
  namesKey toLowerCase (toLowerCase N) doc = true.
Proof.
  intros (s & Es & Hs & Ti & Hl). unfold namesKey. rewrite Es, Ti, Hs, Hl.
  cbn. rewrite String.eqb_refl. apply orb_true_r.
Qed.

Lemma last_filter_elem {A} (f : A -> bool) l d :
  last (List.filter f l) = Some d -> In d l /\ f d = true.
Proof.
  intros H. apply filter_In. apply last_Some in H as [l' H].
  rewrite H. apply in_or_app. right. now left.
Qed.

Lemma last_filter_None {A} (f : A -> bool) l :
  last (List.filter f l) = None -> forall d, In d l -> f d = false.
Proof.
  intros H d Hd. destruct (f d) eqn:E; [|reflexivity].
  assert (Hin : In d (List.filter f l)) by (apply filter_In; now split).
  destruct (List.filter f l) as [|x t]; [destruct Hin|].
  rewrite last_cons in H. destruct (last t); discriminate.
Qed.

(** X18. With a lower-casing that is idempotent and category documents
    whose names are strings, a prompt file with category name [N] (not the
    name of a member of [Object.prototype], as it is or lower-cased) is
    linked to a category document whose name is [N] up to case whenever
    there is one, and gets no link when there is none. *)
Theorem X18_prompt_file_is_linked_up_to_case (toLowerCase : string -> string)
    (keyOf : JsVal -> string) (docs : list (string * Fields)) (N : string) :
  (forall s, toLowerCase (toLowerCase s) = toLowerCase s) ->
  Forall (fun d => plainName d = true) docs ->
  N <> "" ->
  inStrings N objectPrototypeMembers = false ->
  inStrings (toLowerCase N) objectPrototypeMembers = false ->
  let link :=
    linkCategory toLowerCase
      (Some (buildCategoryMapping toLowerCase keyOf (Ok docs))) (Some N) in
  ((exists d, In d docs /\ namedUpToCase toLowerCase N d) ->
   exists d, In d docs /\ namedUpToCase toLowerCase N d /\ link = JStr (fst d)) /\
  ((forall d, In d docs -> ~ namedUpToCase toLowerCase N d) ->
   link = JUndefined).
Proof.
  intros Hidem Hplain HN Hp1 Hp2 link.
  assert (K1 : N <> "__proto__") by (intros ->; discriminate).
  assert (K2 : toLowerCase N <> "__proto__").
  { intros E. rewrite E in Hp2. discriminate. }
  set (mapping := buildCategoryMapping toLowerCase keyOf (Ok docs)) in *.
  assert (L : forall k, k <> "__proto__" ->
            lookupField k mapping
            = match last (List.filter (namesKey toLowerCase k) docs) with
              | Some d => Some (JStr (fst d))
              | None => None
              end).
  { intros k Hk. unfold mapping, buildCategoryMapping.
    now rewrite forEachDoc_lookup by assumption. }
  assert (E : link = jsOr (objGet mapping N) (objGet mapping (toLowerCase N))).
  { unfold link, linkCategory.
    destruct (String.eqb_spec N ""); [contradiction|reflexivity]. }
  assert (T : forall d k, namesKey toLowerCase k d = true ->
                          truthy (JStr (fst d)) = true).
  { intros d k H. unfold namesKey in H.
    now destruct (truthy (JStr (fst d))). }
  rewrite E. unfold objGet. rewrite (L N K1), (L _ K2), Hp1, Hp2. split.
  - intros (d0 & Hd0 & Hn0).
    destruct (last (List.filter (namesKey toLowerCase N) docs)) as [d1|] eqn:L1.
    + apply last_filter_elem in L1 as [Hin Hk].
      exists d1. split; [exact Hin|]. split.
      * apply (namesKey_upToCase toLowerCase N N d1 Hidem); [now left|exact Hk].
      * unfold jsOr. now rewrite (T d1 N Hk).
    + destruct (last (List.filter (namesKey toLowerCase (toLowerCase N)) docs))
        as [d2|] eqn:L2.
      * apply last_filter_elem in L2 as [Hin Hk].
        exists d2. split; [exact Hin|]. split; [|reflexivity].
        apply (namesKey_upToCase toLowerCase (toLowerCase N) N d2 Hidem);
          [now right|exact Hk].
      * exfalso. pose proof (last_filter_None _ _ L2 d0 Hd0) as F.
        rewrite (upToCase_namesKey toLowerCase N d0 Hn0) in F. discriminate.
  - intros Hnone.
    destruct (last (List.filter (namesKey toLowerCase N) docs)) as [d1|] eqn:L1.
    { apply last_filter_elem in L1 as [Hin Hk]. exfalso.
      apply (Hnone d1 Hin).
      apply (namesKey_upToCase toLowerCase N N d1 Hidem); [now left|exact Hk]. }
    destruct (last (List.filter (namesKey toLowerCase (toLowerCase N)) docs))
      as [d2|] eqn:L2; [|reflexivity].
    apply last_filter_elem in L2 as [Hin Hk]. exfalso.
    apply (Hnone d2 Hin).
    apply (namesKey_upToCase toLowerCase (toLowerCase N) N d2 Hidem);
      [now right|exact Hk].
Qed.

End MappingFacts.

Module MappingWitnesses.
Import Migration Mapping MappingFacts Samples MoreSamples.

Lemma asciiLower_idem c : asciiLower (asciiLower c) = asciiLower c.
Proof. destruct c as [[] [] [] [] [] [] [] []]; reflexivity. Qed.

Lemma asciiToLowerCase_idem s :
  asciiToLowerCase (asciiToLowerCase s) = asciiToLowerCase s.
Proof.
  unfold asciiToLowerCase.
  rewrite String.list_ascii_of_string_of_list_ascii, map_map.
  f_equal. apply map_ext. intros c. apply asciiLower_idem.
Qed.

Lemma X17_witness :
  lookupField "music" (buildCategoryMapping asciiToLowerCase sampleKeyOf (Ok categoryDocs))
  = Some (JStr "c3").
Proof.
  destruct (X17_mapping_holds_the_last_category_naming_a_key asciiToLowerCase
              sampleKeyOf categoryDocs "music") as [H _].
  - repeat constructor.
  - rewrite H by discriminate. reflexivity.
Defined.

Lemma X18_witness :
  exists d,
    In d categoryDocs /\ namedUpToCase asciiToLowerCase "MUSIC" d /\
    linkCategory asciiToLowerCase
      (Some (buildCategoryMapping asciiToLowerCase sampleKeyOf (Ok categoryDocs)))
      (Some "MUSIC") = JStr (fst d).
Proof.
  destruct (X18_prompt_file_is_linked_up_to_case asciiToLowerCase sampleKeyOf
              categoryDocs "MUSIC") as [H _].
  - exact asciiToLowerCase_idem.
  - repeat constructor.
  - discriminate.
  - reflexivity.
  - reflexivity.
  - apply H. exists ("c1", [("name", JStr "Music")]).
    split; [now left|]. exists "Music". repeat split.
Defined.

(** A category whose name is not a string ends the loop: its entry is
    set, the documents after it are not read. *)
Example mapping_stops_at_a_name_that_is_no_string :
  buildCategoryMapping asciiToLowerCase sampleKeyOf
    (Ok [ ("c1", [("name", JStr "Music")]);
          ("c2", [("name", JObj [("en", JStr "Art")])]);
          ("c3", [("name", JStr "Film")]) ])
  = [("Music", JStr "c1"); ("music", JStr "c1"); ("[object Object]", JStr "c2")].
Proof. reflexivity. Qed.

End MappingWitnesses.

(** * The cleanup script *)

Module CleanupFacts.
Import Cleanup.
Local Open Scope Z_scope.

Lemma lookup_deleteAll (st : gmap string Fields) ids key :
  deleteAll st ids !! key = if decide (key ∈ ids) then None else st !! key.
Proof.
  revert st. unfold deleteAll.
  induction ids as [|id ids IH]; intros st; cbn [foldl].
  - destruct (decide (key ∈ [])) as [H|_]; [|reflexivity].
    now apply not_elem_of_nil in H.
  - rewrite IH. destruct (decide (key ∈ ids)) as [H|H].
    + destruct (decide (key ∈ id :: ids)) as [_|N]; [reflexivity|].
      exfalso. apply N. now apply list_elem_of_further.
    + destruct (decide (key = id)) as [->|Hne].
      * rewrite lookup_delete_eq.
        destruct (decide (id ∈ id :: ids)) as [_|N]; [reflexivity|].
        exfalso. apply N. apply list_elem_of_here.
      * rewrite lookup_delete_ne by congruence.
        destruct (decide (key ∈ id :: ids)) as [Y|_]; [|reflexivity].
        apply elem_of_cons in Y as [Y|Y]; contradiction.
Qed.

Lemma deleteAll_subseteq (st : gmap string Fields) ids : deleteAll st ids ⊆ st.
Proof.
  apply map_subseteq_spec. intros key v. rewrite lookup_deleteAll.
  destruct (decide (key ∈ ids)); [discriminate|auto].
Qed.

Lemma size_deleteAll (st : gmap string Fields) ids :
  NoDup ids -> (forall id, id ∈ ids -> id ∈ dom st) ->
  (size (deleteAll st ids) + length ids = size st)%nat.
Proof.
  intros Hnd. revert st. unfold deleteAll.
  induction Hnd as [|id ids Hnotin Hnd IH]; intros st Hdom; cbn [foldl length].
  - lia.
  - assert (Hid : is_Some (st !! id)).
    { apply elem_of_dom, Hdom, list_elem_of_here. }
    pose proof (map_size_delete_Some id st Hid) as S1.
    assert (S2 : (0 < size st)%nat).
    { destruct (decide (size st = 0%nat)) as [Z0|]; [|lia].
      apply map_size_empty_inv in Z0. subst st.
      rewrite lookup_empty in Hid. now destruct Hid. }
    assert (Hdom' : forall x, x ∈ ids -> x ∈ dom (delete id st)).
    { intros x Hx. rewrite dom_delete_L. apply elem_of_difference.
      split; [apply Hdom; now apply list_elem_of_further|].
      intros E. apply elem_of_singleton in E. subst x. contradiction. }
    pose proof (IH (delete id st) Hdom') as E. lia.
Qed.

(** The loop from any state: documents are only removed; and under a
    query that answers from the collection, a count is returned only with
    the collection emptied, and counts what was removed. *)
Lemma deleteLoop_result env fuel k st total res st' :
  deleteLoop env fuel k st total = Some (res, st') ->
  st' ⊆ st /\
  (answersFromCollection env ->
   forall n, res = Ok n -> st' = ∅ /\ n = total + Z.of_nat (size st)).
Proof.
  revert k st total. induction fuel as [|fuel IH]; intros k st total;
    cbn [deleteLoop]; [discriminate|].
  destruct (snapshot env st) as [docs|e] eqn:Q.
  - destruct docs as [|d ds].
    + intros [= <- <-]. split; [reflexivity|].
      intros F n [= <-]. destruct (F st [] Q) as (_ & _ & _ & E).
      rewrite (E eq_refl), map_size_empty. split; [reflexivity|lia].
    + destruct (commitOk env k).
      * intros H. apply IH in H as [Hsub Hres]. split.
        { etrans; [exact Hsub|apply deleteAll_subseteq]. }
        intros F n Hn. destruct (Hres F n Hn) as [-> ->].
        split; [reflexivity|].
        destruct (F st (d :: ds) Q) as (Hnd & Hdom & _).
        pose proof (size_deleteAll st (d :: ds) Hnd Hdom). lia.
      * intros [= <- <-]. split; [reflexivity|]. intros _ n. discriminate.
  - intros [= <- <-]. split; [reflexivity|]. intros _ n. discriminate.
Qed.

Lemma deleteLoop_terminates env fuel k st total :
  answersFromCollection env ->
  (forall st0, exists docs, snapshot env st0 = Ok docs) ->
  (forall j, commitOk env j = true) ->
  (size st < fuel)%nat ->
  exists res st', deleteLoop env fuel k st total = Some (res, st') /\
                  exists n, res = Ok n.
Proof.
  intros F Hread Hcommit. revert k st total.
  induction fuel as [|fuel IH]; intros k st total Hfuel; [lia|].
  cbn [deleteLoop]. destruct (Hread st) as [docs Q]. rewrite Q.
  destruct docs as [|d ds]; [now eexists _, _; split; [reflexivity|eexists]|].
  rewrite Hcommit. apply IH.
  destruct (F st (d :: ds) Q) as (Hnd & Hdom & _).
  pose proof (size_deleteAll st (d :: ds) Hnd Hdom) as S. cbn [length] in S. lia.
Qed.

(** X19. On a server whose queries answer from the collection and whose
    reads and commits all succeed, [deleteCollection] ends after at most
    as many rounds as the collection has documents, plus one; it leaves
    the collection empty and returns the number of documents it held. *)
Theorem X19_cleanup_empties_the_collection (env : Env)
    (st : gmap string Fields) (fuel : nat) :
  answersFromCollection env ->
  (forall st0, exists docs, snapshot env st0 = Ok docs) ->
  (forall j, commitOk env j = true) ->
  (size st < fuel)%nat ->
  deleteCollection env fuel st = Some (Ok (Z.of_nat (size st)), ∅).
Proof.
  intros F Hread Hcommit Hfuel. unfold deleteCollection.
  destruct (deleteLoop_terminates env fuel 0 st 0 F Hread Hcommit Hfuel)
    as (res & st' & E & n & ->).
  rewrite E. destruct (deleteLoop_result _ _ _ _ _ _ _ E) as [_ H].
  destruct (H F n eq_refl) as [-> ->]. do 3 f_equal.
Qed.

(** X20. Whatever the server answers, [deleteCollection] writes no
    document and changes none: what it leaves is part of what it found.
    When it returns a count, on a server whose queries answer from the
    collection, the collection is empty and the count is the number of
    documents it held; when a read or a commit fails it raises, and the
    documents of the batches committed before stay deleted. *)
Theorem X20_cleanup_only_removes (env : Env) (fuel : nat)
    (st st' : gmap string Fields) (res : Result Z) :
  deleteCollection env fuel st = Some (res, st') ->
  st' ⊆ st /\
  (answersFromCollection env ->
   forall n, res = Ok n -> st' = ∅ /\ n = Z.of_nat (size st)).
Proof.
  intros H. apply deleteLoop_result in H as [Hsub Hres].
  split; [exact Hsub|]. intros F n Hn. destruct (Hres F n Hn) as [-> ->].
  split; [reflexivity|lia].
Qed.

End CleanupFacts.

Module CleanupWitnesses.
Import Cleanup CleanupFacts Samples MoreSamples.

Lemma cleanupOk_answers : answersFromCollection cleanupOk.
Proof.
  intros st docs [= <-].
  split; [|split; [|split]].
  - apply (sublist_NoDup _ (elements (dom st)));
      [apply NoDup_elements|apply sublist_take].
  - intros id Hid. apply elem_of_elements.
    apply elem_of_take in Hid as (i & Hi & _).
    eapply list_elem_of_lookup_2; eauto.
  - rewrite length_take. lia.
  - intros E. apply dom_empty_inv_L. apply leibniz_equiv.
    apply elements_empty_inv.
    destruct (elements (dom st)); [reflexivity|discriminate].
Qed.

Lemma X19_witness :
  deleteCollection cleanupOk 2 oneDoc = Some (Ok (Z.of_nat (size oneDoc)), ∅).
Proof.
  apply (X19_cleanup_empties_the_collection cleanupOk oneDoc 2).
  - exact cleanupOk_answers.
  - intros st0. now eexists.
  - reflexivity.
  - unfold oneDoc. rewrite map_size_singleton. lia.
Defined.

Lemma X20_witness :
  (∅ : gmap string Fields) ⊆ oneDoc.
Proof.
  apply (X20_cleanup_only_removes cleanupOk 2 oneDoc ∅ (Ok 1%Z)).
  vm_compute. reflexivity.
Defined.

End CleanupWitnesses.

(** * The repair script *)

Module FixFacts.
Import Firestore Writer PathFacts WriterFacts WriterRuns Migration Fix CleanupFacts.
Local Open Scope Z_scope.

Lemma planDoc_nested env plan doc plan' :
  isNested doc = true -> planDoc env plan doc = Ok plan' ->
  exists id,
    docRef env (realPromptId doc) = Some id /\
    sets plan' = sets plan ++ [ {| op_id := id; op_data := payloadOf doc;
                                   op_merge := false |} ] /\
    oldDocIds plan' = oldDocIds plan ++ [fst doc] /\
    fixedCount plan' = fixedCount plan + 1 /\
    skippedCount plan' = skippedCount plan.
Proof.
  unfold isNested, planDoc, realPromptId, payloadOf.
  destruct (nestedPrompt (snd doc)) as [promptData|]; [|discriminate].
  destruct (getProp promptData "_id") as [r|]; [|discriminate].
  intros T. rewrite T.
  destruct (docRef env r) as [newId|] eqn:R; [|discriminate].
  destruct (docDataOk env _); [|discriminate].
  intros [= <-]. exists newId. repeat split.
Qed.

Lemma planDoc_other env plan doc plan' :
  isNested doc = false -> planDoc env plan doc = Ok plan' ->
  sets plan' = sets plan /\ oldDocIds plan' = oldDocIds plan /\
  fixedCount plan' = fixedCount plan.
Proof.
  unfold isNested, planDoc.
  destruct (nestedPrompt (snd doc)) as [promptData|].
  - destruct (getProp promptData "_id") as [r|]; [|discriminate].
    intros T. rewrite T. intros [= <-]. repeat split.
  - intros _ [= <-]. repeat split.
Qed.

(** What the loop has planned when it ends without raising. *)
Lemma planDocs_plan env docs plan plan' :
  planDocs env docs plan = Ok plan' ->
  exists news,
    sets plan' = sets plan ++ news /\
    Forall2 (fun doc op =>
               docRef env (realPromptId doc) = Some (op_id op) /\
               op_data op = payloadOf doc /\ op_merge op = false)
            (List.filter isNested docs) news /\
    oldDocIds plan' = oldDocIds plan ++ map fst (List.filter isNested docs) /\
    fixedCount plan'
    = fixedCount plan + Z.of_nat (length (List.filter isNested docs)).
Proof.
  revert plan. induction docs as [|doc rest IH]; intros plan;
    cbn [planDocs List.filter].
  - intros [= <-]. exists []. rewrite !app_nil_r. cbn.
    repeat split; [constructor|lia].
  - destruct (planDoc env plan doc) as [plan1|e] eqn:P; cbn [bind];
      [|discriminate].
    intros H. destruct (IH plan1 H) as (news & Hs & Hf & Ho & Hc).
    destruct (isNested doc) eqn:N.
    + destruct (planDoc_nested env plan doc plan1 N P)
        as (id & Hid & Hs1 & Ho1 & Hc1 & _).
      exists ({| op_id := id; op_data := payloadOf doc; op_merge := false |}
              :: news).
      rewrite Hs, Hs1, Ho, Ho1, Hc, Hc1, <- !app_assoc. cbn [map length app].
      repeat split; [|lia]. constructor; [now repeat split|exact Hf].
    + destruct (planDoc_other env plan doc plan1 N P) as (Hs1 & Ho1 & Hc1).
      exists news. rewrite Hs, Hs1, Ho, Ho1, Hc, Hc1. now repeat split.
Qed.

Lemma commit_untouched st ops key :
  (forall op, op ∈ ops -> op_id op <> key) -> commit st ops !! key = st !! key.
Proof.
  intros H.
  apply (commit_inv key (fun o => o = st !! key) (fun op => op_id op <> key));
    [| |reflexivity].
  - intros op o Hne Heq. contradiction.
  - apply Forall_forall. exact H.
Qed.

(** X21. When [fixPromptDetails] returns, the count it returns is the
    number of documents whose [data] starts with an entry that has a
    truthy [_id]; each of these documents is gone from under its old id,
    also when that id is the path its prompt id addresses, under which it
    was to be rewritten; a path that a prompt id addresses and that is no
    old id holds the cleaned and stamped payload of a document whose
    prompt id addresses it (a prompt id that is a plain id is that path);
    and every other document is as it was. *)
Theorem X21_repair_moves_nested_documents (env : Env)
    (docs : list (string * Fields)) (st st' : gmap string Fields) (n : Z) :
  fixPromptDetails env docs st = (st', Ok n) ->
  let nested := List.filter isNested docs in
  n = Z.of_nat (length nested) /\
  (forall doc, In doc nested -> st' !! fst doc = None) /\
  (forall doc id,
     In doc nested -> docRef env (realPromptId doc) = Some id ->
     ~ In id (map fst nested) ->
     exists doc', In doc' nested /\ docRef env (realPromptId doc') = Some id /\
                  st' !! id = Some (payloadOf doc')) /\
  (forall doc id,
     plainDocId (realPromptId doc) = true ->
     docRef env (realPromptId doc) = Some id -> realPromptId doc = JStr id) /\
  (forall key,
     ~ In key (map fst nested) ->
     (forall doc, In doc nested -> docRef env (realPromptId doc) <> Some key) ->
     st' !! key = st !! key).
Proof.
  intros H. cbv zeta. unfold fixPromptDetails in H.
  destruct (planDocs env docs emptyPlan) as [plan|e] eqn:P;
    [|discriminate].
  apply planDocs_plan in P as (news & Hs & Hf & Ho & Hc).
  cbn [emptyPlan sets oldDocIds fixedCount app] in Hs, Ho, Hc.
  remember (List.filter isNested docs) as nested eqn:Hnested.
  clear Hnested.
  destruct (Z.ltb_spec 0 (fixedCount plan)) as [Hpos|Hzero].
  - destruct (commitOk env 0); [|discriminate].
    destruct (commitOk env 1); [|discriminate].
    injection H as <- <-. rewrite Hs, Ho.
    assert (Hplain : Forall (fun o => op_merge o = false) news).
    { clear -Hf. induction Hf as [|d o ds os (_ & _ & Hm) _ IH];
        constructor; assumption. }
    split; [lia|]. split; [|split; [|split]].
    + intros doc Hdoc. rewrite lookup_deleteAll.
      destruct (decide (fst doc ∈ map fst nested)) as [_|N]; [reflexivity|].
      exfalso. apply N. apply list_elem_of_In. now apply in_map.
    + intros doc id Hdoc Hid Hnew. rewrite lookup_deleteAll.
      destruct (decide (id ∈ map fst nested)) as [Y|_].
      { apply list_elem_of_In in Y. contradiction. }
      assert (Hop : exists op, op ∈ news /\ op_id op = id).
      { clear -Hf Hdoc Hid. induction Hf as [|d o ds os (Hr & _) _ IH];
          [destruct Hdoc|].
        destruct Hdoc as [->|Hdoc].
        - exists o. split; [apply list_elem_of_here|]. congruence.
        - destruct (IH Hdoc) as (op & Hop & E). exists op.
          split; [now apply list_elem_of_further|exact E]. }
      destruct Hop as (op & Hop & <-).
      destruct (commit_plain_present st news op Hplain Hop)
        as (op' & Hin' & Hid' & Hlook).
      assert (Hdoc' : exists doc', In doc' nested /\
                docRef env (realPromptId doc') = Some (op_id op') /\
                op_data op' = payloadOf doc').
      { clear -Hf Hin'. induction Hf as [|d o ds os (Hr & Hd & _) _ IH];
          [now apply not_elem_of_nil in Hin'|].
        apply elem_of_cons in Hin' as [->|Hin'].
        - exists d. split; [now left|now split].
        - destruct (IH Hin') as (doc' & H1 & H2). exists doc'.
          split; [now right|exact H2]. }
      destruct Hdoc' as (doc' & Hd1 & Hd2 & Hd3).
      exists doc'. split; [exact Hd1|]. split; [now rewrite Hd2, Hid'|].
      now rewrite Hlook, Hd3.
    + intros doc id. apply docRef_plainId.
    + intros key Hold Hreal. rewrite lookup_deleteAll.
      destruct (decide (key ∈ map fst nested)) as [Y|_].
      { apply list_elem_of_In in Y. contradiction. }
      apply commit_untouched. intros op Hop E.
      assert (Hdoc' : exists doc', In doc' nested /\
                docRef env (realPromptId doc') = Some (op_id op)).
      { clear -Hf Hop. induction Hf as [|d o ds os (Hr & _) _ IH];
          [now apply not_elem_of_nil in Hop|].
        apply elem_of_cons in Hop as [->|Hop].
        - exists d. split; [now left|exact Hr].
        - destruct (IH Hop) as (doc' & H1 & H2). exists doc'.
          split; [now right|exact H2]. }
      destruct Hdoc' as (doc' & Hd1 & Hd2).
      apply (Hreal doc' Hd1). now rewrite Hd2, E.
  - injection H as <- <-.
    destruct nested as [|d nested]; [|cbn [length] in Hc; lia].
    cbn [length] in Hc |- *.
    split; [lia|]. split; [intros doc []|]. split; [intros doc id []|].
    split; [intros doc id; apply docRef_plainId|]. reflexivity.
Qed.

(** X22. On a collection in which no document has a non-empty array
    under [data], [fixPromptDetails] changes nothing and returns 0,
    whatever the SDK would have accepted. *)
Theorem X22_repair_leaves_flat_collections (env : Env)
    (docs : list (string * Fields)) (st : gmap string Fields) :
  Forall (fun doc => nestedPrompt (snd doc) = None) docs ->
  fixPromptDetails env docs st = (st, Ok 0).
Proof.
  intros Hflat.
  assert (P : forall plan,
            exists plan', planDocs env docs plan = Ok plan' /\
                          fixedCount plan' = fixedCount plan).
  { induction Hflat as [|doc rest Hdoc _ IH]; intros plan; cbn [planDocs].
    - now exists plan.
    - unfold planDoc. rewrite Hdoc. cbn [bind].
      destruct (IH {| sets := sets plan; oldDocIds := oldDocIds plan;
                      fixedCount := fixedCount plan;
                      skippedCount := skippedCount plan + 1 |})
        as (plan' & E & Hc).
      exists plan'. split; [exact E|exact Hc]. }
  unfold fixPromptDetails. destruct (P emptyPlan) as (plan' & -> & Hc).
  rewrite Hc. reflexivity.
Qed.

End FixFacts.

Module FixWitnesses.
Import Firestore Fix FixFacts Samples MoreSamples.

Lemma X21_witness :
  fst (fixPromptDetails allOk nestedDetails (list_to_map nestedDetails))
    !! "auto1" = None /\
  fst (fixPromptDetails allOk nestedDetails (list_to_map nestedDetails))
    !! "d2" = None.
Proof.
  destruct (X21_repair_moves_nested_documents allOk nestedDetails
              (list_to_map nestedDetails)
              (fst (fixPromptDetails allOk nestedDetails
                      (list_to_map nestedDetails)))
              2%Z)
    as (_ & H & _).
  - vm_compute. reflexivity.
  - split.
    + apply (H ("auto1", [("data", JArr [JObj [("_id", JStr "d1"); ("text", JStr "one")]])])).
      now left.
    + apply (H ("d2", [("data", JArr [JObj [("_id", JStr "d2"); ("text", JStr "two")]])])).
      right. now left.
Defined.

Lemma X22_witness :
  fixPromptDetails allOk [("d3", [("text", JStr "three")])]
    {[ "d3" := [("text", JStr "three")] ]}
  = ({[ "d3" := [("text", JStr "three")] ]}, Ok 0%Z).
Proof.
  apply (X22_repair_leaves_flat_collections allOk).
  repeat constructor.
Defined.

(** The nested document stored under its own prompt id is lost: it is
    rewritten under that id and then deleted as an old document. *)
Example repair_deletes_a_document_stored_under_its_prompt_id :
  let st' := fst (fixPromptDetails allOk nestedDetails (list_to_map nestedDetails)) in
  st' !! "d2" = None /\
  st' !! "d1" = Some [("text", JStr "one"); ("createdAt", JServerTimestamp);
                      ("updatedAt", JServerTimestamp)] /\
  st' !! "d3" = Some [("text", JStr "three")].
Proof. vm_compute. repeat split. Qed.

End FixWitnesses.

(** * The v2 migration as a whole *)

Module MainFacts.
Import Firestore Writer Migration MigrationFacts Files Mapping Main.
Local Open Scope Z_scope.

Lemma forEachEmit_ext emit emit' items :
  (forall item, emit item = emit' item) ->
  forEachEmit emit items = forEachEmit emit' items.
Proof.
  intros H. induction items as [|item rest IH]; cbn [forEachEmit];
    [reflexivity|].
  now rewrite H, IH.
Qed.

Lemma collect_ext bucket emitFor emitFor' files :
  (forall f item, emitFor f item = emitFor' f item) ->
  collect bucket emitFor files = collect bucket emitFor' files.
Proof.
  intros H. induction files as [|f rest IH]; cbn [collect]; [reflexivity|].
  destruct (readItems bucket f) as [items|e]; cbn [bind]; [|reflexivity].
  now rewrite (forEachEmit_ext (emitFor f) (emitFor' f) items (H f)), IH.
Qed.

(** Without a mapping, prompts are collected and written as prompt
    details are. *)
Lemma migratePrompts_unlinked toLowerCase env bucket st files mode :
  migratePrompts toLowerCase env bucket st files None mode
  = migratePromptDetails env bucket st files mode.
Proof.
  unfold migratePrompts, migratePromptDetails.
  destruct files as [|f rest]; [reflexivity|].
  rewrite (collect_ext bucket _ (fun _ => emitPlain)); [reflexivity|].
  intros f0 item. apply emitPrompt_unlinked.
  unfold linkCategory. now destruct (categoryNameOf f0).
Qed.

Lemma match_three_lists {A B} (l1 l2 l3 : list A) (a b : B) :
  match l1, l2, l3 with
  | [], [], [] => a
  | _, _, _ => b
  end
  = match l1 ++ l2 ++ l3 with [] => a | _ => b end.
Proof. destruct l1, l2, l3; reflexivity. Qed.

(** X23. In a run of the v2 migration in a mode other than ["update"]
    that ends with its summary and reports no category written, no
    mapping is built: the prompt files are collected and written exactly
    as prompt detail files are, without any category link, whatever the
    categories collection holds. *)
Theorem X23_no_category_written_no_prompt_linked
    (toLowerCase : string -> string) (keyOf : JsVal -> string)
    (server : Server) (bucket : Bucket) (files : list string)
    (w w' : World) (mode : string) (s : Summary) :
  mode <> "update" ->
  main toLowerCase keyOf server bucket (Ok files) w mode = (w', Ok (Some s)) ->
  successCount (categoriesResult s) = 0 ->
  exists r,
    migratePromptDetails (promptsEnv server) bucket (promptsCol w)
      (prompts (listAndCategorizeFiles toLowerCase files)) mode = Ok r /\
    promptsCol w' = w_store r /\ promptsResult s = w_counts r.
Proof.
  intros Hmode H Hzero. unfold main in H.
  set (c := listAndCategorizeFiles toLowerCase files) in *.
  rewrite match_three_lists in H.
  destruct (categories c ++ prompts c ++ promptDetails c); [discriminate|].
  destruct (migrateCategories _ _ _ _ _) as [r1|e]; [|discriminate].
  destruct ((0 <? successCount (w_counts r1)) || String.eqb mode "update")
    eqn:C.
  - destruct (migratePrompts _ _ _ _ _ _ _) as [r2|e]; [|discriminate].
    destruct (migratePromptDetails (promptDetailsEnv server) _ _ _ _)
      as [r3|e]; [|discriminate].
    injection H as <- <-. cbn [categoriesResult] in Hzero. exfalso.
    apply orb_true_iff in C as [C|C].
    + apply Z.ltb_lt in C. lia.
    + apply String.eqb_eq in C. contradiction.
  - rewrite migratePrompts_unlinked in H.
    destruct (migratePromptDetails (promptsEnv server) _ _ _ _) as [r2|e];
      [|discriminate].
    destruct (migratePromptDetails (promptDetailsEnv server) _ _ _ _)
      as [r3|e]; [|discriminate].
    injection H as <- <-. exists r2. repeat split.
Qed.

End MainFacts.

Module MainWitnesses.
Import Firestore Writer Migration Files Main MainFacts Samples MoreSamples.

Lemma X23_witness :
  exists r,
    migratePromptDetails allOk sampleBucket ∅
      (prompts (listAndCategorizeFiles asciiToLowerCase sampleListing)) "fresh"
    = Ok r /\
    promptsCol (fst (main asciiToLowerCase sampleKeyOf sampleServer sampleBucket
                       (Ok sampleListing) sampleWorld "fresh"))
    = w_store r.
Proof.
  destruct (X23_no_category_written_no_prompt_linked asciiToLowerCase
              sampleKeyOf sampleServer sampleBucket sampleListing sampleWorld
              (fst (main asciiToLowerCase sampleKeyOf sampleServer sampleBucket
                      (Ok sampleListing) sampleWorld "fresh"))
              "fresh"
              (match snd (main asciiToLowerCase sampleKeyOf sampleServer
                            sampleBucket (Ok sampleListing) sampleWorld "fresh")
               with
               | Ok (Some s) => s
               | _ => noSummary
               end))
    as (r & H1 & H2 & _).
  - discriminate.
  - vm_compute. reflexivity.
  - vm_compute. reflexivity.
  - exists r. split; [exact H1|exact H2].
Defined.

(** The same files in the two modes: in fresh mode the prompt keeps the
    [categoryId] of its source item, in update mode it is linked to the
    category of the collection. *)
Example fresh_run_links_nothing_update_run_links :
  promptsCol (fst (main asciiToLowerCase sampleKeyOf sampleServer sampleBucket
                     (Ok sampleListing) sampleWorld "fresh")) !! "p2"
  = Some [("categoryId", JStr "stale"); ("createdAt", JServerTimestamp);
          ("updatedAt", JServerTimestamp)] /\
  promptsCol (fst (main asciiToLowerCase sampleKeyOf sampleServer sampleBucket
                     (Ok sampleListing) sampleWorld "update")) !! "p2"
  = Some [("categoryId", JStr "cat-music"); ("createdAt", JServerTimestamp);
          ("updatedAt", JServerTimestamp)].
Proof. vm_compute. split; reflexivity. Qed.

End MainWitnesses.
